(** * cursor_id_modifier.py: a shallow embedding and its verified properties

    The script resets the device identifiers an editor keeps in
    [storage.json] (and, on Windows, the [MachineGuid] registry value).
    The embedding follows the source function by function:

    - Python values are Rocq values ([str] is [string], a parsed JSON
      document is [json], a [dict] is an insertion-ordered association
      list);
    - everything the script does to the outside world goes through one
      monad [M]: a reader over the environment [Env] (what the operating
      system answers), a state [State] (files, registry value, counters,
      the console/effect log) and an outcome that is a value, a
      [sys.exit] or an uncaught exception. *)

From Stdlib Require Import ZArith List String Ascii Bool Lia.
From stdpp Require Import gmap strings list.

Local Open Scope string_scope.
Local Open Scope list_scope.

(** ** Characters and strings as Python sees them *)

(** [str.upper] / [str.lower] restricted to ASCII, which is all the
    script ever feeds them besides process names. *)
Definition ascii_upper (c : ascii) : ascii :=
  let n := nat_of_ascii c in
  if (97 <=? n)%nat && (n <=? 122)%nat then ascii_of_nat (n - 32) else c.

Definition ascii_lower (c : ascii) : ascii :=
  let n := nat_of_ascii c in
  if (65 <=? n)%nat && (n <=? 90)%nat then ascii_of_nat (n + 32) else c.

Definition str_upper (s : string) : string :=
  string_of_list_ascii (map ascii_upper (list_ascii_of_string s)).

Definition str_lower (s : string) : string :=
  string_of_list_ascii (map ascii_lower (list_ascii_of_string s)).

(** [''.join(chars)] for a list of one-character strings. *)
Definition join_chars (l : list ascii) : string := string_of_list_ascii l.

(** [string.ascii_lowercase], [string.digits] and the two literal
    alphabets of [new_standard_machine_id]. *)
Definition ascii_lowercase : string := "abcdefghijklmnopqrstuvwxyz".
Definition digits : string := "0123456789".
Definition hex_alphabet : string := "0123456789abcdef".
Definition variant_alphabet : string := "89ab".

Definition is_lower_hex (c : ascii) : bool :=
  existsb (Ascii.eqb c) (list_ascii_of_string hex_alphabet).

Definition is_upper_hex (c : ascii) : bool :=
  existsb (Ascii.eqb c) (list_ascii_of_string "0123456789ABCDEF").

(** ** The [random] module

    The generator state is a tape of raw draws and a cursor; every
    [random.choice] / element of [random.choices] consumes one draw and
    indexes the population with it. *)
Record Rng := mkRng { rng_tape : nat -> nat; rng_pos : nat }.

Definition chars (s : string) : list ascii := list_ascii_of_string s.

(** [random.choice(population)] *)
Definition random_choice (population : string) (g : Rng) : ascii * Rng :=
  let n := List.length (chars population) in
  (nth (rng_tape g (rng_pos g) mod n) (chars population) "0"%char,
   mkRng (rng_tape g) (S (rng_pos g))).

(** [random.choices(population, k=k)] *)
Fixpoint random_choices (population : string) (k : nat) (g : Rng)
  : list ascii * Rng :=
  match k with
  | O => ([], g)
  | S k' =>
      let '(c, g1) := random_choice population g in
      let '(cs, g2) := random_choices population k' g1 in
      (c :: cs, g2)
  end.

(** ** Identifier generator *)

(** [get_random_hex(length)] (lines 85-87): despite its name it draws from
    [string.ascii_lowercase + string.digits]. *)
Definition get_random_hex (length : nat) (g : Rng) : string * Rng :=
  let '(cs, g') := random_choices (ascii_lowercase +:+ digits) length g in
  (join_chars cs, g').

(** The loop body of [new_standard_machine_id] over the remaining
    template characters; a character that is none of [-], [4], [x], [y]
    appends nothing. *)
Fixpoint fill_template (template : list ascii) (g : Rng)
  : list ascii * Rng :=
  match template with
  | [] => ([], g)
  | char :: rest =>
      if Ascii.eqb char "-" || Ascii.eqb char "4" then
        let '(result, g') := fill_template rest g in (char :: result, g')
      else if Ascii.eqb char "x" then
        let '(c, g1) := random_choice hex_alphabet g in
        let '(result, g') := fill_template rest g1 in (c :: result, g')
      else if Ascii.eqb char "y" then
        let '(c, g1) := random_choice variant_alphabet g in
        let '(result, g') := fill_template rest g1 in (c :: result, g')
      else fill_template rest g
  end.

Definition id_template : string := "xxxxxxxx-xxxx-4xxx-yxxx-xxxxxxxxxxxx".

(** [new_standard_machine_id()] (lines 89-102) *)
Definition new_standard_machine_id (g : Rng) : string * Rng :=
  let '(result, g') := fill_template (chars id_template) g in
  (join_chars result, g').

(** One hexadecimal digit of [%x]. *)
Definition hex_digit (d : nat) : ascii := nth d (chars hex_alphabet) "0"%char.

(** [f"{b:02x}"] for a byte [b < 256]. *)
Definition format_02x (b : nat) : list ascii :=
  [hex_digit (b / 16); hex_digit (b mod 16)].

(** [''.join(f"{b:02x}" for b in data)] *)
Definition hex_encode (data : list nat) : string :=
  join_chars (concat (map format_02x data)).

(** The bytes literal [b"auth0|user_"] of line 397. *)
Definition machine_id_prefix : list nat :=
  map nat_of_ascii (chars "auth0|user_").

Definition prefix_hex : string := hex_encode machine_id_prefix.

(** [uuid.uuid4()]: sixteen bytes of [os.urandom] read as a big-endian
    integer, with the variant and version bits forced as the standard
    library's [UUID.__init__(version=4)] does. *)
Definition uuid4 (entropy : Z) : Z :=
  let int := (entropy mod 2 ^ 128)%Z in
  let int := Z.land int (Z.lnot (Z.shiftl 0xc000 48)) in
  let int := Z.lor int (Z.shiftl 0x8000 48) in
  let int := Z.land int (Z.lnot (Z.shiftl 0xf000 64)) in
  Z.lor int (Z.shiftl 4 76).

(** [UUID.hex], that is ['%032x' % int]: for [0 <= int < 2^128] these are
    the 32 nibbles of [int], most significant first. *)
Definition uuid_hex (int : Z) : string :=
  join_chars
    (map (fun i => hex_digit (Z.to_nat ((int / 16 ^ Z.of_nat i) mod 16)))
         (rev (seq 0 32))).

(** [str(UUID)]: the hex digits grouped 8-4-4-4-12. *)
Definition uuid_str (int : Z) : string :=
  let hex := uuid_hex int in
  substring 0 8 hex +:+ "-" +:+ substring 8 4 hex +:+ "-" +:+
  substring 12 4 hex +:+ "-" +:+ substring 16 4 hex +:+ "-" +:+
  substring 20 12 hex.

(** The four identifiers of one run. *)
Record IdentitySet := mkIds {
  ids_machine_id : string;
  ids_mac_machine_id : string;
  ids_dev_device_id : string;
  ids_sqm_id : string
}.

(** Lines 395-400 of [main]: [entropy1] and [entropy2] are the results of
    the two [os.urandom(16)] calls behind the two [uuid.uuid4()]. *)
Definition generate_ids (g : Rng) (entropy1 entropy2 : Z) : IdentitySet * Rng :=
  let '(mac_machine_id, g1) := new_standard_machine_id g in
  let uuid_str_ := uuid_str (uuid4 entropy1) in
  let '(random_part, g2) := get_random_hex 32 g1 in
  let machine_id := prefix_hex +:+ random_part in
  let sqm_id := "{" +:+ str_upper (uuid_hex (uuid4 entropy2)) +:+ "}" in
  (mkIds machine_id mac_machine_id uuid_str_ sqm_id, g2).

(** ** Python exceptions, outcomes and the effect monad *)

Inductive exn :=
| AttributeError | TypeError | KeyError | OSError
| CalledProcessError | ImportError.

(** How a Python computation ends: with a value, with [sys.exit(code)]
    ([SystemExit] is not an [Exception], so no [except Exception] of the
    script catches it), or with an exception still propagating. *)
Inductive Outcome (A : Type) : Type :=
| Val (a : A)
| Exited (code : Z)
| Raised (e : exn).
Arguments Val {A} a.
Arguments Exited {A} code.
Arguments Raised {A} e.

(** The exit status the operating system sees; an uncaught exception
    ends the interpreter with status 1. *)
Definition exit_status (o : Outcome unit) : Z :=
  match o with
  | Val _ => 0
  | Exited code => code
  | Raised _ => 1
  end.

(** ** JSON documents as [json.loads] builds them *)

#[local] Set Warnings "-register-all".
Inductive json :=
| JNull
| JBool (b : bool)
| JInt (z : Z)
| JFloat (repr : string)
| JStr (s : string)
| JArr (items : list json)
| JObj (members : list (string * json)).

(** The [json] module is a collaborator: [json_loads] returns [None]
    where [json.loads] raises; [json_dumps] is
    [json.dumps(_, indent=2, ensure_ascii=False)]. *)
Class JsonCodec := {
  json_loads : string -> option json;
  json_dumps : json -> string
}.

(** A Python [dict] keeps insertion order and unique keys. *)
Fixpoint dict_get (k : string) (d : list (string * json)) : option json :=
  match d with
  | [] => None
  | (k', v) :: rest => if String.eqb k' k then Some v else dict_get k rest
  end.

(** [d[k] = v]: in place for a key already there, appended otherwise. *)
Fixpoint dict_set (k : string) (v : json) (d : list (string * json))
  : list (string * json) :=
  match d with
  | [] => [(k, v)]
  | (k', v') :: rest =>
      if String.eqb k' k then (k, v) :: rest
      else (k', v') :: dict_set k v rest
  end.

Definition is_dict (v : json) : bool :=
  match v with JObj _ => true | _ => false end.

Definition is_JStr (s : string) (v : json) : bool :=
  match v with JStr s' => String.eqb s' s | _ => false end.

(** [key in container]: key membership for a dict, element equality for
    a list, substring test for a str, [TypeError] for the rest. *)
Definition py_contains (key : string) (container : json) : exn + bool :=
  match container with
  | JObj d => inr (bool_decide (is_Some (dict_get key d)))
  | JArr items => inr (existsb (is_JStr key) items)
  | JStr s => inr (bool_decide (is_Some (index 0 key s)))
  | JNull | JBool _ | JInt _ | JFloat _ => inl TypeError
  end.

(** [container[key]] for a str key. *)
Definition py_getitem (container : json) (key : string) : exn + json :=
  match container with
  | JObj d => match dict_get key d with Some v => inr v | None => inl KeyError end
  | _ => inl TypeError
  end.

(** [container[key] = value] for a str key. *)
Definition py_setitem (container : json) (key : string) (value : json)
  : exn + json :=
  match container with
  | JObj d => inr (JObj (dict_set key value d))
  | _ => inl TypeError
  end.

(** [container[outer][key] = value]: the inner object is reached through
    the outer one and mutated in place, so the change shows in
    [container]. *)
Definition py_setitem2 (container : json) (outer key : string) (value : json)
  : exn + json :=
  match py_getitem container outer with
  | inl e => inl e
  | inr inner =>
      match py_setitem inner key value with
      | inl e => inl e
      | inr inner' => py_setitem container outer inner'
      end
  end.

(** ** The outside world *)

Record proc := mkProc {
  proc_pid : nat;
  proc_name : option string;   (* [None] where psutil was denied access *)
  proc_exe : option string
}.

(** What becomes of a file opened with mode ['w'] and written to. *)
Inductive write_outcome :=
| WriteOk
| OpenFails                       (* file untouched *)
| WriteFails (on_disk : string).  (* truncated, then only this much stored *)

Inductive callee := FnCloseCursorProcess | FnUpdateMachineGuid | FnUpdateStorageFile.

(** Every [print] of the modelled functions, by source line; blank
    [print()] lines are left out. *)
Inductive msg :=
| MsgFoundRunning (name : string)                        (* 132 *)
| MsgProcInfo (p : proc)                                 (* 134 *)
| MsgTryClose (name : string)                            (* 136 *)
| MsgTerminateFailed (name : string) (pid : nat)         (* 141 *)
| MsgCannotClose (name : string)                         (* 158 *)
| MsgStillRunning (p : proc)                             (* 160 *)
| MsgCloseManually                                       (* 161 *)
| MsgWaiting (retry_count : nat)                         (* 164 *)
| MsgClosed (name : string)                              (* 168 *)
| MsgSkipGuidNonWindows                                  (* 173, 408 *)
| MsgUpdatingGuid                                        (* 176 *)
| MsgRegOpenFailed                                       (* 190 *)
| MsgRegCurrent (guid : string)                          (* 197-199 *)
| MsgRegQueryFailed                                      (* 201 *)
| MsgRegBackupDirFailed                                  (* 208 *)
| MsgRegBackupTo (file : string)                         (* 215 *)
| MsgRegBackupOk                                         (* 218 *)
| MsgRegBackupFailed                                     (* 220 *)
| MsgRegSet (guid : string)                              (* 226 *)
| MsgRegVerified (guid : string)                         (* 231-233 *)
| MsgRegVerifyFailed (found expected : string)           (* 236 *)
| MsgRegSetFailed                                        (* 239 *)
| MsgRegRestoring (file : string)                        (* 243 *)
| MsgRegRestored                                         (* 247 *)
| MsgRegRestoreFailedManual (file : string)              (* 249 *)
| MsgSkipGuidNoWinreg                                    (* 252 *)
| MsgConfigNotFound (file : string)                      (* 258 *)
| MsgTipRunCursorFirst                                   (* 259 *)
| MsgReadFailed (file : string)                          (* 266 *)
| MsgParseFailed                                         (* 272 *)
| MsgRootNotObject                                       (* 280 *)
| MsgConfigUpdated (file : string)                       (* 293 *)
| MsgWriteFailed (file : string)                         (* 296 *)
| MsgSevereRestoreFailed (file : string)                 (* 302 *)
| MsgNeedAdmin                                           (* 309-310 *)
| MsgBanner                                              (* 320-338 *)
| MsgVersion (v : string)                                (* 343 *)
| MsgVersionUnknown                                      (* 345-346 *)
| MsgSupportedNote                                       (* 349 *)
| MsgCheckingProcesses                                   (* 353 *)
| MsgBackupDirCreated (dir : string)                     (* 374 *)
| MsgBackupDirFailed (dir : string)                      (* 376 *)
| MsgBackingUpConfig                                     (* 381 *)
| MsgConfigBackedUp (file : string)                      (* 386 *)
| MsgConfigBackupFailed (file : string)                  (* 388 *)
| MsgNoConfigToBackup (file : string)                    (* 390 *)
| MsgGeneratingIds                                       (* 394 *)
| MsgUpdatingConfig                                      (* 411 *)
| MsgConfigUpdateOk                                      (* 421 *)
| MsgConfigDetails (machine_id mac_machine_id dev_device_id sqm_id : string)
                                                         (* 424-428 *)
| MsgMainUpdateFailed                                    (* 430 *)
| MsgFileTree (user_dir : string)                        (* 435-441 *)
| MsgBackupEntry (name : string)                         (* 448 *)
| MsgBackupsEmpty                                        (* 451 *)
| MsgBackupsUnreadable                                   (* 453 *)
| MsgDone.                                               (* 457-461 *)

(** What the script did, in order.  [ECall] marks the entry of a
    function; the other events are the calls into the operating system
    with the answer they got. *)
Inductive event :=
| ECall (f : callee)
| EPrint (m : msg)
| EInput
| EClearScreen
| EProcessIter (snapshot : list proc)
| ETerminate (pid : nat) (ok : bool)
| ESleep (seconds : nat)
| EMkdir (dir : string) (ok : bool)
| ECopy (src dst : string) (ok : bool)
| ERead (file : string) (ok : bool)
| EWrite (file content : string) (res : write_outcome)
| ERegOpen (ok : bool)
| ERegQuery (res : option string)
| ERegExport (file : string) (ok : bool)
| ERegSet (value : string) (ok : bool)
| ERegImport (file : string) (ok : bool).

(** The answers of the operating system; the indexed ones are asked by
    the number of the call. *)
Record Env := mkEnv {
  env_is_admin : bool;
  env_win32 : bool;                          (* sys.platform == 'win32' *)
  env_config_dir : string;                   (* appdirs.user_config_dir() *)
  env_cursor_version : option string;        (* get_cursor_version() *)
  env_now : nat -> string;                   (* strftime('%Y%m%d_%H%M%S') *)
  env_random : nat -> nat;                   (* the random module's draws *)
  env_urandom : nat -> Z;                    (* os.urandom(16) as an integer *)
  env_process_iter : nat -> list proc;       (* psutil.process_iter *)
  env_terminate_ok : nat -> bool;            (* proc.terminate(), by pid *)
  env_mkdir_ok : string -> bool;
  env_copy_ok : bool;                        (* shutil.copy2 *)
  env_read_ok : bool;
  env_write : nat -> write_outcome;
  env_iterdir_ok : bool;
  env_winreg : bool;                         (* import winreg *)
  env_reg_open_ok : bool;
  env_reg_query_ok : bool;
  env_reg_export_ok : bool;                  (* reg.exe export *)
  env_reg_set_ok : bool;                     (* winreg.SetValueEx *)
  env_reg_readback : string -> option string; (* QueryValueEx after the set *)
  env_reg_import_ok : bool                   (* reg.exe import *)
}.

Record State := mkState {
  st_files : gmap string string;    (* regular files: what is stored *)
  st_dirs : gset string;            (* directories *)
  st_guid : option string;          (* the MachineGuid registry value *)
  st_draws : nat;                   (* draws taken from [random] *)
  st_urandom : nat;                 (* [os.urandom] calls *)
  st_polls : nat;                   (* [process_iter] calls *)
  st_writes : nat;                  (* files opened for writing *)
  st_clock : nat;                   (* [datetime.now()] calls *)
  st_log : list event               (* newest event first *)
}.

Definition M (A : Type) : Type := Env -> State -> Outcome A * State.

Definition ret {A} (a : A) : M A := fun _ st => (Val a, st).

Definition bind {A B} (m : M A) (k : A -> M B) : M B := fun env st =>
  match m env st with
  | (Val a, st') => k a env st'
  | (Exited code, st') => (Exited code, st')
  | (Raised e, st') => (Raised e, st')
  end.

Declare Scope py_scope.
Delimit Scope py_scope with py.
Bind Scope py_scope with M.
Notation "x ← y ; z" := (bind y (fun x => z))
  (at level 20, y at level 100, z at level 200, only parsing) : py_scope.
Notation "x ;; z" := (bind x (fun _ => z))
  (at level 100, z at level 200, only parsing, right associativity) : py_scope.
Local Open Scope py_scope.

Definition raise {A} (e : exn) : M A := fun _ st => (Raised e, st).
Definition sys_exit {A} (code : Z) : M A := fun _ st => (Exited code, st).

(** [try: body / except Exception as e: handler e] *)
Definition try_except {A} (body : M A) (handler : exn -> M A) : M A :=
  fun env st =>
    match body env st with
    | (Raised e, st') => handler e env st'
    | r => r
    end.

(** [try: body / except ImportError: handler] *)
Definition try_except_import {A} (body : M A) (handler : M A) : M A :=
  fun env st =>
    match body env st with
    | (Raised ImportError, st') => handler env st'
    | r => r
    end.

Definition lift_py {A} (r : exn + A) : M A :=
  match r with inl e => raise e | inr a => ret a end.

Definition ask {A} (f : Env -> A) : M A := fun env st => (Val (f env), st).
Definition get {A} (f : State -> A) : M A := fun _ st => (Val (f st), st).
Definition modify (f : State -> State) : M unit := fun _ st => (Val tt, f st).

Definition set_files (f : gmap string string) (st : State) : State :=
  mkState f (st_dirs st) (st_guid st) (st_draws st) (st_urandom st)
          (st_polls st) (st_writes st) (st_clock st) (st_log st).
Definition set_dirs (d : gset string) (st : State) : State :=
  mkState (st_files st) d (st_guid st) (st_draws st) (st_urandom st)
          (st_polls st) (st_writes st) (st_clock st) (st_log st).
Definition set_guid (g : option string) (st : State) : State :=
  mkState (st_files st) (st_dirs st) g (st_draws st) (st_urandom st)
          (st_polls st) (st_writes st) (st_clock st) (st_log st).
Definition set_draws (n : nat) (st : State) : State :=
  mkState (st_files st) (st_dirs st) (st_guid st) n (st_urandom st)
          (st_polls st) (st_writes st) (st_clock st) (st_log st).
Definition set_urandom (n : nat) (st : State) : State :=
  mkState (st_files st) (st_dirs st) (st_guid st) (st_draws st) n
          (st_polls st) (st_writes st) (st_clock st) (st_log st).
Definition set_polls (n : nat) (st : State) : State :=
  mkState (st_files st) (st_dirs st) (st_guid st) (st_draws st) (st_urandom st)
          n (st_writes st) (st_clock st) (st_log st).
Definition set_writes (n : nat) (st : State) : State :=
  mkState (st_files st) (st_dirs st) (st_guid st) (st_draws st) (st_urandom st)
          (st_polls st) n (st_clock st) (st_log st).
Definition set_clock (n : nat) (st : State) : State :=
  mkState (st_files st) (st_dirs st) (st_guid st) (st_draws st) (st_urandom st)
          (st_polls st) (st_writes st) n (st_log st).
Definition set_log (l : list event) (st : State) : State :=
  mkState (st_files st) (st_dirs st) (st_guid st) (st_draws st) (st_urandom st)
          (st_polls st) (st_writes st) (st_clock st) l.

Definition log (e : event) : M unit := modify (fun st => set_log (e :: st_log st) st).
Definition print (m : msg) : M unit := log (EPrint m).

(** [for x in l: body x] *)
Fixpoint for_each {A} (l : list A) (body : A -> M unit) : M unit :=
  match l with
  | [] => ret tt
  | x :: rest => body x;; for_each rest body
  end.

(** ** Operating-system primitives *)

(** [pathlib]'s [/]. *)
Definition path_join (a b : string) : string := a +:+ "/" +:+ b.

(** [Path.exists()] *)
Definition path_exists (p : string) : M bool :=
  get (fun st => bool_decide (is_Some (st_files st !! p)) || bool_decide (p ∈ st_dirs st)).

(** Paths are split at [/], the separator [path_join] puts.  The
    prefixes of a path that end just before a [/], then the path itself,
    shortest first: [/a/b] gives the root (written as the empty path),
    [/a] and [/a/b]. *)
Fixpoint path_prefixes (acc rest : string) : list string :=
  match rest with
  | EmptyString => [acc]
  | String c r =>
      if Ascii.eqb c "/" then acc :: path_prefixes (acc +:+ "/") r
      else path_prefixes (acc +:+ String c "") r
  end.

(** A path and its ancestors ([Path.parents]), nearest first.  The root
    is left out: it always exists. *)
Definition path_lineage (p : string) : list string :=
  rev (List.filter (fun q => negb (String.eqb q "")) (path_prefixes "" p)).

(** [Path.is_dir()] *)
Definition is_dir (p : string) : M bool :=
  get (fun st => bool_decide (p ∈ st_dirs st)).

(** How one [os.mkdir] ends: the directory is made, or
    [FileNotFoundError] (the parent is missing), or another [OSError]
    (the path is taken, the parent is a regular file, or the operating
    system refuses). *)
Inductive mkdir_result := Created | ParentMissing | Refused.

(** [os.mkdir(d)], where [parent] is the directory [d] lies in, [None]
    for the root. *)
Definition os_mkdir (parent : option string) (d : string) : M mkdir_result :=
  parent_is_dir ←
    get (fun st => match parent with
                   | Some q => bool_decide (q ∈ st_dirs st)
                   | None => true
                   end);
  parent_is_file ←
    get (fun st => match parent with
                   | Some q => bool_decide (is_Some (st_files st !! q))
                   | None => false
                   end);
  taken ← path_exists d;
  allowed ← ask (fun env => env_mkdir_ok env d);
  if negb parent_is_dir then
    log (EMkdir d false);;
    ret (if parent_is_file then Refused else ParentMissing)
  else if taken || negb allowed then log (EMkdir d false);; ret Refused
  else
    log (EMkdir d true);;
    modify (fun st => set_dirs ({[d]} ∪ st_dirs st) st);;
    ret Created.

(** The [except OSError] branch of [Path.mkdir] under [exist_ok=True]:
    the error is dropped when the path is a directory. *)
Definition unless_is_dir (d : string) : M unit :=
  d_is_dir ← is_dir d;
  if d_is_dir then ret tt else raise OSError.

(** [Path.mkdir(parents=True, exist_ok=True)] as pathlib runs it, over
    the lineage of the path: [os.mkdir] first; on [FileNotFoundError]
    the parent is made in the same way and [os.mkdir] is tried once
    more, this time without [parents]; any other [OSError] is dropped
    when the path is a directory.  The empty lineage is the root, which
    is there.  Directories made on the way stay when a later step
    raises. *)
Fixpoint mkdir_parents (lineage : list string) : M unit :=
  match lineage with
  | [] => ret tt
  | d :: parents =>
      r ← os_mkdir (head parents) d;
      match r with
      | Created => ret tt
      | ParentMissing =>
          mkdir_parents parents;;
          r ← os_mkdir (head parents) d;
          match r with
          | Created => ret tt
          | ParentMissing => raise OSError
          | Refused => unless_is_dir d
          end
      | Refused => unless_is_dir d
      end
  end.

Definition mkdir (dir : string) : M unit := mkdir_parents (path_lineage dir).

(** [shutil.copy2(src, dst)] *)
Definition copy2 (src dst : string) : M unit :=
  ok ← ask env_copy_ok;
  content ← get (fun st => st_files st !! src);
  match content with
  | Some c =>
      if ok then
        log (ECopy src dst true);;
        modify (fun st => set_files (<[dst := c]> (st_files st)) st)
      else log (ECopy src dst false);; raise OSError
  | None => log (ECopy src dst false);; raise OSError
  end.

(** Text mode with [newline=None], which is what [open] without a
    [newline] argument gives.  On reading, a carriage return followed by
    a line feed, and a carriage return alone, become one line feed. *)
Definition LF : ascii := "010"%char.
Definition CR : ascii := "013"%char.

Fixpoint universal_newlines (s : string) : string :=
  match s with
  | EmptyString => EmptyString
  | String c r =>
      if Ascii.eqb c CR then
        String LF
          match r with
          | String c' r' =>
              if Ascii.eqb c' LF then universal_newlines r'
              else universal_newlines r
          | EmptyString => EmptyString
          end
      else String c (universal_newlines r)
  end.

(** On writing, every line feed becomes [os.linesep]. *)
Fixpoint translate_newlines (linesep : string) (s : string) : string :=
  match s with
  | EmptyString => EmptyString
  | String c r =>
      (if Ascii.eqb c LF then linesep else String c "") +:+
      translate_newlines linesep r
  end.

(** [os.linesep] *)
Definition os_linesep (env : Env) : string :=
  if env_win32 env then String CR (String LF "") else String LF "".

(** What [f.write(text)] puts into a file opened in text mode. *)
Definition written (env : Env) (text : string) : string :=
  translate_newlines (os_linesep env) text.

(** [with open(p, 'r', encoding='utf-8') as f: f.read()].  Whatever
    makes the [open] or the [read] raise (permissions, bytes that are
    not UTF-8) is the answer [false] of [env_read_ok]; a file that is
    not there raises in any case. *)
Definition read_text (p : string) : M string :=
  ok ← ask env_read_ok;
  content ← get (fun st => st_files st !! p);
  match content with
  | Some c => if ok then log (ERead p true);; ret (universal_newlines c)
              else log (ERead p false);; raise OSError
  | None => log (ERead p false);; raise OSError
  end.

(** [with open(p, 'w', encoding='utf-8') as f: f.write(content)].  The
    event records the text handed to [write]; the file gets it with the
    line ends of the platform. *)
Definition write_text (p content : string) : M unit :=
  n ← get st_writes;
  res ← ask (fun env => env_write env n);
  on_disk ← ask (fun env => written env content);
  modify (set_writes (S n));;
  log (EWrite p content res);;
  match res with
  | WriteOk => modify (fun st => set_files (<[p := on_disk]> (st_files st)) st)
  | OpenFails => raise OSError
  | WriteFails partial =>
      modify (fun st => set_files (<[p := partial]> (st_files st)) st);;
      raise OSError
  end.

(** [datetime.datetime.now().strftime('%Y%m%d_%H%M%S')] *)
Definition now_stamp : M string :=
  n ← get st_clock;
  modify (set_clock (S n));;
  ask (fun env => env_now env n).

(** [uuid.uuid4()] *)
Definition new_uuid4 : M Z :=
  n ← get st_urandom;
  modify (set_urandom (S n));;
  ask (fun env => uuid4 (env_urandom env n)).

(** Lines 395-400 run on the interpreter's [random] state and on two
    [os.urandom] calls. *)
Definition new_ids : M IdentitySet := fun env st =>
  let r :=
    generate_ids (mkRng (env_random env) (st_draws st))
      (env_urandom env (st_urandom st)) (env_urandom env (S (st_urandom st))) in
  (Val (fst r), set_urandom (S (S (st_urandom st))) (set_draws (rng_pos (snd r)) st)).

(** [press_enter_to_exit(exit_code)] (lines 72-75) *)
Definition press_enter_to_exit {A} (exit_code : Z) : M A :=
  log EInput;; sys_exit exit_code.

(** ** Process quiescer *)

Definition MAX_RETRIES : nat := 5.
Definition WAIT_TIME_SECONDS : nat := 1.

(** The selection loop of lines 124-129 and 146-151 over one snapshot:
    [proc.info['name'].lower()] raises [AttributeError] on a process
    whose name psutil could not read, and that error is not among the
    three the loop catches. *)
Fixpoint select_matching (process_name : string) (snapshot : list proc)
  : exn + list proc :=
  match snapshot with
  | [] => inr []
  | p :: rest =>
      match proc_name p with
      | None => inl AttributeError
      | Some name =>
          match select_matching process_name rest with
          | inl e => inl e
          | inr l =>
              inr (if String.eqb (str_lower name) (str_lower process_name)
                   then p :: l else l)
          end
      end
  end.

Definition process_iter : M (list proc) :=
  n ← get st_polls;
  snapshot ← ask (fun env => env_process_iter env n);
  modify (set_polls (S n));;
  log (EProcessIter snapshot);;
  ret snapshot.

Definition find_processes (process_name : string) : M (list proc) :=
  snapshot ← process_iter;
  lift_py (select_matching process_name snapshot).

(** [proc.terminate()] inside its [try] (lines 138-141) *)
Definition terminate (process_name : string) (p : proc) : M unit :=
  ok ← ask (fun env => env_terminate_ok env (proc_pid p));
  log (ETerminate (proc_pid p) ok);;
  if ok then ret tt
  else print (MsgTerminateFailed process_name (proc_pid p)).

(** The [while retry_count < MAX_RETRIES] loop of lines 144-166.  Every
    iteration that does not leave the loop raises [retry_count], so
    [MAX_RETRIES - retry_count] iterations are all it can make; [fuel]
    counts them down. *)
Fixpoint wait_until_closed (fuel : nat) (process_name : string)
  (retry_count : nat) : M unit :=
  match fuel with
  | O => ret tt
  | S fuel' =>
      if (retry_count <? MAX_RETRIES)%nat then
        still_running ← find_processes process_name;
        match still_running with
        | [] => ret tt
        | _ :: _ =>
            let retry_count := (retry_count + 1)%nat in
            (if (MAX_RETRIES <=? retry_count)%nat then
               print (MsgCannotClose process_name);;
               for_each still_running (fun p => print (MsgStillRunning p));;
               print MsgCloseManually;;
               press_enter_to_exit 1
             else ret tt);;
            print (MsgWaiting retry_count);;
            log (ESleep WAIT_TIME_SECONDS);;
            wait_until_closed fuel' process_name retry_count
        end
      else ret tt
  end.

(** [close_cursor_process(process_name)] (lines 121-168) *)
Definition close_cursor_process (process_name : string) : M unit :=
  log (ECall FnCloseCursorProcess);;
  processes_to_kill ← find_processes process_name;
  match processes_to_kill with
  | [] => ret tt
  | _ :: _ =>
      print (MsgFoundRunning process_name);;
      for_each processes_to_kill (fun p => print (MsgProcInfo p));;
      print (MsgTryClose process_name);;
      for_each processes_to_kill (terminate process_name);;
      wait_until_closed MAX_RETRIES process_name 0;;
      print (MsgClosed process_name)
  end.

(** ** Registry mutator *)

(** [import winreg] *)
Definition import_winreg : M unit :=
  ok ← ask env_winreg; if ok then ret tt else raise ImportError.

(** [winreg.ConnectRegistry] and [winreg.OpenKey] (lines 187-188) *)
Definition reg_open : M unit :=
  ok ← ask env_reg_open_ok;
  log (ERegOpen ok);;
  if ok then ret tt else raise OSError.

(** [winreg.QueryValueEx(crypto_key, reg_key_name)[0]] (line 196) *)
Definition reg_query : M string :=
  ok ← ask env_reg_query_ok;
  value ← get st_guid;
  match value with
  | Some g => if ok then log (ERegQuery (Some g));; ret g
              else log (ERegQuery None);; raise OSError
  | None => log (ERegQuery None);; raise OSError
  end.

(** The text of a [.reg] export of the key, reduced to the one value the
    script cares about. *)
Definition reg_file_of (value : option string) : string := default "" value.
Definition reg_value_of (content : string) : option string :=
  if String.eqb content "" then None else Some content.

(** [subprocess.run("reg.exe export ...", shell=True, check=True)] *)
Definition reg_export (backup_file_path : string) : M unit :=
  ok ← ask env_reg_export_ok;
  log (ERegExport backup_file_path ok);;
  if ok then
    modify (fun st =>
      set_files (<[backup_file_path := reg_file_of (st_guid st)]> (st_files st)) st)
  else raise CalledProcessError.

(** [winreg.SetValueEx(crypto_key, reg_key_name, 0, REG_SZ, new_guid)] *)
Definition reg_set (new_guid : string) : M unit :=
  ok ← ask env_reg_set_ok;
  log (ERegSet new_guid ok);;
  if ok then modify (set_guid (Some new_guid)) else raise OSError.

(** The verifying [winreg.QueryValueEx] of line 229. *)
Definition reg_readback (written : string) : M string :=
  r ← ask (fun env => env_reg_readback env written);
  log (ERegQuery r);;
  match r with Some v => ret v | None => raise OSError end.

(** [subprocess.run("reg.exe import ...", shell=True, check=True)] *)
Definition reg_import (backup_file_path : string) : M unit :=
  ok ← ask env_reg_import_ok;
  content ← get (fun st => st_files st !! backup_file_path);
  match content with
  | Some c =>
      if ok then
        log (ERegImport backup_file_path true);;
        modify (set_guid (reg_value_of c))
      else log (ERegImport backup_file_path false);; raise CalledProcessError
  | None => log (ERegImport backup_file_path false);; raise CalledProcessError
  end.

(** Lines 193-201: the current value, or the empty string it was
    initialised to when the query raises. *)
Definition read_original_guid : M string :=
  try_except (g ← reg_query; print (MsgRegCurrent g);; ret g)
    (fun _ => print MsgRegQueryFailed;; ret "").

(** Lines 203-220: the best-effort export; returns [backup_file_path]. *)
Definition backup_registry (backup_dir : string) : M string :=
  dir_exists ← path_exists backup_dir;
  (if negb dir_exists then
     try_except (mkdir backup_dir) (fun _ => print MsgRegBackupDirFailed)
   else ret tt);;
  stamp ← now_stamp;
  let backup_file_name := "MachineGuid_" +:+ stamp +:+ ".reg" in
  let backup_file_path := path_join backup_dir backup_file_name in
  print (MsgRegBackupTo backup_file_path);;
  try_except (reg_export backup_file_path;; print MsgRegBackupOk)
    (fun _ => print MsgRegBackupFailed);;
  ret backup_file_path.

(** Lines 241-249: [if original_guid and backup_file_path.exists():],
    the import and its handler. *)
Definition restore_from_backup (original_guid backup_file_path : string) : M unit :=
  backup_exists ←
    (if String.eqb original_guid "" then ret false
     else path_exists backup_file_path);
  if backup_exists then
    print (MsgRegRestoring backup_file_path);;
    try_except
      (reg_import backup_file_path;; print MsgRegRestored)
      (fun _ => print (MsgRegRestoreFailedManual backup_file_path))
  else ret tt.

(** Lines 222-250: set, verify, and on any exception restore. *)
Definition set_and_verify (original_guid backup_file_path new_guid : string) : M bool :=
  try_except
    (reg_set new_guid;;
     print (MsgRegSet new_guid);;
     verify_guid ← reg_readback new_guid;
     if String.eqb verify_guid new_guid then
       print (MsgRegVerified new_guid);; ret true
     else
       print (MsgRegVerifyFailed verify_guid new_guid);; ret false)
    (fun _ =>
       print MsgRegSetFailed;;
       restore_from_backup original_guid backup_file_path;;
       ret false).

(** [update_machine_guid(backup_dir)] (lines 170-253).  A [return]
    inside a [try] or a handler is the [Some] of an optional result; the
    code after the block runs on [None]. *)
Definition update_machine_guid (backup_dir : string) : M bool :=
  log (ECall FnUpdateMachineGuid);;
  win32 ← ask env_win32;
  if negb win32 then print MsgSkipGuidNonWindows;; ret false
  else
    print MsgUpdatingGuid;;
    try_except_import
      (import_winreg;;
       opened ← try_except (reg_open;; ret None)
                  (fun _ => print MsgRegOpenFailed;; ret (Some false));
       match opened with
       | Some r => ret r
       | None =>
           original_guid ← read_original_guid;
           backup_file_path ← backup_registry backup_dir;
           new_guid_int ← new_uuid4;
           set_and_verify original_guid backup_file_path (uuid_str new_guid_int)
       end)
      (print MsgSkipGuidNoWinreg;; ret false).

(** ** Config mutator *)

Section ConfigMutator.
Context `{JsonCodec}.

(** Lines 276-281: the test
    ['telemetry' not in config or not isinstance(config['telemetry'], dict)]
    is evaluated first, on whatever [json.loads] returned; only under it
    is the root asked to be a dict.  [None] is the [return False] of
    line 281. *)
Definition ensure_telemetry (config : json) : M (option json) :=
  present ← lift_py (py_contains "telemetry" config);
  needs_fix ←
    (if negb present then ret true
     else t ← lift_py (py_getitem config "telemetry");
          ret (negb (is_dict t)));
  if needs_fix then
    if is_dict config then
      c ← lift_py (py_setitem config "telemetry" (JObj []));
      ret (Some c)
    else print MsgRootNotObject;; ret None
  else ret (Some config).

(** Lines 284-287 *)
Definition set_identity_fields (config : json)
  (machine_id mac_machine_id dev_device_id sqm_id : string) : M json :=
  config ← lift_py (py_setitem2 config "telemetry" "machineId" (JStr machine_id));
  config ← lift_py (py_setitem2 config "telemetry" "macMachineId" (JStr mac_machine_id));
  config ← lift_py (py_setitem2 config "telemetry" "devDeviceId" (JStr dev_device_id));
  lift_py (py_setitem2 config "telemetry" "sqmId" (JStr sqm_id)).

(** Lines 289-303: the write and, in its handler, the attempt to put
    the original text back. *)
Definition write_with_rollback (storage_file_path original_content : string)
  (config : json) : M bool :=
  try_except
    (let updated_json := json_dumps config in
     write_text storage_file_path updated_json;;
     print (MsgConfigUpdated storage_file_path);;
     ret true)
    (fun _ =>
       print (MsgWriteFailed storage_file_path);;
       try_except (write_text storage_file_path original_content)
         (fun _ => print (MsgSevereRestoreFailed storage_file_path));;
       ret false).

(** Lines 275-303, once the file has been read and parsed. *)
Definition mutate_config (storage_file_path original_content : string)
  (config : json) (machine_id mac_machine_id dev_device_id sqm_id : string)
  : M bool :=
  fixed ← ensure_telemetry config;
  match fixed with
  | None => ret false
  | Some config =>
      config ← set_identity_fields config machine_id mac_machine_id
                 dev_device_id sqm_id;
      write_with_rollback storage_file_path original_content config
  end.

(** [update_storage_file(storage_file_path, machine_id, mac_machine_id,
    dev_device_id, sqm_id)] (lines 255-303) *)
Definition update_storage_file (storage_file_path : string)
  (machine_id mac_machine_id dev_device_id sqm_id : string) : M bool :=
  log (ECall FnUpdateStorageFile);;
  file_exists ← path_exists storage_file_path;
  if negb file_exists then
    print (MsgConfigNotFound storage_file_path);;
    print MsgTipRunCursorFirst;;
    ret false
  else
    read ← try_except (c ← read_text storage_file_path; ret (Some c))
             (fun _ => print (MsgReadFailed storage_file_path);; ret None);
    match read with
    | None => ret false
    | Some original_content =>
        match json_loads original_content with
        | None => print MsgParseFailed;; ret false
        | Some config =>
            mutate_config storage_file_path original_content config
              machine_id mac_machine_id dev_device_id sqm_id
        end
    end.

(** ** Orchestrator *)

(** [get_storage_file_path()] and [get_backup_dir_path()] (lines 46-54) *)
Definition get_storage_file_path : M string :=
  config_dir ← ask env_config_dir;
  ret (path_join (path_join (path_join (path_join config_dir "Cursor") "User")
                            "globalStorage") "storage.json").

Definition get_backup_dir_path : M string :=
  config_dir ← ask env_config_dir;
  ret (path_join (path_join (path_join (path_join config_dir "Cursor") "User")
                            "globalStorage") "backups").

(** [backup_dir_path.iterdir()] with [entry.is_file()] and [entry.name]:
    the names of the regular files directly inside [dir]. *)
Definition is_entry_of (dir : string) (p : string) : option string :=
  let pre := dir +:+ "/" in
  if String.prefix pre p then
    let name := substring (String.length pre) (String.length p - String.length pre) p in
    match index 0 "/" name with
    | None => Some name
    | Some _ => None
    end
  else None.

Definition iterdir_files (dir : string) : M (list string) :=
  ok ← ask env_iterdir_ok;
  files ← get st_files;
  if ok then ret (omap (fun kv => is_entry_of dir (fst kv)) (map_to_list files))
  else raise OSError.

(** Lines 420-464 of [main]: what is reported once both updates have been
    tried.  [machine_guid_updated] is the local variable of line 404. *)
Definition final_report (machine_guid_updated storage_update_successful : bool)
  (ids : IdentitySet) (backup_dir_path : string) : M unit :=
  (if storage_update_successful then
     print MsgConfigUpdateOk;;
     print (MsgConfigDetails (ids_machine_id ids) (ids_mac_machine_id ids)
              (ids_dev_device_id ids) (ids_sqm_id ids))
   else
     print MsgMainUpdateFailed;;
     press_enter_to_exit 1);;
  config_dir ← ask env_config_dir;
  print (MsgFileTree (path_join (path_join config_dir "Cursor") "User"));;
  try_except
    (entries ← iterdir_files backup_dir_path;
     for_each entries (fun name => print (MsgBackupEntry name));;
     match entries with
     | [] => print MsgBackupsEmpty
     | _ :: _ => ret tt
     end)
    (fun _ => print MsgBackupsUnreadable);;
  print MsgDone;;
  press_enter_to_exit 0.

(** Lines 307-353 of [main]: privilege check, banner, version. *)
Definition startup : M unit :=
  admin ← ask env_is_admin;
  (if negb admin then print MsgNeedAdmin;; press_enter_to_exit 1 else ret tt);;
  log EClearScreen;;
  print MsgBanner;;
  cursor_version ← ask env_cursor_version;
  (match cursor_version with
   | Some v => print (MsgVersion v)
   | None => print MsgVersionUnknown
   end);;
  print MsgSupportedNote;;
  print MsgCheckingProcesses.

(** Lines 354-355 *)
Definition quiesce : M unit :=
  close_cursor_process "Cursor";;
  close_cursor_process "cursor".

(** Lines 358-391: the backup directory and the copy of the config
    file.  The two [if not ..._path] tests of lines 360 and 366 are left
    out: a [Path] object is always true. *)
Definition backup_config (storage_file_path backup_dir_path : string) : M unit :=
  dir_exists ← path_exists backup_dir_path;
  (if negb dir_exists then
     try_except
       (mkdir backup_dir_path;; print (MsgBackupDirCreated backup_dir_path))
       (fun _ => print (MsgBackupDirFailed backup_dir_path);;
                 press_enter_to_exit 1)
   else ret tt);;
  file_exists ← path_exists storage_file_path;
  if file_exists then
    print MsgBackingUpConfig;;
    stamp ← now_stamp;
    let backup_name := "storage.json.backup_" +:+ stamp in
    let backup_file_path := path_join backup_dir_path backup_name in
    try_except
      (copy2 storage_file_path backup_file_path;;
       print (MsgConfigBackedUp backup_file_path))
      (fun _ => print (MsgConfigBackupFailed backup_file_path))
  else print (MsgNoConfigToBackup storage_file_path).

(** Lines 393-464: new identifiers, the registry step, the config step
    and the report. *)
Definition apply_changes (storage_file_path backup_dir_path : string) : M unit :=
  print MsgGeneratingIds;;
  ids ← new_ids;
  win32 ← ask env_win32;
  machine_guid_updated ←
    (if win32 then update_machine_guid backup_dir_path
     else print MsgSkipGuidNonWindows;; ret false);
  print MsgUpdatingConfig;;
  storage_update_successful ←
    update_storage_file storage_file_path
      (ids_machine_id ids) (ids_mac_machine_id ids)
      (ids_dev_device_id ids)  (* uuid_str, the devDeviceId *)
      (ids_sqm_id ids);
  final_report machine_guid_updated storage_update_successful ids backup_dir_path.

(** Lines 358-464 *)
Definition after_quiescing : M unit :=
  storage_file_path ← get_storage_file_path;
  backup_dir_path ← get_backup_dir_path;
  backup_config storage_file_path backup_dir_path;;
  apply_changes storage_file_path backup_dir_path.

(** [main()] (lines 305-464) *)
Definition main : M unit :=
  startup;;
  quiesce;;
  after_quiescing.

End ConfigMutator.

(** ** A small JSON reader and writer

    Enough of [json.loads] and [json.dumps(indent=2)] to run the model on
    concrete files: [null], [true], [false], integers, strings without
    escapes, arrays and objects. *)
Module TinyJson.

Definition dquote : ascii := "034"%char.

Definition is_ws (c : ascii) : bool :=
  (Ascii.eqb c " " || Ascii.eqb c "010" || Ascii.eqb c "009" || Ascii.eqb c "013")%char.

Fixpoint skip_ws (s : list ascii) : list ascii :=
  match s with
  | c :: r => if is_ws c then skip_ws r else s
  | [] => []
  end.

Definition digit_of (c : ascii) : option Z :=
  let n := nat_of_ascii c in
  if (48 <=? n)%nat && (n <=? 57)%nat then Some (Z.of_nat (n - 48)) else None.

Fixpoint read_digits (acc : Z) (s : list ascii) : Z * list ascii :=
  match s with
  | c :: r =>
      match digit_of c with
      | Some d => read_digits (10 * acc + d) r
      | None => (acc, s)
      end
  | [] => (acc, [])
  end.

Fixpoint read_string (s : list ascii) : option (list ascii * list ascii) :=
  match s with
  | [] => None
  | c :: r =>
      if Ascii.eqb c dquote then Some ([], r)
      else if Ascii.eqb c "\" then None
      else match read_string r with
           | Some (body, rest) => Some (c :: body, rest)
           | None => None
           end
  end.

(** A later duplicate of a key replaces the value and keeps the place. *)
Definition dict_of_pairs (pairs : list (string * json)) : list (string * json) :=
  fold_left (fun d kv => dict_set (fst kv) (snd kv) d) pairs [].

Fixpoint read_value (fuel : nat) (s : list ascii) : option (json * list ascii) :=
  match fuel with
  | O => None
  | S fuel =>
      match skip_ws s with
      | [] => None
      | c :: r =>
          if Ascii.eqb c dquote then
            match read_string r with
            | Some (body, rest) => Some (JStr (string_of_list_ascii body), rest)
            | None => None
            end
          else if Ascii.eqb c "[" then
            match skip_ws r with
            | "]"%char :: rest => Some (JArr [], rest)
            | _ => match read_items fuel r with
                   | Some (items, rest) => Some (JArr items, rest)
                   | None => None
                   end
            end
          else if Ascii.eqb c "{" then
            match skip_ws r with
            | "}"%char :: rest => Some (JObj [], rest)
            | _ => match read_members fuel r with
                   | Some (pairs, rest) => Some (JObj (dict_of_pairs pairs), rest)
                   | None => None
                   end
            end
          else if Ascii.eqb c "-" then
            match r with
            | d :: r' =>
                match digit_of d with
                | Some d => let '(n, rest) := read_digits d r' in Some (JInt (- n), rest)
                | None => None
                end
            | [] => None
            end
          else
            match digit_of c with
            | Some d => let '(n, rest) := read_digits d r in Some (JInt n, rest)
            | None =>
                match c :: r with
                | "n" :: "u" :: "l" :: "l" :: rest => Some (JNull, rest)
                | "t" :: "r" :: "u" :: "e" :: rest => Some (JBool true, rest)
                | "f" :: "a" :: "l" :: "s" :: "e" :: rest => Some (JBool false, rest)
                | _ => None
                end%char
            end
      end
  end
with read_items (fuel : nat) (s : list ascii) : option (list json * list ascii) :=
  match fuel with
  | O => None
  | S fuel =>
      match read_value fuel s with
      | Some (v, rest) =>
          match skip_ws rest with
          | "," :: r =>
              match read_items fuel r with
              | Some (vs, rest') => Some (v :: vs, rest')
              | None => None
              end
          | "]" :: r => Some ([v], r)
          | _ => None
          end%char
      | None => None
      end
  end
with read_members (fuel : nat) (s : list ascii)
  : option (list (string * json) * list ascii) :=
  match fuel with
  | O => None
  | S fuel =>
      match skip_ws s with
      | c :: r =>
          if Ascii.eqb c dquote then
            match read_string r with
            | Some (key, rest) =>
                match skip_ws rest with
                | ":" :: r =>
                    match read_value fuel r with
                    | Some (v, rest) =>
                        let k := string_of_list_ascii key in
                        match skip_ws rest with
                        | "," :: r =>
                            match read_members fuel r with
                            | Some (ms, rest') => Some ((k, v) :: ms, rest')
                            | None => None
                            end
                        | "}" :: r => Some ([(k, v)], r)
                        | _ => None
                        end
                    | None => None
                    end
                | _ => None
                end%char
            | None => None
            end
          else None
      | [] => None
      end
  end.

Definition loads (s : string) : option json :=
  match read_value (2 * String.length s + 2) (list_ascii_of_string s) with
  | Some (v, rest) => match skip_ws rest with [] => Some v | _ => None end
  | None => None
  end.

Fixpoint show_nat_digits (fuel n : nat) (acc : string) : string :=
  match fuel with
  | O => acc
  | S fuel =>
      let acc := String (ascii_of_nat (48 + n mod 10)) acc in
      if (n <? 10)%nat then acc else show_nat_digits fuel (n / 10) acc
  end.

Definition show_Z (z : Z) : string :=
  let n := Z.abs_nat z in
  (if (z <? 0)%Z then "-" else "") +:+ show_nat_digits (S n) n "".

Fixpoint spaces (n : nat) : string :=
  match n with O => "" | S n => " " +:+ spaces n end.

Definition newline : string := String "010" "".

Definition quoted (s : string) : string :=
  String dquote (s +:+ String dquote "").

Fixpoint join_with (sep : string) (l : list string) : string :=
  match l with
  | [] => ""
  | [x] => x
  | x :: rest => x +:+ sep +:+ join_with sep rest
  end.

Fixpoint show (depth : nat) (v : json) : string :=
  match v with
  | JNull => "null"
  | JBool true => "true"
  | JBool false => "false"
  | JInt z => show_Z z
  | JFloat r => r
  | JStr s => quoted s
  | JArr [] => "[]"
  | JArr items =>
      "[" +:+ newline +:+
      join_with ("," +:+ newline)
        (map (fun x => spaces (2 * S depth) +:+ show (S depth) x) items) +:+
      newline +:+ spaces (2 * depth) +:+ "]"
  | JObj [] => "{}"
  | JObj members =>
      "{" +:+ newline +:+
      join_with ("," +:+ newline)
        (map (fun kv => spaces (2 * S depth) +:+ quoted (fst kv) +:+ ": " +:+
                        show (S depth) (snd kv)) members) +:+
      newline +:+ spaces (2 * depth) +:+ "}"
  end.

Definition dumps (v : json) : string := show 0 v.

#[global] Instance codec : JsonCodec := {| json_loads := loads; json_dumps := dumps |}.

(** Test documents are written with ['] for the double quote. *)
Definition doc (s : string) : string :=
  string_of_list_ascii
    (map (fun c => if Ascii.eqb c "'" then dquote else c) (list_ascii_of_string s)).

End TinyJson.


(** ** Scenarios

    A cooperative operating system (administrator, not Windows, no
    process running, nothing fails) and a state with given files; the
    concrete runs below vary them field by field. *)
Definition quiet_env : Env :=
  {| env_is_admin := true;
     env_win32 := false;
     env_config_dir := "/cfg";
     env_cursor_version := None;
     env_now := fun _ => "20240101_000000";
     env_random := fun i => i;
     env_urandom := fun _ => 0%Z;
     env_process_iter := fun _ => [];
     env_terminate_ok := fun _ => true;
     env_mkdir_ok := fun _ => true;
     env_copy_ok := true;
     env_read_ok := true;
     env_write := fun _ => WriteOk;
     env_iterdir_ok := true;
     env_winreg := true;
     env_reg_open_ok := true;
     env_reg_query_ok := true;
     env_reg_export_ok := true;
     env_reg_set_ok := true;
     env_reg_readback := fun v => Some v;
     env_reg_import_ok := true |}.

Definition state_with (files : gmap string string) (guid : option string) : State :=
  mkState files ∅ guid 0 0 0 0 0 [].

(** The [write] answers of an environment replaced. *)
Definition with_write (w : nat -> write_outcome) (env : Env) : Env :=
  mkEnv (env_is_admin env) (env_win32 env) (env_config_dir env)
    (env_cursor_version env) (env_now env) (env_random env) (env_urandom env)
    (env_process_iter env) (env_terminate_ok env) (env_mkdir_ok env)
    (env_copy_ok env) (env_read_ok env) w (env_iterdir_ok env)
    (env_winreg env) (env_reg_open_ok env) (env_reg_query_ok env)
    (env_reg_export_ok env) (env_reg_set_ok env) (env_reg_readback env)
    (env_reg_import_ok env).

Definition sample_ids : IdentitySet := mkIds "m1" "m2" "m3" "m4".

(** ** Vocabulary of the properties *)

(** The shape a telemetry machineId is said to have: the hex encoding of
    [n] ASCII bytes, then [k] characters accepted by [ok]. *)
Definition machine_id_shape (n k : nat) (ok : ascii -> bool) (s : string) : Prop :=
  exists (prefix : list nat) (rest : list ascii),
    length prefix = n /\ Forall (fun b => b < 128) prefix /\
    length rest = k /\ Forall (fun c => ok c = true) rest /\
    chars s = chars (hex_encode prefix) ++ rest.

(** The shape an sqmId is said to have: [n] uppercase hex digits between
    braces. *)
Definition sqm_id_shape (n : nat) (s : string) : Prop :=
  length (chars s) = n + 2 /\
  exists interior : list ascii,
    chars s = ["{"%char] ++ interior ++ ["}"%char] /\
    length interior = n /\
    Forall (fun c => is_upper_hex c = true) interior.

(** Which draw after the current one fills position [i] of the
    template: the number of [x] and [y] before it. *)
Definition is_drawn (c : ascii) : bool := Ascii.eqb c "x" || Ascii.eqb c "y".
Definition draw_index (i : nat) : nat :=
  length (filter (fun c => is_drawn c = true) (take i (chars id_template))).

Definition hyphen_positions : list nat := [8; 13; 18; 23].
Definition fixed_positions : list nat := [8; 13; 14; 18; 19; 23].

(** The positions [random.choice] fills. *)
Definition drawn_positions : list nat :=
  filter (fun i => i ∉ [8; 13; 14; 18; 23]) (seq 0 36).

(** The [telemetry] member of a root object, when it is an object. *)
Definition telemetry_of (members : list (string * json))
  : option (list (string * json)) :=
  match dict_get "telemetry" members with
  | Some (JObj t) => Some t
  | _ => None
  end.

Definition identity_keys : list string :=
  ["machineId"; "macMachineId"; "devDeviceId"; "sqmId"].

(** JSON scalars other than strings: [None], [bool], [int], [float]. *)
Definition is_plain_scalar (v : json) : bool :=
  match v with
  | JNull | JBool _ | JInt _ | JFloat _ => true
  | _ => false
  end.

Definition is_write (e : event) : bool :=
  match e with EWrite _ _ _ => true | _ => false end.

(** The four identity fields written into a [telemetry] object, in the
    order of lines 284-287. *)
Definition with_identity (t : list (string * json)) (a b c d : string)
  : list (string * json) :=
  dict_set "sqmId" (JStr d)
    (dict_set "devDeviceId" (JStr c)
       (dict_set "macMachineId" (JStr b)
          (dict_set "machineId" (JStr a) t))).

(** The document [update_storage_file] serialises for a root object. *)
Definition updated_members (members : list (string * json)) (a b c d : string)
  : list (string * json) :=
  dict_set "telemetry"
    (JObj (with_identity (default [] (telemetry_of members)) a b c d)) members.

Definition sample_path : string := "/cfg/storage.json".
Definition sample_config : string :=
  TinyJson.doc "{'a': 1, 'telemetry': {'x': true, 'machineId': 'old'}}".
Definition sample_state : State :=
  set_dirs {["/cfg"]} (state_with {[sample_path := sample_config]} None).

(** Config files with a root object that lacks [telemetry], and with one
    whose [telemetry] is a number. *)
Definition bare_config : string := TinyJson.doc "{'a': 1}".
Definition odd_config : string := TinyJson.doc "{'a': 1, 'telemetry': 5}".

(** A config file as the editor writes it on every platform, with bare
    line feeds, and the same text with Windows line ends. *)
Definition lf_config : string := TinyJson.dumps (JObj [("a", JInt 1)]).
Definition crlf_config : string :=
  translate_newlines (String CR (String LF EmptyString)) lf_config.

(** A path component: a name without [/]. *)
Fixpoint no_slash (s : string) : bool :=
  match s with
  | EmptyString => true
  | String c r => negb (Ascii.eqb c "/") && no_slash r
  end.

Definition is_mkdir (e : event) : bool :=
  match e with EMkdir _ _ => true | _ => false end.

(** The state one [os.mkdir] leaves. *)
Definition after_os_mkdir (r : mkdir_result) (d : string) (st : State) : State :=
  match r with
  | Created => set_dirs ({[d]} ∪ st_dirs st) (set_log (EMkdir d true :: st_log st) st)
  | _ => set_log (EMkdir d false :: st_log st) st
  end.

(** What [read_original_guid] returns. *)
Definition original_guid_of (env : Env) (st : State) : string :=
  match st_guid st with
  | Some g => if env_reg_query_ok env then g else ""
  | None => ""
  end.

(** The backup file [update_machine_guid] names when started in [st]. *)
Definition reg_backup_path (backup_dir : string) (env : Env) (st : State) : string :=
  path_join backup_dir ("MachineGuid_" +:+ env_now env (st_clock st) +:+ ".reg").

(** A machine whose backup directory already holds a registry backup
    under the name the scenarios' clock gives. *)
Definition stale_state : State :=
  set_dirs {["/cfg"; "/cfg/backups"]}
    (state_with {["/cfg/backups/MachineGuid_20240101_000000.reg" := "stale-guid"]}
       (Some "old-guid")).

Definition is_import (e : event) : bool :=
  match e with ERegImport _ _ => true | _ => false end.

Definition is_export_ok (e : event) : bool :=
  match e with ERegExport _ true => true | _ => false end.

(** Windows, where opening the key works and setting the value fails;
    [guid] is the value in the registry and [query_ok] whether it can be
    read. *)
Definition win_env (query_ok export_ok import_ok : bool) : Env :=
  {| env_is_admin := true;
     env_win32 := true;
     env_config_dir := "/cfg";
     env_cursor_version := None;
     env_now := fun _ => "20240101_000000";
     env_random := fun i => i;
     env_urandom := fun _ => 0%Z;
     env_process_iter := fun _ => [];
     env_terminate_ok := fun _ => true;
     env_mkdir_ok := fun _ => true;
     env_copy_ok := true;
     env_read_ok := true;
     env_write := fun _ => WriteOk;
     env_iterdir_ok := true;
     env_winreg := true;
     env_reg_open_ok := true;
     env_reg_query_ok := query_ok;
     env_reg_export_ok := export_ok;
     env_reg_set_ok := false;
     env_reg_readback := fun v => Some v;
     env_reg_import_ok := import_ok |}.

Definition restore_attempted (log : list event) : bool := existsb is_import log.
Definition backup_produced (log : list event) : bool := existsb is_export_ok log.

(** ** Vocabulary of the run-level properties *)

(** The events that change, or set out to change, the registry value or
    the config file. *)
Definition is_mutation (e : event) : bool :=
  match e with
  | ECall FnUpdateMachineGuid | ECall FnUpdateStorageFile => true
  | EWrite _ _ _ | ERegSet _ _ | ERegImport _ _ => true
  | _ => false
  end.

Definition is_poll (e : event) : bool :=
  match e with EProcessIter _ => true | _ => false end.

Definition is_close_call (e : event) : bool :=
  match e with ECall FnCloseCursorProcess => true | _ => false end.

(** The most recent process-table snapshot in a log (newest first). *)
Fixpoint last_snapshot (log : list event) : option (list proc) :=
  match log with
  | [] => None
  | EProcessIter snapshot :: _ => Some snapshot
  | _ :: rest => last_snapshot rest
  end.

(** No process of that name in the snapshot. *)
Definition none_running (process_name : string) (snapshot : list proc) : Prop :=
  select_matching process_name snapshot = inr [].

(** A matching process is seen in each of the [1 + MAX_RETRIES]
    enumerations a quiescing call makes when it starts at enumeration
    [n]. *)
Definition persists (process_name : string) (env : Env) (n : nat) : Prop :=
  forall i, i <= MAX_RETRIES ->
    exists p l, select_matching process_name (env_process_iter env (n + i)) = inr (p :: l).

(** How many enumerations starting at [n] it takes to see no matching
    process, at most [budget]. *)
Fixpoint first_quiet (process_name : string) (table : nat -> list proc)
  (n budget : nat) : option nat :=
  match budget with
  | O => None
  | S budget' =>
      match select_matching process_name (table n) with
      | inr [] => Some 1
      | inr (_ :: _) => S <$> first_quiet process_name table (S n) budget'
      | inl _ => None
      end
  end.

Definition quiesce_polls (process_name : string) (env : Env) (n : nat) : option nat :=
  first_quiet process_name (env_process_iter env) n (S MAX_RETRIES).


(** A Cursor process that never goes away. *)
Definition stubborn : list proc :=
  [mkProc 4242 (Some "Cursor.exe") None; mkProc 7 (Some "cursor") (Some "/opt/cursor")].

Definition with_procs (table : nat -> list proc) (env : Env) : Env :=
  mkEnv (env_is_admin env) (env_win32 env) (env_config_dir env)
    (env_cursor_version env) (env_now env) (env_random env) (env_urandom env)
    table (env_terminate_ok env) (env_mkdir_ok env)
    (env_copy_ok env) (env_read_ok env) (env_write env) (env_iterdir_ok env)
    (env_winreg env) (env_reg_open_ok env) (env_reg_query_ok env)
    (env_reg_export_ok env) (env_reg_set_ok env) (env_reg_readback env)
    (env_reg_import_ok env).

Definition with_copy (ok : bool) (env : Env) : Env :=
  mkEnv (env_is_admin env) (env_win32 env) (env_config_dir env)
    (env_cursor_version env) (env_now env) (env_random env) (env_urandom env)
    (env_process_iter env) (env_terminate_ok env) (env_mkdir_ok env)
    ok (env_read_ok env) (env_write env) (env_iterdir_ok env)
    (env_winreg env) (env_reg_open_ok env) (env_reg_query_ok env)
    (env_reg_export_ok env) (env_reg_set_ok env) (env_reg_readback env)
    (env_reg_import_ok env).

(** The state of a machine on which Cursor has run: its config file
    under [/cfg] (the [env_config_dir] of the scenarios). *)
Definition installed_path : string := "/cfg/Cursor/User/globalStorage/storage.json".
Definition installed_dirs : gset string :=
  {["/cfg"; "/cfg/Cursor"; "/cfg/Cursor/User"; "/cfg/Cursor/User/globalStorage"]}.
Definition installed_state (guid : option string) : State :=
  set_dirs installed_dirs (state_with {[installed_path := sample_config]} guid).

(** [emits p m]: whatever [m] does, the events it adds to the log all
    satisfy [p]. *)
Definition emits (p : event -> bool) {A : Type} (m : M A) : Prop :=
  forall env st out st',
    m env st = (out, st') ->
    exists new, st_log st' = new ++ st_log st /\ forallb p new = true.

Definition not_mutation (e : event) : bool := negb (is_mutation e).
Definition not_poll (e : event) : bool := negb (is_poll e).

Definition with_reg_set (ok : bool) (env : Env) : Env :=
  mkEnv (env_is_admin env) (env_win32 env) (env_config_dir env)
    (env_cursor_version env) (env_now env) (env_random env) (env_urandom env)
    (env_process_iter env) (env_terminate_ok env) (env_mkdir_ok env)
    (env_copy_ok env) (env_read_ok env) (env_write env) (env_iterdir_ok env)
    (env_winreg env) (env_reg_open_ok env) (env_reg_query_ok env)
    (env_reg_export_ok env) ok (env_reg_readback env)
    (env_reg_import_ok env).

Definition is_failed_copy (e : event) : bool :=
  match e with ECopy _ _ false => true | _ => false end.

Definition is_backup_failed_msg (e : event) : bool :=
  match e with EPrint (MsgConfigBackupFailed _) => true | _ => false end.

Definition is_config_call (e : event) : bool :=
  match e with ECall FnUpdateStorageFile => true | _ => false end.



(** The backup file [main] names for the config file in the scenarios. *)
Definition installed_backup : string :=
  "/cfg/Cursor/User/globalStorage/backups/storage.json.backup_20240101_000000".

(** Cursor is running and goes away after the second poll. *)
Definition leaving (n : nat) : list proc :=
  if (n <? 3)%nat then stubborn else [].

(** ** Vocabulary of the further properties *)

(** [preserves f m]: no run of [m] changes the component [f] of the
    state. *)
Definition preserves {X A : Type} (f : State -> X) (m : M A) : Prop :=
  forall env st out st', m env st = (out, st') -> f st' = f st.

(** [aborts E X m]: when [m] ends in [sys.exit(code)] then [E code]
    holds of the final state, and when it lets an exception escape the
    exception satisfies [X]. *)
Definition aborts {A : Type} (E : Z -> State -> Prop) (X : exn -> Prop) (m : M A) : Prop :=
  forall env st out st', m env st = (out, st') ->
    match out with
    | Val _ => True
    | Exited code => E code st'
    | Raised e => X e
    end.

(** The exit was made by [press_enter_to_exit] with status 0 or 1: the
    prompt is the last thing logged. *)
Definition prompted (code : Z) (st : State) : Prop :=
  (code = 0%Z \/ code = 1%Z) /\ exists rest, st_log st = EInput :: rest.

Definition never_exits (code : Z) (st : State) : Prop := False.
Definition any_exn (e : exn) : Prop := True.

(** The test of lines 126 and 148 on a process whose name is known. *)
Definition name_matches (process_name : string) (p : proc) : bool :=
  match proc_name p with
  | Some name => String.eqb (str_lower name) (str_lower process_name)
  | None => false
  end.

Definition terminated_pid (e : event) : option nat :=
  match e with ETerminate pid _ => Some pid | _ => None end.

Definition not_terminate (e : event) : bool :=
  match e with ETerminate _ _ => false | _ => true end.

Definition is_sleep (e : event) : bool :=
  match e with ESleep _ => true | _ => false end.

Definition count_sleeps (log : list event) : nat :=
  length (List.filter is_sleep log).

(** What [proc.terminate()] inside its [try] logs for one process, in
    order: the signal, and the error message when sending it failed. *)
Definition terminate_events (env : Env) (process_name : string) (p : proc) : list event :=
  ETerminate (proc_pid p) (env_terminate_ok env (proc_pid p)) ::
  (if env_terminate_ok env (proc_pid p) then []
   else [EPrint (MsgTerminateFailed process_name (proc_pid p))]).

(** The state once the events [new] (oldest first) have been logged. *)
Definition logged (new : list event) (st : State) : State :=
  set_log (rev new ++ st_log st) st.

(** Every sleep lasts [WAIT_TIME_SECONDS]. *)
Definition sleeps_one_wait (e : event) : bool :=
  match e with ESleep n => Nat.eqb n WAIT_TIME_SECONDS | _ => true end.

(** The value [update_machine_guid] writes when started in [st]: the
    [str(uuid.uuid4())] of line 223. *)
Definition reg_new_guid (env : Env) (st : State) : string :=
  uuid_str (uuid4 (env_urandom env (st_urandom st))).

(** What has to go well for [update_machine_guid] to report success. *)
Definition guid_update_succeeds (env : Env) (st : State) : bool :=
  env_win32 env && env_winreg env && env_reg_open_ok env && env_reg_set_ok env &&
  bool_decide (env_reg_readback env (reg_new_guid env st) = Some (reg_new_guid env st)).

(** Events that change the registry, the file system, or try to. *)
Definition is_change (e : event) : bool :=
  match e with
  | EMkdir _ _ | ECopy _ _ _ | EWrite _ _ _
  | ERegExport _ _ | ERegSet _ _ | ERegImport _ _ => true
  | _ => false
  end.

Definition with_readback (r : string -> option string) (env : Env) : Env :=
  mkEnv (env_is_admin env) (env_win32 env) (env_config_dir env)
    (env_cursor_version env) (env_now env) (env_random env) (env_urandom env)
    (env_process_iter env) (env_terminate_ok env) (env_mkdir_ok env)
    (env_copy_ok env) (env_read_ok env) (env_write env) (env_iterdir_ok env)
    (env_winreg env) (env_reg_open_ok env) (env_reg_query_ok env)
    (env_reg_export_ok env) (env_reg_set_ok env) r
    (env_reg_import_ok env).

Definition write_succeeds (res : write_outcome) : bool :=
  match res with WriteOk => true | _ => false end.

(** The keys of a [dict], in its order, and those of [ks] it lacks. *)
Definition dict_keys (d : list (string * json)) : list string := map fst d.

Definition missing_keys (ks : list string) (d : list (string * json)) : list string :=
  List.filter (fun k => negb (bool_decide (is_Some (dict_get k d)))) ks.

(** The paths [main] works on (lines 358 and 364). *)
Definition global_storage_dir (env : Env) : string :=
  path_join (path_join (path_join (env_config_dir env) "Cursor") "User") "globalStorage".
Definition storage_file_path_of (env : Env) : string :=
  path_join (global_storage_dir env) "storage.json".
Definition backup_dir_path_of (env : Env) : string :=
  path_join (global_storage_dir env) "backups".

(** The backup file [main] names for the config file when started in [st]
    (lines 382-383). *)
Definition config_backup_path_of (env : Env) (st : State) : string :=
  path_join (backup_dir_path_of env) ("storage.json.backup_" +:+ env_now env (st_clock st)).

(** The identifiers a run started in [st] generates (lines 395-400). *)
Definition ids_of (env : Env) (st : State) : IdentitySet :=
  fst (generate_ids (mkRng (env_random env) (st_draws st))
         (env_urandom env (st_urandom st)) (env_urandom env (S (st_urandom st)))).

(** The exceptions no handler of the script catches. *)
Definition uncaught (e : exn) : Prop := e = AttributeError \/ e = TypeError.


Definition with_mkdir (ok : string -> bool) (env : Env) : Env :=
  mkEnv (env_is_admin env) (env_win32 env) (env_config_dir env)
    (env_cursor_version env) (env_now env) (env_random env) (env_urandom env)
    (env_process_iter env) (env_terminate_ok env) ok
    (env_copy_ok env) (env_read_ok env) (env_write env) (env_iterdir_ok env)
    (env_winreg env) (env_reg_open_ok env) (env_reg_query_ok env)
    (env_reg_export_ok env) (env_reg_set_ok env) (env_reg_readback env)
    (env_reg_import_ok env).

Definition with_admin (ok : bool) (env : Env) : Env :=
  mkEnv ok (env_win32 env) (env_config_dir env)
    (env_cursor_version env) (env_now env) (env_random env) (env_urandom env)
    (env_process_iter env) (env_terminate_ok env) (env_mkdir_ok env)
    (env_copy_ok env) (env_read_ok env) (env_write env) (env_iterdir_ok env)
    (env_winreg env) (env_reg_open_ok env) (env_reg_query_ok env)
    (env_reg_export_ok env) (env_reg_set_ok env) (env_reg_readback env)
    (env_reg_import_ok env).

(** An exit was with status 1. *)
Definition exit_status_one (code : Z) (st : State) : Prop := code = 1%Z.

(** [preserves_at env f m]: no run of [m] in the environment [env]
    changes the component [f] of the state. *)
Definition preserves_at {X A : Type} (env : Env) (f : State -> X) (m : M A) : Prop :=
  forall st out st', m env st = (out, st') -> f st' = f st.

(** What of the state outlives the run: everything but the log and the
    count of process enumerations. *)
Definition durable (st : State) :=
  (st_files st, st_dirs st, st_guid st, st_draws st, st_urandom st,
   st_writes st, st_clock st).

(** The same apart from the directories. *)
Definition durable_content (st : State) :=
  (st_files st, st_guid st, st_draws st, st_urandom st, st_writes st, st_clock st).

Definition is_attribute_error (e : exn) : Prop := e = AttributeError.

Definition not_sleep (e : event) : bool := negb (is_sleep e).

(** [waits_at_most polls sleeps m]: a run of [m] enumerates the process
    table at most [polls] times and sleeps at most [sleeps] times, each
    time for [WAIT_TIME_SECONDS]. *)
Definition waits_at_most {A : Type} (polls sleeps : nat) (m : M A) : Prop :=
  forall env st out st', m env st = (out, st') ->
    st_polls st <= st_polls st' <= st_polls st + polls /\
    exists new,
      st_log st' = new ++ st_log st /\
      count_sleeps new <= sleeps /\
      forallb sleeps_one_wait new = true.

(** [evolves R m]: every run of [m] takes a state to one related to it
    by [R]. *)
Definition evolves (R : State -> State -> Prop) {A : Type} (m : M A) : Prop :=
  forall env st out st', m env st = (out, st') -> R st st'.

(** [st'] has the directories of [st], and those it has more are among
    [l]. *)
Definition dirs_grown (l : list string) (st st' : State) : Prop :=
  st_dirs st ⊆ st_dirs st' /\
  forall q, q ∈ st_dirs st' -> q ∈ st_dirs st \/ In q l.

(** [evolves_at env R m]: the same for the runs in the environment
    [env]. *)
Definition evolves_at (env : Env) (R : State -> State -> Prop) {A : Type} (m : M A)
  : Prop :=
  forall st out st', m env st = (out, st') -> R st st'.

(** ** Vocabulary for comparing two runs *)

(** The environment with other answers from [SetValueEx], from the
    verifying query and from [reg.exe import]: what decides, once the
    registry step has got as far as line 224, whether
    [update_machine_guid] returns [True] or [False]. *)
Definition with_registry_answers (set_ok : bool) (readback : string -> option string)
  (import_ok : bool) (env : Env) : Env :=
  mkEnv (env_is_admin env) (env_win32 env) (env_config_dir env)
    (env_cursor_version env) (env_now env) (env_random env) (env_urandom env)
    (env_process_iter env) (env_terminate_ok env) (env_mkdir_ok env)
    (env_copy_ok env) (env_read_ok env) (env_write env) (env_iterdir_ok env)
    (env_winreg env) (env_reg_open_ok env) (env_reg_query_ok env)
    (env_reg_export_ok env) set_ok readback import_ok.





(** All of the state but the registry value and the log. *)
Definition outside_registry (st : State) :=
  (st_files st, st_dirs st, st_draws st, st_urandom st, st_polls st,
   st_writes st, st_clock st).

Definition same_outside_registry (s' s : State) : Prop :=
  outside_registry s' = outside_registry s.


(** * Properties *)

(** ** Strings as character lists *)

Lemma chars_join (l : list ascii) : chars (join_chars l) = l.
Proof. apply list_ascii_of_string_of_list_ascii. Qed.

Lemma chars_app (a b : string) : chars (a +:+ b) = chars a ++ chars b.
Proof.
  unfold chars. induction a as [|c a IH]; simpl; [reflexivity|].
  now rewrite IH.
Qed.

Lemma chars_str_upper (s : string) : chars (str_upper s) = map ascii_upper (chars s).
Proof. unfold str_upper. apply chars_join. Qed.

Lemma hex_digit_lower (d : nat) : is_lower_hex (hex_digit d) = true.
Proof.
  unfold hex_digit.
  do 16 (destruct d as [|d]; [reflexivity|]).
  simpl. now destruct d.
Qed.

Lemma upper_of_lower_hex (c : ascii) :
  is_lower_hex c = true -> is_upper_hex (ascii_upper c) = true.
Proof.
  unfold is_lower_hex. simpl. intros Hc.
  repeat (apply orb_prop in Hc as [Hc|Hc];
          [apply Ascii.eqb_eq in Hc; subst c; reflexivity|]).
  discriminate.
Qed.

Lemma random_choices_length (population : string) (k : nat) (g : Rng) :
  length (fst (random_choices population k g)) = k.
Proof.
  revert g. induction k as [|k IH]; intros g; simpl; [reflexivity|].
  specialize (IH (mkRng (rng_tape g) (S (rng_pos g)))).
  destruct (random_choices population k _) as [cs g2]. simpl in *. now rewrite IH.
Qed.

Lemma format_02x_length (data : list nat) :
  length (concat (map format_02x data)) = 2 * length data.
Proof. induction data as [|b data IH]; simpl; [reflexivity|]. rewrite IH. lia. Qed.

Lemma hex_encode_length (data : list nat) :
  length (chars (hex_encode data)) = 2 * length data.
Proof. unfold hex_encode. rewrite chars_join. apply format_02x_length. Qed.

Lemma hex_encode_lower (data : list nat) :
  Forall (fun c => is_lower_hex c = true) (chars (hex_encode data)).
Proof.
  unfold hex_encode. rewrite chars_join.
  induction data as [|b data IH]; simpl; [constructor|].
  repeat constructor; auto using hex_digit_lower.
Qed.

(** The projections of [generate_ids]. *)
Lemma generate_ids_machine_id (g : Rng) (e1 e2 : Z) :
  ids_machine_id (fst (generate_ids g e1 e2)) =
  prefix_hex +:+ fst (get_random_hex 32 (snd (new_standard_machine_id g))).
Proof.
  unfold generate_ids. destruct (new_standard_machine_id g) as [m g1].
  cbn [fst snd]. destruct (get_random_hex 32 g1) as [r g2]. reflexivity.
Qed.

Lemma generate_ids_sqm_id (g : Rng) (e1 e2 : Z) :
  ids_sqm_id (fst (generate_ids g e1 e2)) =
  "{" +:+ str_upper (uuid_hex (uuid4 e2)) +:+ "}".
Proof.
  unfold generate_ids. destruct (new_standard_machine_id g) as [m g1].
  destruct (get_random_hex 32 g1) as [r g2]. reflexivity.
Qed.

Lemma generate_ids_mac_machine_id (g : Rng) (e1 e2 : Z) :
  ids_mac_machine_id (fst (generate_ids g e1 e2)) = fst (new_standard_machine_id g).
Proof.
  unfold generate_ids. destruct (new_standard_machine_id g) as [m g1].
  destruct (get_random_hex 32 g1) as [r g2]. reflexivity.
Qed.

(** ** Identifier formats *)

(** C6 (as stated, refuted): with the draws [0, 1, 2, ...] the machineId
    is not the hex encoding of any 12 ASCII bytes followed by 32
    lowercase hex digits. *)
Lemma machine_id_not_12_byte_prefix :
  ~ machine_id_shape 12 32 is_lower_hex
      (ids_machine_id (fst (generate_ids (mkRng (fun i => i) 0) 0 0))).
Proof.
  intros (prefix & rest & Hp & _ & Hr & _ & Heq).
  apply (f_equal (@length ascii)) in Heq.
  rewrite length_app, hex_encode_length, Hp, Hr in Heq.
  vm_compute in Heq. discriminate.
Qed.

(** C6 (amended): every generated telemetry machineId is the
    lowercase-hex encoding of the fixed 11-byte ASCII prefix
    [auth0|user_] (22 characters), followed by 32 further characters. *)
Theorem machine_id_format (g : Rng) (e1 e2 : Z) :
  machine_id_shape 11 32 (fun _ => true)
    (ids_machine_id (fst (generate_ids g e1 e2))) /\
  exists rest : list ascii,
    length rest = 32 /\
    chars (ids_machine_id (fst (generate_ids g e1 e2))) =
      chars (hex_encode machine_id_prefix) ++ rest /\
    Forall (fun c => is_lower_hex c = true) (chars (hex_encode machine_id_prefix)) /\
    machine_id_prefix = map nat_of_ascii (chars "auth0|user_") /\
    hex_encode machine_id_prefix = "61757468307c757365725f" /\
    length (chars (ids_machine_id (fst (generate_ids g e1 e2)))) = 54.
Proof.
  rewrite generate_ids_machine_id.
  set (g1 := snd (new_standard_machine_id g)). clearbody g1.
  assert (Hlen : length (chars (fst (get_random_hex 32 g1))) = 32).
  { unfold get_random_hex.
    pose proof (random_choices_length (ascii_lowercase +:+ digits) 32 g1) as Hk.
    destruct (random_choices _ 32 g1) as [cs g2]. cbn [fst] in *.
    now rewrite chars_join. }
  set (r := fst (get_random_hex 32 g1)) in *. clearbody r.
  assert (Heq : chars (prefix_hex +:+ r) = chars (hex_encode machine_id_prefix) ++ chars r)
    by apply chars_app.
  assert (Hp : length machine_id_prefix = 11) by reflexivity.
  split.
  - exists machine_id_prefix, (chars r).
    split; [exact Hp|]. split; [|split; [exact Hlen|split; [|exact Heq]]].
    + unfold machine_id_prefix. cbn. repeat constructor; lia.
    + apply Forall_forall. reflexivity.
  - exists (chars r).
    split; [exact Hlen|]. split; [exact Heq|]. split; [apply hex_encode_lower|].
    split; [reflexivity|]. split; [reflexivity|].
    rewrite Heq, length_app, Hlen, hex_encode_length, Hp. reflexivity.
Qed.

(** C7 (as stated, refuted): a generated sqmId does not have 36 interior
    characters (length 38). *)
Lemma sqm_id_not_38 :
  ~ sqm_id_shape 36 (ids_sqm_id (fst (generate_ids (mkRng (fun i => i) 0) 0 0))).
Proof. intros [Hlen _]. vm_compute in Hlen. discriminate. Qed.

(** C7 (amended): every generated sqmId has length exactly 34, begins
    with an opening brace, ends with a closing brace, and its interior
    32 characters are uppercase hex digits. *)
Theorem sqm_id_format (g : Rng) (e1 e2 : Z) :
  sqm_id_shape 32 (ids_sqm_id (fst (generate_ids g e1 e2))).
Proof.
  rewrite generate_ids_sqm_id.
  assert (Hc : chars ("{" +:+ str_upper (uuid_hex (uuid4 e2)) +:+ "}") =
               ["{"%char] ++ map ascii_upper (chars (uuid_hex (uuid4 e2))) ++ ["}"%char]).
  { rewrite !chars_app, chars_str_upper. reflexivity. }
  assert (Hl : length (map ascii_upper (chars (uuid_hex (uuid4 e2)))) = 32).
  { unfold uuid_hex. rewrite chars_join, !length_map, length_rev. apply length_seq. }
  split.
  - rewrite Hc, !length_app, Hl. reflexivity.
  - eexists. split; [exact Hc|]. split; [exact Hl|].
    unfold uuid_hex. rewrite chars_join.
    apply Forall_map, Forall_map, Forall_forall. intros i _.
    apply upper_of_lower_hex, hex_digit_lower.
Qed.

(** [random.choice] returns a member of its (non-empty) population. *)
Lemma random_choice_hex (g : Rng) :
  is_lower_hex (fst (random_choice hex_alphabet g)) = true.
Proof.
  unfold random_choice. cbn [fst]. change (length (chars hex_alphabet)) with 16.
  pose proof (Nat.mod_upper_bound (rng_tape g (rng_pos g)) 16 ltac:(lia)) as Hlt.
  revert Hlt. generalize (rng_tape g (rng_pos g) mod 16). intros d Hd.
  do 16 (destruct d as [|d]; [reflexivity|]). lia.
Qed.

(** The result of [new_standard_machine_id], position by position. *)
Lemma new_standard_machine_id_chars (g : Rng) :
  let hex k := nth (rng_tape g (k + rng_pos g) mod 16) (chars hex_alphabet) "0"%char in
  let var k := nth (rng_tape g (k + rng_pos g) mod 4) (chars variant_alphabet) "0"%char in
  chars (fst (new_standard_machine_id g)) =
    [hex 0; hex 1; hex 2; hex 3; hex 4; hex 5; hex 6; hex 7; "-";
     hex 8; hex 9; hex 10; hex 11; "-";
     "4"; hex 12; hex 13; hex 14; "-";
     var 15; hex 16; hex 17; hex 18; "-";
     hex 19; hex 20; hex 21; hex 22; hex 23; hex 24;
     hex 25; hex 26; hex 27; hex 28; hex 29; hex 30]%char.
Proof.
  unfold new_standard_machine_id.
  destruct (fill_template (chars id_template) g) as [result g'] eqn:E.
  cbn [fst]. rewrite chars_join.
  cbv [id_template chars list_ascii_of_string fill_template Ascii.eqb Bool.eqb orb
       random_choice rng_tape rng_pos] in E.
  injection E as <- _. reflexivity.
Qed.

Lemma random_choice_variant (n : nat) :
  nth (n mod 4) (chars variant_alphabet) "0"%char ∈ chars variant_alphabet.
Proof.
  pose proof (Nat.mod_upper_bound n 4 ltac:(lia)) as Hlt.
  revert Hlt. generalize (n mod 4). intros d Hd.
  do 4 (destruct d as [|d]; [cbn; set_solver|]). lia.
Qed.

Lemma nth_hex_lower (n : nat) :
  is_lower_hex (nth (n mod 16) (chars hex_alphabet) "0"%char) = true.
Proof.
  exact (random_choice_hex (mkRng (fun _ => n) 0)).
Qed.

Lemma nth_variant_lower (n : nat) :
  is_lower_hex (nth (n mod 4) (chars variant_alphabet) "0"%char) = true.
Proof.
  pose proof (Nat.mod_upper_bound n 4 ltac:(lia)) as Hlt.
  revert Hlt. generalize (n mod 4). intros d Hd.
  do 4 (destruct d as [|d]; [reflexivity|]). lia.
Qed.

(** Settles one position of the template: either it is a listed
    position, or the character found there cannot be the hyphen [Hi]
    says it is. *)
Ltac solve_position Hi :=
  first
    [ apply (bool_decide_unpack _); vm_compute; exact I
    | exfalso; cbv [lookup list_lookup] in Hi; apply (inj Some) in Hi;
      first
        [ discriminate Hi
        | match type of Hi with
          | nth (?n mod 16) _ _ = _ =>
              let Hh := fresh in
              pose proof (nth_hex_lower n) as Hh; rewrite Hi in Hh; discriminate Hh
          | nth (?n mod 4) _ _ = _ =>
              let Hh := fresh in
              pose proof (nth_variant_lower n) as Hh; rewrite Hi in Hh; discriminate Hh
          end ] ].

(** C8: every string returned by [new_standard_machine_id] has length 36,
    hyphens exactly at positions 8, 13, 18 and 23, the literal [4] at
    position 14, one of [8], [9], [a], [b] at position 19 and a lowercase
    hex digit at every other position; each drawn position is indexed by
    a draw of its own ([draw_index] is injective on them) into an
    alphabet without repetitions, so independent uniform draws give
    independent uniform characters. *)
Theorem new_standard_machine_id_format (g : Rng) :
  let s := chars (fst (new_standard_machine_id g)) in
  length s = 36 /\
  (forall i : nat, s !! i = Some "-"%char <-> i ∈ hyphen_positions) /\
  s !! 14 = Some "4"%char /\
  (exists c, s !! 19 = Some c /\ c ∈ chars variant_alphabet /\
     c = nth (rng_tape g (draw_index 19 + rng_pos g) mod length (chars variant_alphabet))
             (chars variant_alphabet) "0"%char) /\
  (forall i : nat, i < 36 -> i ∉ fixed_positions ->
     exists c, s !! i = Some c /\ is_lower_hex c = true /\
       c = nth (rng_tape g (draw_index i + rng_pos g) mod length (chars hex_alphabet))
               (chars hex_alphabet) "0"%char) /\
  NoDup (map draw_index drawn_positions) /\
  NoDup (chars hex_alphabet) /\ NoDup (chars variant_alphabet).
Proof.
  intros s. subst s. rewrite new_standard_machine_id_chars.
  cbv zeta.
  split; [reflexivity|].
  split.
  { intros i. unfold hyphen_positions. split.
    - intros Hi.
      do 36 (destruct i as [|i]; [solve_position Hi|]).
      discriminate Hi.
    - intros Hi. repeat (apply elem_of_cons in Hi as [->|Hi]; [reflexivity|]).
      now apply elem_of_nil in Hi. }
  split; [reflexivity|].
  split.
  { eexists. split; [reflexivity|]. split; [apply random_choice_variant|reflexivity]. }
  split.
  { intros i Hlt Hfix. unfold fixed_positions in Hfix.
    do 36 (destruct i as [|i];
           [first [ exfalso; apply Hfix; apply (bool_decide_unpack _); vm_compute; exact I
                  | eexists; split; [reflexivity|]; split; [apply nth_hex_lower|reflexivity] ] |]).
    lia. }
  split; [|split].
  - apply (bool_decide_unpack _). vm_compute. exact I.
  - apply (bool_decide_unpack _). vm_compute. exact I.
  - apply (bool_decide_unpack _). vm_compute. exact I.
Qed.

(** ** Dictionaries *)

Lemma dict_get_set_eq (k : string) (v : json) (d : list (string * json)) :
  dict_get k (dict_set k v d) = Some v.
Proof.
  induction d as [|[k' v'] d IH]; simpl.
  - now rewrite String.eqb_refl.
  - destruct (String.eqb k' k) eqn:E; simpl.
    + now rewrite String.eqb_refl.
    + now rewrite E.
Qed.

Lemma dict_get_set_ne (k k' : string) (v : json) (d : list (string * json)) :
  k <> k' -> dict_get k' (dict_set k v d) = dict_get k' d.
Proof.
  intros Hne. induction d as [|[k0 v0] d IH]; simpl.
  - destruct (String.eqb k k') eqn:E; [apply String.eqb_eq in E; contradiction|reflexivity].
  - destruct (String.eqb k0 k) eqn:E; simpl.
    + apply String.eqb_eq in E. subst k0.
      destruct (String.eqb k k') eqn:E'; [apply String.eqb_eq in E'; contradiction|reflexivity].
    + now rewrite IH.
Qed.

Lemma py_setitem2_object (d t : list (string * json)) (outer key : string) (v : json) :
  dict_get outer d = Some (JObj t) ->
  py_setitem2 (JObj d) outer key v =
  inr (JObj (dict_set outer (JObj (dict_set key v t)) d)).
Proof. intros Hd. unfold py_setitem2. simpl. now rewrite Hd. Qed.

(** ** Running the monad inside a proof *)

(** Unfolds the monad's plumbing and the primitives that only read or
    log, then the record projections over the reconstructed state. *)
Ltac unfold_m :=
  cbv [bind log print modify get ask ret raise sys_exit try_except
       try_except_import lift_py path_exists press_enter_to_exit].
Ltac simpl_state :=
  cbn [st_files st_dirs st_guid st_draws st_urandom st_polls st_writes
       st_clock st_log set_files set_dirs set_guid set_draws set_urandom
       set_polls set_writes set_clock set_log fst snd negb orb andb].
Ltac simpl_state_in H :=
  cbn [st_files st_dirs st_guid st_draws st_urandom st_polls st_writes
       st_clock st_log set_files set_dirs set_guid set_draws set_urandom
       set_polls set_writes set_clock set_log fst snd negb orb andb] in H.
Ltac run_m := unfold_m; simpl_state.

(** ** The config mutator, block by block *)

Lemma ensure_telemetry_object (members : list (string * json)) (env : Env) (st : State) :
  ensure_telemetry (JObj members) env st =
  (Val (Some (JObj (match telemetry_of members with
                    | Some _ => members
                    | None => dict_set "telemetry" (JObj []) members
                    end))), st).
Proof.
  unfold ensure_telemetry, telemetry_of, bind, lift_py, ret. cbn [py_contains py_getitem].
  destruct (dict_get "telemetry" members) as [[| | | | | |t]|] eqn:E; reflexivity.
Qed.

Lemma ensure_telemetry_scalar (config : json) (env : Env) (st : State) :
  is_plain_scalar config = true ->
  ensure_telemetry config env st = (Raised TypeError, st).
Proof. destruct config; try discriminate; reflexivity. Qed.

Lemma ensure_telemetry_array (items : list json) (env : Env) (st : State) :
  ensure_telemetry (JArr items) env st =
  if existsb (is_JStr "telemetry") items then (Raised TypeError, st)
  else (Val None, set_log (EPrint MsgRootNotObject :: st_log st) st).
Proof.
  unfold ensure_telemetry, bind, lift_py, ret. cbn [py_contains].
  destruct (existsb _ items); reflexivity.
Qed.

Lemma ensure_telemetry_string (s : string) (env : Env) (st : State) :
  ensure_telemetry (JStr s) env st =
  if bool_decide (is_Some (index 0 "telemetry" s)) then (Raised TypeError, st)
  else (Val None, set_log (EPrint MsgRootNotObject :: st_log st) st).
Proof.
  unfold ensure_telemetry, bind, lift_py, ret. cbn [py_contains].
  destruct (bool_decide _); reflexivity.
Qed.

(** On a root that is not a dict the block never yields a document to
    write, and it leaves everything but the log alone. *)
Lemma ensure_telemetry_non_object (config : json) (env : Env) (st : State) :
  is_dict config = false ->
  exists out st' new,
    ensure_telemetry config env st = (out, st') /\
    (out = Val None \/ out = Raised TypeError) /\
    st_files st' = st_files st /\ st_writes st' = st_writes st /\
    st_log st' = new ++ st_log st /\ Forall (fun e => is_write e = false) new.
Proof.
  intros Hd. destruct config; try discriminate.
  1-4: (exists (Raised TypeError), st, []; split;
        [apply ensure_telemetry_scalar; reflexivity|]; repeat split; auto).
  - rewrite ensure_telemetry_string. destruct (bool_decide _).
    + exists (Raised TypeError), st, []. repeat split; auto.
    + eexists _, _, [EPrint MsgRootNotObject]. repeat split; auto.
  - rewrite ensure_telemetry_array. destruct (existsb _ items).
    + exists (Raised TypeError), st, []. repeat split; auto.
    + eexists _, _, [EPrint MsgRootNotObject]. repeat split; auto.
Qed.

Section ConfigProofs.
Context `{JsonCodec}.

(** Lines 255-273 when the file is there, readable and parses. *)
Lemma update_storage_file_parsed (env : Env) (st : State)
  (path content : string) (config : json) (a b c d : string) :
  st_files st !! path = Some content ->
  env_read_ok env = true ->
  json_loads (universal_newlines content) = Some config ->
  update_storage_file path a b c d env st =
  mutate_config path (universal_newlines content) config a b c d env
    (set_log (ERead path true :: ECall FnUpdateStorageFile :: st_log st) st).
Proof.
  intros Hfile Hread Hparse. unfold update_storage_file, read_text.
  run_m.
  repeat (simpl_state;
          first [ rewrite Hfile | rewrite Hread | rewrite Hparse
                | rewrite bool_decide_eq_true_2 by eauto ]).
  reflexivity.
Qed.

(** Lines 262-267 when the read fails. *)
Lemma update_storage_file_unreadable (env : Env) (st : State)
  (path content : string) (a b c d : string) :
  st_files st !! path = Some content ->
  env_read_ok env = false ->
  update_storage_file path a b c d env st =
  (Val false,
   set_log (EPrint (MsgReadFailed path) :: ERead path false ::
            ECall FnUpdateStorageFile :: st_log st) st).
Proof.
  intros Hfile Hread. unfold update_storage_file, read_text.
  run_m.
  repeat (simpl_state;
          first [ rewrite Hfile | rewrite Hread
                | rewrite bool_decide_eq_true_2 by eauto ]).
  reflexivity.
Qed.

(** C5: for a config file whose content parses to something that is not
    a JSON object, [update_storage_file] performs no write and leaves
    the file store as it was; it returns [False] or lets a [TypeError]
    escape, and the error does escape whenever the root is [null], a
    boolean or a number (and the file could be read). *)
Theorem update_storage_file_non_object_root (env : Env) (st : State)
  (path content : string) (config : json) (a b c d : string) :
  st_files st !! path = Some content ->
  json_loads (universal_newlines content) = Some config ->
  is_dict config = false ->
  exists out st' new,
    update_storage_file path a b c d env st = (out, st') /\
    st_files st' = st_files st /\
    st_log st' = new ++ st_log st /\ Forall (fun e => is_write e = false) new /\
    (out = Val false \/ out = Raised TypeError) /\
    (env_read_ok env = true -> is_plain_scalar config = true ->
     out = Raised TypeError).
Proof.
  intros Hfile Hparse Hroot.
  destruct (env_read_ok env) eqn:Hread.
  - rewrite (update_storage_file_parsed env st path content config) by assumption.
    unfold mutate_config, bind.
    destruct (ensure_telemetry_non_object config env
                (set_log (ERead path true :: ECall FnUpdateStorageFile :: st_log st) st) Hroot)
      as (out & st' & new & Hrun & Hout & Hfiles & _ & Hlog & Hnew).
    rewrite Hrun.
    destruct Hout as [-> | ->].
    + exists (Val false), st', (new ++ [ERead path true; ECall FnUpdateStorageFile]).
      split; [reflexivity|]. split; [exact Hfiles|].
      split; [rewrite Hlog; cbn [st_log set_log]; now rewrite <- app_assoc|].
      split; [apply Forall_app; split; [exact Hnew|repeat constructor]|].
      split; [now left|].
      intros _ Hs. rewrite ensure_telemetry_scalar in Hrun by exact Hs. discriminate.
    + exists (Raised TypeError), st', (new ++ [ERead path true; ECall FnUpdateStorageFile]).
      split; [reflexivity|]. split; [exact Hfiles|].
      split; [rewrite Hlog; cbn [st_log set_log]; now rewrite <- app_assoc|].
      split; [apply Forall_app; split; [exact Hnew|repeat constructor]|].
      split; [now right|reflexivity].
  - rewrite (update_storage_file_unreadable env st path content) by assumption.
    eexists _, _, [EPrint (MsgReadFailed path); ERead path false; ECall FnUpdateStorageFile].
    split; [reflexivity|]. split; [reflexivity|]. split; [reflexivity|].
    split; [repeat constructor|]. split; [now left|discriminate].
Qed.

End ConfigProofs.

(** C5, at the failing input: a config file holding the JSON number [5]. *)
Lemma update_storage_file_non_object_root_witness :
  exists out st' new,
    update_storage_file "/cfg/storage.json" "m1" "m2" "m3" "m4" quiet_env
      (state_with {["/cfg/storage.json" := "5"]} None) = (out, st') /\
    st_files st' = st_files (state_with {["/cfg/storage.json" := "5"]} None) /\
    st_log st' = new ++ [] /\ Forall (fun e => is_write e = false) new /\
    (out = Val false \/ out = Raised TypeError) /\
    (env_read_ok quiet_env = true -> is_plain_scalar (JInt 5) = true ->
     out = Raised TypeError).
Proof.
  apply (update_storage_file_non_object_root quiet_env
           (state_with {["/cfg/storage.json" := "5"]} None)
           "/cfg/storage.json" "5" (JInt 5)).
  - vm_compute. reflexivity.
  - vm_compute. reflexivity.
  - reflexivity.
Defined.

(** C5, evaluated: on that file the call ends in an uncaught [TypeError]
    instead of returning [False]; on an array holding the string
    [telemetry] likewise. *)
Lemma update_storage_file_raises_on_number :
  fst (update_storage_file "/cfg/storage.json" "m1" "m2" "m3" "m4" quiet_env
         (state_with {["/cfg/storage.json" := "5"]} None)) = Raised TypeError /\
  fst (update_storage_file "/cfg/storage.json" "m1" "m2" "m3" "m4" quiet_env
         (state_with {["/cfg/storage.json" := TinyJson.doc "['telemetry']"]} None))
    = Raised TypeError /\
  fst (update_storage_file "/cfg/storage.json" "m1" "m2" "m3" "m4" quiet_env
         (state_with {["/cfg/storage.json" := "[1, 2]"]} None)) = Val false.
Proof. repeat split; vm_compute; reflexivity. Qed.

Lemma dict_set_twice (k : string) (v v' : json) (d : list (string * json)) :
  dict_set k v (dict_set k v' d) = dict_set k v d.
Proof.
  induction d as [|[k0 v0] d IH]; simpl.
  - now rewrite String.eqb_refl.
  - destruct (String.eqb k0 k) eqn:E; simpl.
    + now rewrite String.eqb_refl.
    + now rewrite E, IH.
Qed.

(** Lines 284-287 on a root whose [telemetry] is an object. *)
Lemma set_identity_fields_object (members t : list (string * json))
  (a b c d : string) (env : Env) (st : State) :
  dict_get "telemetry" members = Some (JObj t) ->
  set_identity_fields (JObj members) a b c d env st =
  (Val (JObj (dict_set "telemetry" (JObj (with_identity t a b c d)) members)), st).
Proof.
  intros Ht. unfold set_identity_fields, bind.
  rewrite (py_setitem2_object members t) by exact Ht. cbn [lift_py ret].
  rewrite (py_setitem2_object _ _ "telemetry" "macMachineId")
    by apply dict_get_set_eq. cbn [lift_py ret].
  rewrite (py_setitem2_object _ _ "telemetry" "devDeviceId")
    by apply dict_get_set_eq. cbn [lift_py ret].
  rewrite (py_setitem2_object _ _ "telemetry" "sqmId")
    by apply dict_get_set_eq. cbn [lift_py ret].
  now rewrite !dict_set_twice.
Qed.

(** Closes [l = ?new ++ old] where [l] is [old] with events pushed on. *)
Ltac log_suffix :=
  lazymatch goal with
  | |- ?l = ?new ++ ?old =>
      let rec strip l :=
        lazymatch l with
        | old => constr:(@nil event)
        | ?n ++ old => constr:(n)
        | ?x :: ?r => let r' := strip r in constr:(x :: r')
        end in
      let n := strip l in unify new n; reflexivity
  end.

Section ConfigBlocks.
Context `{JsonCodec}.

(** Lines 275-303 on a root object: the document of [updated_members]
    goes to the write block. *)
Lemma mutate_config_object (path content : string)
  (members : list (string * json)) (a b c d : string) (env : Env) (st : State) :
  mutate_config path content (JObj members) a b c d env st =
  write_with_rollback path content (JObj (updated_members members a b c d)) env st.
Proof.
  unfold mutate_config, bind at 1. rewrite ensure_telemetry_object.
  unfold updated_members, bind.
  destruct (telemetry_of members) as [t|] eqn:Et.
  - assert (Ht : dict_get "telemetry" members = Some (JObj t)).
    { unfold telemetry_of in Et.
      destruct (dict_get "telemetry" members) as [[| | | | | |t']|]; congruence. }
    now rewrite (set_identity_fields_object members t) by exact Ht.
  - rewrite (set_identity_fields_object _ [])
      by apply dict_get_set_eq.
    now rewrite dict_set_twice.
Qed.

(** Lines 275-281 on any other root: nothing is written. *)
Lemma mutate_config_non_object (path content : string) (config : json)
  (a b c d : string) (env : Env) (st : State) :
  is_dict config = false ->
  exists out st',
    mutate_config path content config a b c d env st = (out, st') /\
    st_writes st' = st_writes st.
Proof.
  intros Hroot.
  destruct (ensure_telemetry_non_object config env st Hroot)
    as (out & st' & new & Hrun & Hout & _ & Hw & _).
  unfold mutate_config, bind. rewrite Hrun.
  destruct Hout as [-> | ->]; eexists _, _; split; try reflexivity; exact Hw.
Qed.

(** Lines 289-303: what the write block returns, stores and reports,
    by the fate of its first write and of the recovery write. *)
Lemma write_with_rollback_spec (path content : string) (config : json)
  (env : Env) (st : State) :
  exists out st' new,
    write_with_rollback path content config env st = (out, st') /\
    st_log st' = new ++ st_log st /\
    match env_write env (st_writes st) with
    | WriteOk =>
        out = Val true /\
        st_files st' = <[path := written env (json_dumps config)]> (st_files st)
    | _ =>
        out = Val false /\
        In (EPrint (MsgWriteFailed path)) new /\
        In (EWrite path content (env_write env (S (st_writes st)))) new /\
        match env_write env (S (st_writes st)) with
        | WriteOk =>
            st_files st' !! path = Some (written env content) /\
            ~ In (EPrint (MsgSevereRestoreFailed path)) new
        | _ => In (EPrint (MsgSevereRestoreFailed path)) new
        end
    end.
Proof.
  unfold write_with_rollback, write_text. run_m.
  destruct (env_write env (st_writes st)) eqn:E1; simpl_state.
  - eexists _, _, _. split; [reflexivity|]. simpl_state.
    split; [log_suffix|]. split; reflexivity.
  - destruct (env_write env (S (st_writes st))) eqn:E2; simpl_state;
      eexists _, _, _; (split; [reflexivity|]); simpl_state;
      (split; [log_suffix|]); (split; [reflexivity|]);
      (split; [cbn; tauto|]); (split; [cbn; tauto|]); try (cbn; tauto).
    split; [apply lookup_insert_eq|].
    cbn. intros [Hin|[Hin|[Hin|[]]]]; discriminate Hin.
  - destruct (env_write env (S (st_writes st))) eqn:E2; simpl_state;
      eexists _, _, _; (split; [reflexivity|]); simpl_state;
      (split; [log_suffix|]); (split; [reflexivity|]);
      (split; [cbn; tauto|]); (split; [cbn; tauto|]); try (cbn; tauto).
    split; [apply lookup_insert_eq|].
    cbn. intros [Hin|[Hin|[Hin|[]]]]; discriminate Hin.
Qed.

End ConfigBlocks.

Section ConfigClaims.
Context `{JsonCodec}.

(** C4: for a config file whose root parses to a JSON object, the call
    succeeds, that is returns [True], exactly when the file can be read
    and its first write goes through; after it has succeeded the file
    holds the serialisation of a document in which the four [telemetry]
    identity fields are the four supplied values, every other top-level
    key and every other key of a [telemetry] object that was there keep
    their values, and a [telemetry] that was missing or not an object
    has become an object with exactly the four fields. *)
Theorem update_storage_file_frame (env : Env) (st : State)
  (path content : string) (members : list (string * json)) (a b c d : string) :
  st_files st !! path = Some content ->
  json_loads (universal_newlines content) = Some (JObj members) ->
  let r := update_storage_file path a b c d env st in
  (fst r = Val true <->
   env_read_ok env = true /\ env_write env (st_writes st) = WriteOk) /\
  (fst r = Val true ->
   exists members' telemetry' : list (string * json),
     st_files (snd r) !! path = Some (written env (json_dumps (JObj members'))) /\
     dict_get "telemetry" members' = Some (JObj telemetry') /\
     dict_get "machineId" telemetry' = Some (JStr a) /\
     dict_get "macMachineId" telemetry' = Some (JStr b) /\
     dict_get "devDeviceId" telemetry' = Some (JStr c) /\
     dict_get "sqmId" telemetry' = Some (JStr d) /\
     (forall k, k <> "telemetry" -> dict_get k members' = dict_get k members) /\
     (forall t, dict_get "telemetry" members = Some (JObj t) ->
        forall k, k ∉ identity_keys -> dict_get k telemetry' = dict_get k t) /\
     (telemetry_of members = None ->
        telemetry' = [("machineId", JStr a); ("macMachineId", JStr b);
                      ("devDeviceId", JStr c); ("sqmId", JStr d)])).
Proof.
  intros Hfile Hparse r. subst r.
  destruct (env_read_ok env) eqn:Hread.
  2:{ rewrite (update_storage_file_unreadable env st path content) by assumption.
      cbn [fst]. split; [split|]; [discriminate|intros [? _]; discriminate|discriminate]. }
  rewrite (update_storage_file_parsed env st path content (JObj members))
    by assumption.
  rewrite mutate_config_object.
  match goal with
  | |- context [write_with_rollback _ _ ?cfg _ ?st1] =>
      destruct (write_with_rollback_spec path (universal_newlines content) cfg env st1)
        as (out & st2 & new & Hw & _ & Hcase)
  end.
  rewrite Hw. cbn [fst snd]. cbn [st_writes set_log] in Hcase.
  destruct (env_write env (st_writes st)) eqn:Hwrite.
  2,3: destruct Hcase as (-> & _);
       (split; [split|]; [discriminate|intros [_ ?]; discriminate|discriminate]).
  destruct Hcase as [-> Hfiles].
  split; [split; [intros _; split; reflexivity|reflexivity]|intros _].
  exists (updated_members members a b c d),
         (with_identity (default [] (telemetry_of members)) a b c d).
  split; [rewrite Hfiles; apply lookup_insert_eq|].
  split; [apply dict_get_set_eq|].
  unfold with_identity.
  split; [now rewrite !dict_get_set_ne, dict_get_set_eq by discriminate|].
  split; [now rewrite !dict_get_set_ne, dict_get_set_eq by discriminate|].
  split; [now rewrite !dict_get_set_ne, dict_get_set_eq by discriminate|].
  split; [apply dict_get_set_eq|].
  split; [intros k Hk; apply dict_get_set_ne; congruence|].
  split.
  - intros t Ht k Hk. unfold telemetry_of. rewrite Ht. cbn [default].
    unfold identity_keys in Hk.
    rewrite !dict_get_set_ne; [reflexivity|..];
      intros <-; apply Hk; apply (bool_decide_unpack _); vm_compute; exact I.
  - intros ->. reflexivity.
Qed.

(** C3: the recovery of lines 297-300 does not put the original bytes
    back.  For a config file whose content parses as JSON, when the call
    tries its write and that write fails, it returns [False], reports
    the failed write and gives the recovery write the text it read at
    line 263, which is the content after newline translation.  A
    recovery write that succeeds leaves that text with every line feed
    written as [os.linesep] and prints no severe message; so the file
    holds its original content again only where this double translation
    gives the content back, which it does not for a file with bare line
    feeds on Windows nor for one with carriage returns on POSIX.  When
    the recovery write fails too the severe message, a message of its
    own, is printed (and only then). *)
Theorem update_storage_file_rollback_translates_newlines (env : Env) (st st' : State)
  (out : Outcome bool) (path content : string) (config : json) (a b c d : string) :
  st_files st !! path = Some content ->
  json_loads (universal_newlines content) = Some config ->
  update_storage_file path a b c d env st = (out, st') ->
  st_writes st < st_writes st' ->
  env_write env (st_writes st) <> WriteOk ->
  out = Val false /\
  exists new,
    st_log st' = new ++ st_log st /\
    In (EPrint (MsgWriteFailed path)) new /\
    In (EWrite path (universal_newlines content) (env_write env (S (st_writes st)))) new /\
    (env_write env (S (st_writes st)) = WriteOk ->
       st_files st' !! path = Some (written env (universal_newlines content)) /\
       (written env (universal_newlines content) <> content ->
        st_files st' !! path <> Some content) /\
       ~ In (EPrint (MsgSevereRestoreFailed path)) new) /\
    (env_write env (S (st_writes st)) <> WriteOk ->
       In (EPrint (MsgSevereRestoreFailed path)) new) /\
    MsgSevereRestoreFailed path <> MsgWriteFailed path.
Proof.
  intros Hfile Hparse Hrun Hattempt Hfail.
  destruct (env_read_ok env) eqn:Hread.
  2:{ rewrite (update_storage_file_unreadable env st path content) in Hrun
        by assumption.
      injection Hrun as <- <-. cbn in Hattempt. lia. }
  rewrite (update_storage_file_parsed env st path content config) in Hrun
    by assumption.
  destruct (is_dict config) eqn:Hroot.
  2:{ match type of Hrun with
      | mutate_config _ ?text _ _ _ _ _ _ ?st1 = _ =>
          destruct (mutate_config_non_object path text config a b c d env st1 Hroot)
            as (out1 & st1' & Hm & Hw)
      end.
      rewrite Hm in Hrun. injection Hrun as <- <-. cbn in Hw. lia. }
  destruct config as [| | | | | |members]; try discriminate.
  rewrite mutate_config_object in Hrun.
  match type of Hrun with
  | write_with_rollback _ ?text ?cfg _ ?st1 = _ =>
      destruct (write_with_rollback_spec path text cfg env st1)
        as (out1 & st2 & new & Hw & Hlog & Hcase)
  end.
  rewrite Hw in Hrun. injection Hrun as <- <-.
  cbn [st_writes set_log] in Hcase. cbn [st_log set_log] in Hlog.
  assert (Hnew : st_log st2 = (new ++ [ERead path true; ECall FnUpdateStorageFile]) ++ st_log st)
    by (rewrite Hlog; now rewrite <- app_assoc).
  destruct (env_write env (st_writes st)) eqn:E1; [congruence|..];
    destruct Hcase as (-> & Hwf & Hrec & Hsev);
    (split; [reflexivity|]);
    exists (new ++ [ERead path true; ECall FnUpdateStorageFile]);
    (split; [exact Hnew|]);
    (split; [apply in_or_app; now left|]);
    (split; [apply in_or_app; now left|]);
    (split; [|split; [|discriminate]]).
  all: destruct (env_write env (S (st_writes st))) eqn:E2; try congruence.
  all: try (intros _; destruct Hsev as [Hf Hno]; split; [exact Hf|];
            split; [rewrite Hf; intros Hne [= Heq]; exact (Hne Heq)|];
            intros Hin; apply in_app_or in Hin as [Hin|Hin]; [exact (Hno Hin)|];
            cbn in Hin; destruct Hin as [Hin|[Hin|[]]]; discriminate Hin).
  all: intros _; apply in_or_app; now left.
Qed.

End ConfigClaims.

(** C4 on two concrete files: one without a [telemetry] key and one
    whose [telemetry] is a number.  Both calls return [True] and leave a
    [telemetry] object holding exactly the four fields, next to the
    unrelated top-level key. *)
Lemma update_storage_file_frame_witness :
  let run content :=
    update_storage_file sample_path "m1" "m2" "m3" "m4" quiet_env
      (set_dirs {["/cfg"]} (state_with {[sample_path := content]} None)) in
  let healed (r : Outcome bool * State) :=
    fst r = Val true /\
    exists members' : list (string * json),
      st_files (snd r) !! sample_path =
        Some (written quiet_env (json_dumps (JObj members'))) /\
      dict_get "a" members' = Some (JInt 1) /\
      dict_get "telemetry" members' =
        Some (JObj [("machineId", JStr "m1"); ("macMachineId", JStr "m2");
                    ("devDeviceId", JStr "m3"); ("sqmId", JStr "m4")]) in
  healed (run bare_config) /\ healed (run odd_config).
Proof.
  intros run healed.
  assert (Hall : forall content members,
             json_loads (universal_newlines content) = Some (JObj members) ->
             dict_get "a" members = Some (JInt 1) ->
             telemetry_of members = None ->
             healed (run content)).
  { intros content members Hparse Ha Hnone.
    destruct (update_storage_file_frame quiet_env
                (set_dirs {["/cfg"]} (state_with {[sample_path := content]} None))
                sample_path content members "m1" "m2" "m3" "m4") as [Hiff Hpost].
    - apply lookup_insert_eq.
    - exact Hparse.
    - assert (Hok : fst (run content) = Val true) by (apply Hiff; split; reflexivity).
      split; [exact Hok|].
      destruct (Hpost Hok) as (members' & telemetry' & Hfile & Ht & _ & _ & _ & _ &
                               Hkeep & _ & Hfresh).
      exists members'. split; [exact Hfile|].
      split; [rewrite Hkeep by discriminate; exact Ha|].
      rewrite Ht, (Hfresh Hnone). reflexivity. }
  split.
  - apply (Hall bare_config [("a", JInt 1)]); vm_compute; reflexivity.
  - apply (Hall odd_config [("a", JInt 1); ("telemetry", JInt 5)]);
      vm_compute; reflexivity.
Defined.

(** C3 at the failing input: on Windows, a config file with bare line
    feeds, as the editor writes it; the first [open] for writing fails
    and leaves the file alone, the recovery write succeeds.  The call
    returns [False], prints no severe message, and the file that held
    [lf_config] now holds [crlf_config]. *)
Lemma update_storage_file_rollback_translates_newlines_witness :
  let env := with_write (fun n => match n with O => OpenFails | _ => WriteOk end)
               (win_env true true true) in
  let st := set_dirs {["/cfg"]} (state_with {[sample_path := lf_config]} None) in
  let r := update_storage_file sample_path "m1" "m2" "m3" "m4" env st in
  fst r = Val false /\
  st_files st !! sample_path = Some lf_config /\
  st_files (snd r) !! sample_path = Some crlf_config /\
  st_files (snd r) !! sample_path <> Some lf_config /\
  ~ In (EPrint (MsgSevereRestoreFailed sample_path)) (st_log (snd r)).
Proof.
  intros env st r.
  destruct (update_storage_file_rollback_translates_newlines env st (snd r) (fst r)
              sample_path lf_config (JObj [("a", JInt 1)]) "m1" "m2" "m3" "m4")
    as (Hout & new & Hlog & _ & _ & Hrec & _).
  - apply lookup_insert_eq.
  - vm_compute. reflexivity.
  - apply surjective_pairing.
  - vm_compute. lia.
  - vm_compute. discriminate.
  - destruct (Hrec eq_refl) as (Hfile & Hne & Hquiet).
    split; [exact Hout|]. split; [apply lookup_insert_eq|].
    split; [exact Hfile|].
    split; [apply Hne; vm_compute; discriminate|].
    rewrite Hlog, app_nil_r. exact Hquiet.
Defined.

(** The same recovery on POSIX with a file that has Windows line ends:
    the file comes back with bare line feeds.  With the line ends the
    platform writes, the recovery does give the content back. *)
Lemma update_storage_file_rollback_by_platform :
  let fails_once := fun n => match n with O => OpenFails | _ => WriteOk end in
  let file_after env content :=
    st_files (snd (update_storage_file sample_path "m1" "m2" "m3" "m4"
                     (with_write fails_once env)
                     (set_dirs {["/cfg"]} (state_with {[sample_path := content]} None))))
      !! sample_path in
  file_after quiet_env crlf_config = Some lf_config /\
  file_after quiet_env lf_config = Some lf_config /\
  file_after (win_env true true true) crlf_config = Some crlf_config /\
  file_after (win_env true true true) lf_config = Some crlf_config.
Proof. repeat split; vm_compute; reflexivity. Qed.

(** ** Paths and directories *)

Lemma string_length_app (a b : string) :
  String.length (a +:+ b) = String.length a + String.length b.
Proof. induction a as [|c a IH]; simpl; [reflexivity|]. now rewrite IH. Qed.

Lemma path_join_neq (a b : string) : path_join a b <> a.
Proof.
  intros Heq. apply (f_equal String.length) in Heq.
  unfold path_join in Heq. rewrite !string_length_app in Heq. simpl in Heq. lia.
Qed.

Lemma string_app_cons (c : ascii) (a b : string) :
  String c a +:+ b = String c (a +:+ b).
Proof. reflexivity. Qed.

Lemma string_app_nil_r (a : string) : a +:+ "" = a.
Proof. induction a as [|c a IH]; [reflexivity|]. now rewrite string_app_cons, IH. Qed.

Lemma string_app_assoc (a b c : string) : (a +:+ b) +:+ c = a +:+ (b +:+ c).
Proof.
  induction a as [|x a IH]; [reflexivity|]. now rewrite !string_app_cons, IH.
Qed.

Lemma path_prefixes_length (q acc rest : string) :
  In q (path_prefixes acc rest) ->
  String.length acc <= String.length q <= String.length acc + String.length rest.
Proof.
  revert acc. induction rest as [|c r IH]; intros acc; cbn [path_prefixes].
  - intros [<-|[]]. cbn. lia.
  - destruct (Ascii.eqb c "/").
    + intros [<-|Hin]; [cbn; lia|].
      apply IH in Hin. rewrite string_length_app in Hin. cbn in Hin |- *. lia.
    + intros Hin. apply IH in Hin. rewrite string_length_app in Hin.
      cbn in Hin |- *. lia.
Qed.

(** Every member of a lineage is a prefix no longer than the path. *)
Lemma path_lineage_length (q p : string) :
  In q (path_lineage p) -> String.length q <= String.length p.
Proof.
  unfold path_lineage. rewrite <- in_rev. intros Hin.
  apply filter_In in Hin as [Hin _].
  apply path_prefixes_length in Hin. cbn in Hin. lia.
Qed.

Lemma path_prefixes_no_slash (acc b : string) :
  no_slash b = true -> path_prefixes acc b = [acc +:+ b].
Proof.
  revert acc. induction b as [|c b IH]; intros acc; cbn [path_prefixes no_slash].
  - intros _. now rewrite string_app_nil_r.
  - intros [Hc Hb]%andb_prop. apply negb_true_iff in Hc. rewrite Hc.
    rewrite (IH _ Hb), string_app_assoc. reflexivity.
Qed.

Lemma path_prefixes_join (acc a b : string) :
  no_slash b = true ->
  path_prefixes acc (path_join a b) = path_prefixes acc a ++ [acc +:+ path_join a b].
Proof.
  intros Hb. unfold path_join. revert acc.
  induction a as [|c a IH]; intros acc.
  - change ("" +:+ "/" +:+ b) with (String "/" b). cbn [path_prefixes].
    rewrite (proj2 (Ascii.eqb_eq "/" "/") eq_refl).
    rewrite (path_prefixes_no_slash _ _ Hb), string_app_assoc. reflexivity.
  - rewrite string_app_cons. cbn [path_prefixes].
    destruct (Ascii.eqb c "/") eqn:Ec.
    + apply Ascii.eqb_eq in Ec. subst c.
      rewrite IH, string_app_assoc. reflexivity.
    + rewrite IH, string_app_assoc. reflexivity.
Qed.

(** [Path.parents] of [a / b] for a name [b]: the path, then [a] and its
    ancestors. *)
Lemma path_lineage_join (a b : string) :
  no_slash b = true ->
  path_lineage (path_join a b) = path_join a b :: path_lineage a.
Proof.
  intros Hb. unfold path_lineage. rewrite (path_prefixes_join _ _ _ Hb).
  rewrite List.filter_app, rev_app_distr. cbn [List.filter].
  change ("" +:+ path_join a b) with (path_join a b).
  destruct (String.eqb (path_join a b) "") eqn:E; [|reflexivity].
  apply String.eqb_eq in E. apply (f_equal String.length) in E.
  unfold path_join in E. rewrite !string_length_app in E. cbn in E. lia.
Qed.

Lemma path_join_not_in_lineage (dir name : string) :
  ~ In (path_join dir name) (path_lineage dir).
Proof.
  intros Hin. apply path_lineage_length in Hin.
  unfold path_join in Hin. rewrite !string_length_app in Hin. cbn in Hin. lia.
Qed.

(** A path is not among its own ancestors. *)
Lemma path_lineage_parents (dir : string) (parents : list string) (d : string) :
  path_lineage (path_join dir d) = path_join dir d :: parents ->
  no_slash d = true ->
  ~ In (path_join dir d) parents.
Proof.
  intros Hl Hd. rewrite (path_lineage_join _ _ Hd) in Hl. injection Hl as <-.
  apply path_join_not_in_lineage.
Qed.

(** [os.mkdir] logs one event and makes the directory or not; it makes
    it only where the operating system allows. *)
Lemma os_mkdir_run (parent : option string) (d : string) (env : Env) (st : State) :
  exists r,
    os_mkdir parent d env st = (Val r, after_os_mkdir r d st) /\
    (r = Created -> env_mkdir_ok env d = true).
Proof.
  unfold os_mkdir. run_m.
  destruct (match parent with Some q => bool_decide (q ∈ st_dirs st) | None => true end);
    simpl_state.
  - destruct (bool_decide (is_Some (st_files st !! d)) || bool_decide (d ∈ st_dirs st));
      simpl_state.
    + exists Refused. split; [reflexivity|discriminate].
    + destruct (env_mkdir_ok env d) eqn:Hok; simpl_state.
      * exists Created. split; [reflexivity|reflexivity].
      * exists Refused. split; [reflexivity|discriminate].
  - destruct (match parent with
              | Some q => bool_decide (is_Some (st_files st !! q))
              | None => false
              end).
    + exists Refused. split; [reflexivity|discriminate].
    + exists ParentMissing. split; [reflexivity|discriminate].
Qed.

Lemma unless_is_dir_run (d : string) (env : Env) (st : State) :
  unless_is_dir d env st =
  (if bool_decide (d ∈ st_dirs st) then Val tt else Raised OSError, st).
Proof.
  unfold unless_is_dir, is_dir. run_m. destruct (bool_decide _); reflexivity.
Qed.

(** [Path.mkdir(parents=True, exist_ok=True)] over a lineage: it returns
    or raises [OSError]; it changes nothing but the directories and the
    log, where it puts [os.mkdir] events only; directories are only
    added, each of them from the lineage; when it returns the path is a
    directory; where the operating system refuses to make the path
    itself it raises; and when it raises the path has not been made. *)
Lemma mkdir_parents_run (l : list string) (env : Env) (st : State) :
  exists out new D,
    mkdir_parents l env st = (out, set_dirs D (set_log (new ++ st_log st) st)) /\
    (out = Val tt \/ out = Raised OSError) /\
    forallb is_mkdir new = true /\
    st_dirs st ⊆ D /\
    (forall q, q ∈ D -> q ∈ st_dirs st \/ In q l) /\
    (out = Val tt -> forall d, head l = Some d -> d ∈ D) /\
    (forall d, head l = Some d -> d ∉ st_dirs st -> ~ In d (tail l) ->
       (env_mkdir_ok env d = false -> out = Raised OSError) /\
       (out = Raised OSError -> d ∉ D)).
Proof.
  revert st. induction l as [|d parents IH]; intros st.
  - exists (Val tt), [], (st_dirs st). cbn [mkdir_parents head tail app].
    split; [destruct st; reflexivity|].
    split; [now left|]. split; [reflexivity|]. split; [set_solver|].
    split; [auto|]. split; [discriminate|discriminate].
  - cbn [mkdir_parents head tail]. unfold bind at 1.
    destruct (os_mkdir_run (head parents) d env st) as (r & -> & Hallowed).
    destruct r; cbn [after_os_mkdir].
    + (* made at once *)
      exists (Val tt), [EMkdir d true], ({[d]} ∪ st_dirs st).
      split; [reflexivity|]. split; [now left|]. split; [reflexivity|].
      split; [set_solver|].
      split; [intros q [->%elem_of_singleton|Hq]%elem_of_union; [right; now left|now left]|].
      split; [intros _ d' [= <-]; set_solver|].
      intros d' [= <-] _ _. split; [|discriminate].
      intros Hno. rewrite Hallowed in Hno by reflexivity. discriminate Hno.
    + (* the parent is missing *)
      set (s1 := set_log (EMkdir d false :: st_log st) st).
      destruct (IH s1) as (out1 & new1 & D1 & Hrun1 & Hout1 & Hnew1 & Hsub1 & Hin1 & Hok1 & _).
      unfold bind at 1. rewrite Hrun1.
      assert (Hgrown : forall q, q ∈ D1 -> q ∈ st_dirs st \/ In q (d :: parents))
        by (intros q Hq; destruct (Hin1 q Hq) as [?|?]; [now left|right; now right]).
      assert (Hfresh : d ∉ st_dirs st -> ~ In d parents -> d ∉ D1)
        by (intros Hnd Hnp Hd; destruct (Hin1 d Hd) as [Hq|Hq];
            [exact (Hnd Hq)|exact (Hnp Hq)]).
      destruct Hout1 as [-> | ->].
      2:{ exists (Raised OSError), (new1 ++ [EMkdir d false]), D1.
          split; [subst s1; cbn [st_log set_log]; rewrite <- app_assoc; reflexivity|].
          split; [now right|].
          split; [rewrite forallb_app, Hnew1; reflexivity|].
          split; [exact Hsub1|]. split; [exact Hgrown|].
          split; [discriminate|].
          intros d' [= <-] Hnd Hnp. split; [reflexivity|intros _; exact (Hfresh Hnd Hnp)]. }
      set (s2 := set_dirs D1 (set_log (new1 ++ st_log s1) s1)).
      unfold bind at 1.
      destruct (os_mkdir_run (head parents) d env s2) as (r2 & -> & Hallowed2).
      destruct r2; cbn [after_os_mkdir].
      * exists (Val tt), (EMkdir d true :: new1 ++ [EMkdir d false]), ({[d]} ∪ D1).
        split; [subst s2 s1; cbn [st_log st_dirs set_log set_dirs app];
                rewrite <- app_assoc; reflexivity|].
        split; [now left|].
        split; [cbn [forallb is_mkdir andb]; rewrite forallb_app, Hnew1; reflexivity|].
        split; [subst s1; cbn [st_dirs set_log] in Hsub1; set_solver|].
        split; [intros q [->%elem_of_singleton|Hq]%elem_of_union;
                [right; now left|exact (Hgrown q Hq)]|].
        split; [intros _ d' [= <-]; set_solver|].
        intros d' [= <-] _ _. split; [|discriminate].
        intros Hno. rewrite Hallowed2 in Hno by reflexivity. discriminate Hno.
      * exists (Raised OSError), (EMkdir d false :: new1 ++ [EMkdir d false]), D1.
        split; [subst s2 s1; cbn [st_log st_dirs set_log set_dirs app];
                rewrite <- app_assoc; reflexivity|].
        split; [now right|].
        split; [cbn [forallb is_mkdir andb]; rewrite forallb_app, Hnew1; reflexivity|].
        split; [exact Hsub1|]. split; [exact Hgrown|].
        split; [discriminate|].
        intros d' [= <-] Hnd Hnp. split; [reflexivity|intros _; exact (Hfresh Hnd Hnp)].
      * rewrite unless_is_dir_run. subst s2 s1. cbn [st_log st_dirs set_log set_dirs].
        destruct (bool_decide (d ∈ D1)) eqn:Hd.
        -- exists (Val tt), (EMkdir d false :: new1 ++ [EMkdir d false]), D1.
           split; [cbn [app]; rewrite <- app_assoc; reflexivity|].
           split; [now left|].
           split; [cbn [forallb is_mkdir andb]; rewrite forallb_app, Hnew1; reflexivity|].
           split; [exact Hsub1|]. split; [exact Hgrown|].
           split; [intros _ d' [= <-]; exact (bool_decide_eq_true_1 _ Hd)|].
           intros d' [= <-] Hnd Hnp. exfalso.
           exact (Hfresh Hnd Hnp (bool_decide_eq_true_1 _ Hd)).
        -- exists (Raised OSError), (EMkdir d false :: new1 ++ [EMkdir d false]), D1.
           split; [cbn [app]; rewrite <- app_assoc; reflexivity|].
           split; [now right|].
           split; [cbn [forallb is_mkdir andb]; rewrite forallb_app, Hnew1; reflexivity|].
           split; [exact Hsub1|]. split; [exact Hgrown|].
           split; [discriminate|].
           intros d' [= <-] Hnd Hnp.
           split; [reflexivity|intros _; exact (Hfresh Hnd Hnp)].
    + (* refused *)
      rewrite unless_is_dir_run. cbn [st_dirs set_log].
      destruct (bool_decide (d ∈ st_dirs st)) eqn:Hd.
      * exists (Val tt), [EMkdir d false], (st_dirs st).
        split; [destruct st; reflexivity|]. split; [now left|]. split; [reflexivity|].
        split; [set_solver|]. split; [auto|].
        split; [intros _ d' [= <-]; exact (bool_decide_eq_true_1 _ Hd)|].
        intros d' [= <-] Hnd _. exfalso. exact (Hnd (bool_decide_eq_true_1 _ Hd)).
      * exists (Raised OSError), [EMkdir d false], (st_dirs st).
        split; [destruct st; reflexivity|]. split; [now right|]. split; [reflexivity|].
        split; [set_solver|]. split; [auto|].
        split; [discriminate|].
        intros d' [= <-] Hnd _. split; [reflexivity|intros _; exact Hnd].
Qed.

(** ** The registry mutator, block by block *)

Lemma read_original_guid_run (env : Env) (st : State) :
  exists new,
    read_original_guid env st =
      (Val (original_guid_of env st), set_log (new ++ st_log st) st) /\
    restore_attempted new = false /\ backup_produced new = false.
Proof.
  unfold read_original_guid, reg_query, original_guid_of. run_m.
  destruct (st_guid st) as [g|]; [destruct (env_reg_query_ok env)|];
    simpl_state; eexists [_; _]; (split; [reflexivity|]); split; reflexivity.
Qed.

(** Among [os.mkdir] events there is none of another kind. *)
Lemma existsb_mkdir_events (p : event -> bool) (new : list event) :
  (forall d ok, p (EMkdir d ok) = false) ->
  forallb is_mkdir new = true -> existsb p new = false.
Proof.
  intros Hp. induction new as [|e new IH]; [reflexivity|].
  cbn [forallb existsb]. intros [He Hnew]%andb_prop.
  destruct e; try discriminate He. now rewrite Hp, IH.
Qed.

Lemma backup_registry_run (backup_dir : string) (env : Env) (st : State) :
  let bfp := reg_backup_path backup_dir env st in
  exists st1 new,
    backup_registry backup_dir env st = (Val bfp, st1) /\
    st_log st1 = new ++ st_log st /\
    restore_attempted new = false /\
    backup_produced new = env_reg_export_ok env /\
    st_files st1 =
      (if env_reg_export_ok env
       then <[bfp := reg_file_of (st_guid st)]> (st_files st)
       else st_files st) /\
    (forall q, q ∈ st_dirs st1 <-> q ∈ st_dirs st \/
                                   q ∈ st_dirs st1 /\ In q (path_lineage backup_dir)) /\
    st_urandom st1 = st_urandom st.
Proof.
  intros bfp. subst bfp.
  unfold backup_registry, reg_backup_path, now_stamp, reg_export. run_m.
  destruct (bool_decide (is_Some (st_files st !! backup_dir))
            || bool_decide (backup_dir ∈ st_dirs st)); simpl_state.
  - destruct (env_reg_export_ok env); simpl_state;
      eexists _, _; (split; [reflexivity|]); simpl_state;
      (split; [log_suffix|]); repeat split; auto; tauto.
  - unfold mkdir.
    destruct (mkdir_parents_run (path_lineage backup_dir) env st)
      as (out & new & D & -> & Hout & Hnew & Hsub & Hin & _).
    pose proof (existsb_mkdir_events is_import new (fun _ _ => eq_refl) Hnew) as Hni.
    pose proof (existsb_mkdir_events is_export_ok new (fun _ _ => eq_refl) Hnew) as Hne.
    assert (Hdirs : forall q, q ∈ D <-> q ∈ st_dirs st \/ q ∈ D /\ In q (path_lineage backup_dir)).
    { intros q. split; [|intros [Hq|[Hq _]]; [exact (Hsub q Hq)|exact Hq]].
      intros Hq. destruct (Hin q Hq) as [?|?]; [now left|right; now split]. }
    destruct Hout as [-> | ->]; simpl_state;
      destruct (env_reg_export_ok env); simpl_state;
      eexists _, _; (split; [reflexivity|]); simpl_state;
      (split; [log_suffix|]);
      unfold restore_attempted, backup_produced;
      cbn [existsb app is_import is_export_ok orb];
      rewrite ?existsb_app, ?Hni, ?Hne;
      repeat split; auto; apply Hdirs; assumption.
Qed.

Lemma restore_from_backup_run (original_guid bfp : string) (env : Env) (st : State) :
  exists st2 new,
    restore_from_backup original_guid bfp env st = (Val tt, st2) /\
    st_log st2 = new ++ st_log st /\
    restore_attempted new =
      negb (String.eqb original_guid "") &&
      (bool_decide (is_Some (st_files st !! bfp)) || bool_decide (bfp ∈ st_dirs st)) /\
    backup_produced new = false /\
    (forall f ok, In (ERegImport f ok) new -> f = bfp) /\
    (In (ERegImport bfp false) new ->
     In (EPrint (MsgRegRestoreFailedManual bfp)) new).
Proof.
  unfold restore_from_backup, reg_import. run_m.
  destruct (String.eqb original_guid ""); simpl_state.
  { exists st, []. repeat split; auto; intros; contradiction. }
  destruct (bool_decide (is_Some (st_files st !! bfp)) || bool_decide (bfp ∈ st_dirs st));
    simpl_state.
  2:{ exists st, []. repeat split; auto; intros; contradiction. }
  destruct (st_files st !! bfp) as [c|]; [destruct (env_reg_import_ok env)|];
    simpl_state; eexists _, _; (split; [reflexivity|]); simpl_state;
    (split; [log_suffix|]); (split; [reflexivity|]); (split; [reflexivity|]);
    (split; [intros f ok Hin; cbn in Hin;
             repeat (destruct Hin as [Hin|Hin]; [congruence|]); contradiction|]);
    intros Hin; cbn in Hin |- *;
    repeat (destruct Hin as [Hin|Hin]; [try discriminate Hin|]);
    try contradiction; tauto.
Qed.

(** Lines 222-250 when [SetValueEx] raises. *)
Lemma set_and_verify_set_fails (original_guid bfp new_guid : string)
  (env : Env) (st : State) :
  env_reg_set_ok env = false ->
  exists st2 new,
    set_and_verify original_guid bfp new_guid env st = (Val false, st2) /\
    st_log st2 = new ++ st_log st /\
    restore_attempted new =
      negb (String.eqb original_guid "") &&
      (bool_decide (is_Some (st_files st !! bfp)) || bool_decide (bfp ∈ st_dirs st)) /\
    backup_produced new = false /\
    (forall f ok, In (ERegImport f ok) new -> f = bfp) /\
    (In (ERegImport bfp false) new ->
     In (EPrint (MsgRegRestoreFailedManual bfp)) new).
Proof.
  intros Hset. unfold set_and_verify, reg_set. run_m. rewrite Hset. simpl_state.
  match goal with
  | |- context [restore_from_backup _ _ _ ?st1] =>
      destruct (restore_from_backup_run original_guid bfp env st1)
        as (st2 & new & Hrun & Hlog & Hatt & Hback & Hpath & Hman)
  end.
  rewrite Hrun. simpl_state_in Hlog. simpl_state_in Hatt.
  exists st2, (new ++ [EPrint MsgRegSetFailed; ERegSet new_guid false]).
  split; [reflexivity|].
  split; [rewrite Hlog; now rewrite <- app_assoc|].
  split; [unfold restore_attempted in *; rewrite existsb_app, Hatt; cbn; now rewrite orb_false_r|].
  split; [unfold backup_produced in *; rewrite existsb_app, Hback; reflexivity|].
  split.
  - intros f ok Hin. apply in_app_or in Hin as [Hin|Hin]; [eauto|].
    cbn in Hin. destruct Hin as [Hin|[Hin|[]]]; discriminate Hin.
  - intros Hin. apply in_or_app. left. apply Hman.
    apply in_app_or in Hin as [Hin|Hin]; [exact Hin|].
    cbn in Hin. destruct Hin as [Hin|[Hin|[]]]; discriminate Hin.
Qed.

(** C9 (as stated, refuted): "restore attempted" and "backup produced"
    are not equivalent, in either direction.  On Windows, with a
    [MachineGuid] value that cannot be read, the export produces the
    backup file, the write fails, and no import is attempted.  And when
    the export fails but a file of the same name was in the backup
    directory already, the write fails and that file is imported. *)
Lemma restore_not_iff_backup_produced :
  (let r := update_machine_guid "/cfg/backups" (win_env false true true)
              (set_dirs {["/cfg"]} (state_with ∅ (Some "old-guid"))) in
   fst r = Val false /\
   backup_produced (st_log (snd r)) = true /\
   restore_attempted (st_log (snd r)) = false) /\
  (let r := update_machine_guid "/cfg/backups" (win_env true false true) stale_state in
   fst r = Val false /\
   backup_produced (st_log (snd r)) = false /\
   restore_attempted (st_log (snd r)) = true /\
   st_guid (snd r) = Some "stale-guid").
Proof. vm_compute. repeat split; reflexivity. Qed.

(** C9 (amended): on Windows, when writing the new registry value fails,
    [update_machine_guid] attempts a restore-by-import if and only if
    the original value had been read as a non-empty string and the
    backup path exists at that moment: the export of this call produced
    the file, or the path was there before the call.  An import is only
    ever of that backup file, a failed one is logged as requiring manual
    recovery with the backup file's path, and the function returns
    [False]. *)
Theorem update_machine_guid_restore (backup_dir : string) (env : Env)
  (st st' : State) (out : Outcome bool) :
  env_win32 env = true ->
  env_winreg env = true ->
  env_reg_open_ok env = true ->
  env_reg_set_ok env = false ->
  update_machine_guid backup_dir env st = (out, st') ->
  out = Val false /\
  exists new,
    st_log st' = new ++ st_log st /\
    restore_attempted new =
      negb (String.eqb (original_guid_of env st) "") &&
      (backup_produced new ||
       bool_decide (is_Some (st_files st !! reg_backup_path backup_dir env st)) ||
       bool_decide (reg_backup_path backup_dir env st ∈ st_dirs st)) /\
    backup_produced new = env_reg_export_ok env /\
    (forall f ok, In (ERegImport f ok) new -> f = reg_backup_path backup_dir env st) /\
    (In (ERegImport (reg_backup_path backup_dir env st) false) new ->
     In (EPrint (MsgRegRestoreFailedManual (reg_backup_path backup_dir env st))) new).
Proof.
  intros Hwin Hreg Hopen Hset Hrun.
  unfold update_machine_guid, import_winreg, reg_open, new_uuid4 in Hrun.
  revert Hrun. run_m.
  repeat (simpl_state; first [rewrite Hwin | rewrite Hreg | rewrite Hopen]).
  simpl_state.
  match goal with
  | |- context [read_original_guid env ?s] =>
      destruct (read_original_guid_run env s) as (new0 & Hrun0 & Hatt0 & Hback0);
      change (original_guid_of env s) with (original_guid_of env st) in Hrun0;
      simpl_state_in Hrun0
  end.
  rewrite Hrun0.
  match goal with
  | |- context [backup_registry backup_dir env ?s] =>
      destruct (backup_registry_run backup_dir env s)
        as (st1 & new1 & Hrun1 & Hlog1 & Hatt1 & Hback1 & Hfiles1 & Hdirs1 & _)
  end.
  change (reg_backup_path backup_dir env _) with (reg_backup_path backup_dir env st) in *.
  simpl_state_in Hlog1. simpl_state_in Hfiles1. simpl_state_in Hdirs1.
  rewrite Hrun1.
  set (bfp := reg_backup_path backup_dir env st) in *.
  match goal with
  | |- context [set_and_verify ?g bfp ?n env ?s] =>
      destruct (set_and_verify_set_fails g bfp n env s Hset)
        as (st2 & new2 & Hrun2 & Hlog2 & Hatt2 & Hback2 & Hpath2 & Hman2)
  end.
  simpl_state_in Hlog2. simpl_state_in Hatt2.
  rewrite Hrun2. intros Hrun. injection Hrun as <- <-.
  split; [reflexivity|].
  (* whether the backup path is there once the export has run *)
  assert (Hthere :
    bool_decide (is_Some (st_files st1 !! bfp)) || bool_decide (bfp ∈ st_dirs st1)
    = env_reg_export_ok env || bool_decide (is_Some (st_files st !! bfp))
      || bool_decide (bfp ∈ st_dirs st)).
  { assert (Hd : bool_decide (bfp ∈ st_dirs st1) = bool_decide (bfp ∈ st_dirs st)).
    { apply bool_decide_ext. rewrite (Hdirs1 bfp).
      split; [intros [Hq|[_ Hq]]; [exact Hq|]|now left].
      exfalso. exact (path_join_not_in_lineage _ _ Hq). }
    rewrite Hfiles1, Hd. destruct (env_reg_export_ok env); [|reflexivity].
    rewrite lookup_insert_eq. rewrite bool_decide_eq_true_2 by eauto. reflexivity. }
  rewrite Hthere in Hatt2.
  exists (new2 ++ new1 ++ new0 ++
          [ERegOpen true; EPrint MsgUpdatingGuid; ECall FnUpdateMachineGuid]).
  split; [rewrite Hlog2, Hlog1; cbn [app]; now rewrite <- !app_assoc|].
  unfold restore_attempted, backup_produced in *.
  rewrite !existsb_app, Hatt2, Hatt1, Hatt0, Hback2, Hback1, Hback0.
  cbn [existsb is_import is_export_ok orb].
  split; [now rewrite !orb_false_r|].
  split; [now rewrite !orb_false_r|].
  split.
  - intros f ok Hin. apply in_app_or in Hin as [Hin|Hin]; [eauto|].
    exfalso. assert (Hno : existsb is_import (new1 ++ new0 ++
      [ERegOpen true; EPrint MsgUpdatingGuid; ECall FnUpdateMachineGuid]) = false)
      by (rewrite !existsb_app, Hatt1, Hatt0; reflexivity).
    apply not_true_iff_false in Hno. apply Hno.
    apply existsb_exists. now exists (ERegImport f ok).
  - intros Hin. apply in_or_app. left. apply Hman2.
    apply in_app_or in Hin as [Hin|Hin]; [exact Hin|].
    exfalso. assert (Hno : existsb is_import (new1 ++ new0 ++
      [ERegOpen true; EPrint MsgUpdatingGuid; ECall FnUpdateMachineGuid]) = false)
      by (rewrite !existsb_app, Hatt1, Hatt0; reflexivity).
    apply not_true_iff_false in Hno. apply Hno.
    apply existsb_exists. now exists (ERegImport bfp false).
Qed.

(** C9 on a concrete Windows run: the value is read, the export fails, a
    backup file of the same name is there from before, the write fails
    and so does the import. *)
Lemma update_machine_guid_restore_witness :
  let env := win_env true false false in
  let st := stale_state in
  let r := update_machine_guid "/cfg/backups" env st in
  let bfp := reg_backup_path "/cfg/backups" env st in
  fst r = Val false /\
  exists new,
    st_log (snd r) = new ++ st_log st /\
    restore_attempted new =
      negb (String.eqb (original_guid_of env st) "") &&
      (backup_produced new || bool_decide (is_Some (st_files st !! bfp)) ||
       bool_decide (bfp ∈ st_dirs st)) /\
    backup_produced new = env_reg_export_ok env /\
    (forall f ok, In (ERegImport f ok) new -> f = bfp) /\
    (In (ERegImport bfp false) new ->
     In (EPrint (MsgRegRestoreFailedManual bfp)) new).
Proof.
  intros env st r bfp.
  apply (update_machine_guid_restore "/cfg/backups" env st (snd r) (fst r)).
  - reflexivity.
  - reflexivity.
  - reflexivity.
  - reflexivity.
  - apply surjective_pairing.
Defined.

(** The same run, evaluated: the import was attempted, it failed, and
    the manual-recovery message names the backup file. *)
Lemma update_machine_guid_restore_run :
  let r := update_machine_guid "/cfg/backups" (win_env true false false) stale_state in
  fst r = Val false /\
  restore_attempted (st_log (snd r)) = true /\
  In (EPrint (MsgRegRestoreFailedManual "/cfg/backups/MachineGuid_20240101_000000.reg"))
     (st_log (snd r)).
Proof. vm_compute. repeat split; tauto. Qed.

(** ** What a computation can put in the log *)

Section Emits.
Variable p : event -> bool.

Lemma emits_ret {A} (a : A) : emits p (ret a).
Proof. intros env st out st' [= <- <-]. now exists []. Qed.

Lemma emits_raise {A} (e : exn) : emits p (@raise A e).
Proof. intros env st out st' [= <- <-]. now exists []. Qed.

Lemma emits_sys_exit {A} (code : Z) : emits p (@sys_exit A code).
Proof. intros env st out st' [= <- <-]. now exists []. Qed.

Lemma emits_ask {A} (f : Env -> A) : emits p (ask f).
Proof. intros env st out st' [= <- <-]. now exists []. Qed.

Lemma emits_get {A} (f : State -> A) : emits p (get f).
Proof. intros env st out st' [= <- <-]. now exists []. Qed.

Lemma emits_modify (f : State -> State) :
  (forall st, st_log (f st) = st_log st) -> emits p (modify f).
Proof. intros Hf env st out st' [= <- <-]. exists []. now rewrite Hf. Qed.

Lemma emits_log (e : event) : p e = true -> emits p (log e).
Proof.
  intros He env st out st' [= <- <-]. exists [e]. cbn. now rewrite He.
Qed.

Lemma emits_bind {A B} (m : M A) (k : A -> M B) :
  emits p m -> (forall a, emits p (k a)) -> emits p (bind m k).
Proof.
  intros Hm Hk env st out st' Hrun. unfold bind in Hrun.
  destruct (m env st) as [[a|code|e] st1] eqn:Em;
    destruct (Hm _ _ _ _ Em) as (new1 & Hlog1 & Hp1).
  - destruct (Hk a _ _ _ _ Hrun) as (new2 & Hlog2 & Hp2).
    exists (new2 ++ new1). rewrite Hlog2, Hlog1, app_assoc. split; [reflexivity|].
    rewrite forallb_app, Hp1, Hp2. reflexivity.
  - injection Hrun as <- <-. eauto.
  - injection Hrun as <- <-. eauto.
Qed.

Lemma emits_try_except {A} (body : M A) (handler : exn -> M A) :
  emits p body -> (forall e, emits p (handler e)) -> emits p (try_except body handler).
Proof.
  intros Hb Hh env st out st' Hrun. unfold try_except in Hrun.
  destruct (body env st) as [[a|code|e] st1] eqn:Eb;
    destruct (Hb _ _ _ _ Eb) as (new1 & Hlog1 & Hp1).
  - injection Hrun as <- <-. eauto.
  - injection Hrun as <- <-. eauto.
  - destruct (Hh e _ _ _ _ Hrun) as (new2 & Hlog2 & Hp2).
    exists (new2 ++ new1). rewrite Hlog2, Hlog1, app_assoc. split; [reflexivity|].
    rewrite forallb_app, Hp1, Hp2. reflexivity.
Qed.

Lemma emits_try_except_import {A} (body handler : M A) :
  emits p body -> emits p handler -> emits p (try_except_import body handler).
Proof.
  intros Hb Hh env st out st' Hrun. unfold try_except_import in Hrun.
  destruct (body env st) as [[a|code|e] st1] eqn:Eb;
    destruct (Hb _ _ _ _ Eb) as (new1 & Hlog1 & Hp1).
  - injection Hrun as <- <-. eauto.
  - injection Hrun as <- <-. eauto.
  - destruct e; try (injection Hrun as <- <-; eauto; fail).
    destruct (Hh _ _ _ _ Hrun) as (new2 & Hlog2 & Hp2).
    exists (new2 ++ new1). rewrite Hlog2, Hlog1, app_assoc. split; [reflexivity|].
    rewrite forallb_app, Hp1, Hp2. reflexivity.
Qed.

Lemma emits_lift_py {A} (r : exn + A) : emits p (lift_py r).
Proof. destruct r; [apply emits_raise|apply emits_ret]. Qed.

Lemma emits_for_each {A} (l : list A) (body : A -> M unit) :
  (forall a, emits p (body a)) -> emits p (for_each l body).
Proof.
  intros Hb. induction l as [|a l IH]; cbn [for_each].
  - apply emits_ret.
  - apply emits_bind; [apply Hb|intros _; exact IH].
Qed.

End Emits.

(** The plumbing of [emits]: binds, handlers, tests and leaves that log
    nothing. *)
Ltac emits_basic :=
  lazymatch goal with
  | |- emits _ (bind _ _) => apply emits_bind; [|intros ?]
  | |- emits _ (ret _) => apply emits_ret
  | |- emits _ (raise _) => apply emits_raise
  | |- emits _ (ask _) => apply emits_ask
  | |- emits _ (get _) => apply emits_get
  | |- emits _ (modify _) => apply emits_modify; intros ?; reflexivity
  | |- emits _ (if ?b then _ else _) => destruct b
  | |- emits _ (match ?x with _ => _ end) => destruct x
  end.

(** The primitives log at most their own event. *)
Lemma emits_path_exists p f : emits p (path_exists f).
Proof. unfold path_exists. repeat emits_basic. Qed.

Lemma emits_now_stamp p : emits p now_stamp.
Proof. unfold now_stamp. repeat emits_basic. Qed.

Lemma emits_new_uuid4 p : emits p new_uuid4.
Proof. unfold new_uuid4. repeat emits_basic. Qed.

Lemma emits_new_ids p : emits p new_ids.
Proof.
  intros env st out st' Hrun. unfold new_ids in Hrun. cbv zeta in Hrun.
  apply (f_equal snd) in Hrun. cbn [snd] in Hrun. subst st'.
  now exists [].
Qed.

Lemma emits_os_mkdir p parent d :
  (forall ok, p (EMkdir d ok) = true) -> emits p (os_mkdir parent d).
Proof.
  intros Hp. unfold os_mkdir.
  repeat (first [emits_basic | apply emits_path_exists | apply emits_log, Hp]).
Qed.

Lemma emits_mkdir p dir :
  (forall d ok, p (EMkdir d ok) = true) -> emits p (mkdir dir).
Proof.
  intros Hp. unfold mkdir.
  induction (path_lineage dir) as [|d parents IH]; cbn [mkdir_parents].
  - apply emits_ret.
  - unfold unless_is_dir, is_dir.
    repeat (first [ exact IH | apply emits_os_mkdir; intros ?; apply Hp
                  | emits_basic ]).
Qed.

Lemma emits_copy2 p src dst :
  (forall ok, p (ECopy src dst ok) = true) -> emits p (copy2 src dst).
Proof. intros Hp. unfold copy2. repeat (first [emits_basic | apply emits_log, Hp]). Qed.

Lemma emits_read_text p f :
  (forall ok, p (ERead f ok) = true) -> emits p (read_text f).
Proof. intros Hp. unfold read_text. repeat (first [emits_basic | apply emits_log, Hp]). Qed.

Lemma emits_write_text p f content :
  (forall res, p (EWrite f content res) = true) -> emits p (write_text f content).
Proof. intros Hp. unfold write_text. repeat (first [emits_basic | apply emits_log, Hp]). Qed.

Lemma emits_process_iter p :
  (forall s, p (EProcessIter s) = true) -> emits p process_iter.
Proof. intros Hp. unfold process_iter. repeat (first [emits_basic | apply emits_log, Hp]). Qed.

Create HintDb emits.
#[global] Hint Resolve emits_path_exists emits_now_stamp emits_new_uuid4
  emits_new_ids : emits.

(** One step of a proof that a computation only emits events accepted by
    the predicate: split binds and handlers, case on tests, close the
    leaves. *)
Ltac emits_step :=
  lazymatch goal with
  | |- emits _ (bind _ _) => apply emits_bind; [|intros ?]
  | |- emits _ (ret _) => apply emits_ret
  | |- emits _ (raise _) => apply emits_raise
  | |- emits _ (sys_exit _) => apply emits_sys_exit
  | |- emits _ (mkdir _) => apply emits_mkdir; intros ? ?; reflexivity
  | |- emits _ (copy2 _ _) => apply emits_copy2; intros ?; reflexivity
  | |- emits _ (read_text _) => apply emits_read_text; intros ?; reflexivity
  | |- emits _ (write_text _ _) => apply emits_write_text; intros ?; reflexivity
  | |- emits _ process_iter => apply emits_process_iter; intros ?; reflexivity
  | |- emits _ (ask _) => apply emits_ask
  | |- emits _ (get _) => apply emits_get
  | |- emits _ (lift_py _) => apply emits_lift_py
  | |- emits _ (log _) => apply emits_log; reflexivity
  | |- emits _ (print _) => apply emits_log; reflexivity
  | |- emits _ (press_enter_to_exit _) => unfold press_enter_to_exit
  | |- emits _ (modify _) => apply emits_modify; intros ?; reflexivity
  | |- emits _ (try_except _ _) => apply emits_try_except; [|intros ?]
  | |- emits _ (try_except_import _ _) => apply emits_try_except_import
  | |- emits _ (for_each _ _) => apply emits_for_each; intros ?
  | |- emits _ (if ?b then _ else _) => destruct b
  | |- emits _ (match ?x with _ => _ end) => destruct x
  | |- emits _ (let _ := _ in _) => cbv zeta
  end.

Ltac emits_auto := repeat (first [emits_step | solve [eauto with emits]]).


(** ** The process quiescer *)

Lemma emits_find_processes p name :
  (forall s, p (EProcessIter s) = true) -> emits p (find_processes name).
Proof.
  intros Hp. unfold find_processes.
  apply emits_bind; [now apply emits_process_iter|intros s; apply emits_lift_py].
Qed.

Lemma emits_terminate p name pr :
  (forall pid ok, p (ETerminate pid ok) = true) ->
  (forall m, p (EPrint m) = true) ->
  emits p (terminate name pr).
Proof.
  intros Ht Hm. unfold terminate.
  repeat (first [emits_basic | apply emits_log; first [apply Ht | apply Hm]]).
Qed.

Lemma emits_wait_until_closed fuel name rc :
  emits not_mutation (wait_until_closed fuel name rc).
Proof.
  revert rc. induction fuel as [|fuel IH]; intros rc; cbn [wait_until_closed].
  - apply emits_ret.
  - destruct (rc <? MAX_RETRIES)%nat; [|apply emits_ret].
    apply emits_bind; [now apply emits_find_processes|intros still].
    destruct still as [|pr still]; [apply emits_ret|].
    cbv zeta. repeat (first [apply IH | emits_step]).
Qed.

Lemma emits_close_cursor_process name :
  emits not_mutation (close_cursor_process name).
Proof.
  unfold close_cursor_process.
  repeat (first [ apply emits_wait_until_closed
                | apply emits_find_processes; reflexivity
                | apply emits_terminate; reflexivity
                | emits_step ]).
Qed.

Lemma emits_startup : emits not_mutation startup.
Proof. unfold startup. emits_auto. Qed.

Lemma emits_quiesce : emits not_mutation quiesce.
Proof.
  unfold quiesce.
  apply emits_bind; [|intros _]; apply emits_close_cursor_process.
Qed.

(** Everything after the quiescing leaves the process table alone. *)
Lemma emits_update_machine_guid dir : emits not_poll (update_machine_guid dir).
Proof.
  unfold update_machine_guid, import_winreg, reg_open, read_original_guid,
    reg_query, backup_registry, reg_export, set_and_verify, reg_set,
    reg_readback, restore_from_backup, reg_import.
  emits_auto.
Qed.

Section EmitsConfig.
Context `{JsonCodec}.

Lemma emits_update_storage_file f a b c d :
  emits not_poll (update_storage_file f a b c d).
Proof.
  unfold update_storage_file, mutate_config, ensure_telemetry,
    set_identity_fields, write_with_rollback.
  emits_auto.
Qed.

Lemma emits_final_report g s ids dir : emits not_poll (final_report g s ids dir).
Proof. unfold final_report, iterdir_files. emits_auto. Qed.

Lemma emits_backup_config f dir : emits not_poll (backup_config f dir).
Proof. unfold backup_config. emits_auto. Qed.

Lemma emits_apply_changes f dir : emits not_poll (apply_changes f dir).
Proof.
  unfold apply_changes.
  repeat (first [ apply emits_update_machine_guid
                | apply emits_update_storage_file
                | apply emits_final_report
                | emits_step | solve [eauto with emits] ]).
Qed.

End EmitsConfig.

(** ** Inverting a run *)

Lemma bind_inv {A B} (m : M A) (k : A -> M B) env st out st' :
  bind m k env st = (out, st') ->
  (exists a s1, m env st = (Val a, s1) /\ k a env s1 = (out, st')) \/
  (exists code, m env st = (Exited code, st') /\ out = Exited code) \/
  (exists e, m env st = (Raised e, st') /\ out = Raised e).
Proof.
  unfold bind. destruct (m env st) as [[a|code|e] s1]; intros Hrun.
  - left. eauto.
  - injection Hrun as <- <-. right. left. eauto.
  - injection Hrun as <- <-. right. right. eauto.
Qed.

Lemma bind_val_inv {A B} (m : M A) (k : A -> M B) env st (b : B) st' :
  bind m k env st = (Val b, st') ->
  exists a s1, m env st = (Val a, s1) /\ k a env s1 = (Val b, st').
Proof.
  intros Hrun. apply bind_inv in Hrun as [Hv|[(c & _ & Hc)|(e & _ & He)]];
    [exact Hv|discriminate..].
Qed.

Lemma log_run (e : event) env st out st' :
  log e env st = (out, st') -> out = Val tt /\ st' = set_log (e :: st_log st) st.
Proof. intros [= <- <-]. split; reflexivity. Qed.

Ltac log_inv H := unfold print in H; apply log_run in H as [_ ->].

Lemma find_processes_run name env st out st' :
  find_processes name env st = (out, st') ->
  st' = set_log (EProcessIter (env_process_iter env (st_polls st)) :: st_log st)
          (set_polls (S (st_polls st)) st) /\
  match select_matching name (env_process_iter env (st_polls st)) with
  | inl e => out = Raised e
  | inr l => out = Val l
  end.
Proof.
  unfold find_processes, process_iter. run_m.
  destruct (select_matching name _); intros [= <- <-]; split; reflexivity.
Qed.

Lemma last_snapshot_app_some (a b : list event) (s : list proc) :
  last_snapshot a = Some s -> last_snapshot (a ++ b) = Some s.
Proof.
  induction a as [|e a IH]; [discriminate|]. cbn [app].
  destruct e; cbn [last_snapshot]; auto.
Qed.

Lemma last_snapshot_app_quiet (a b : list event) :
  forallb not_poll a = true -> last_snapshot (a ++ b) = last_snapshot b.
Proof.
  induction a as [|e a IH]; [reflexivity|]. cbn [forallb app].
  intros Hq. apply andb_prop in Hq as [He Ha].
  destruct e; cbn [last_snapshot]; auto; discriminate He.
Qed.

(** Where an event rejected by [q] sits in [l1 ++ l2] when all of [l2]
    is accepted. *)
Lemma split_at_rejected (q : event -> bool) (l1 l2 after before : list event) (e : event) :
  l1 ++ l2 = after ++ e :: before ->
  forallb q l2 = true -> q e = false ->
  exists b3, l1 = after ++ e :: b3 /\ before = b3 ++ l2.
Proof.
  revert after. induction l1 as [|x l1 IH]; intros after Heq Hq He.
  - cbn in Heq. subst l2. rewrite forallb_app in Hq.
    apply andb_prop in Hq as [_ Hq]. cbn in Hq. rewrite He in Hq. discriminate.
  - destruct after as [|y after]; cbn in Heq; injection Heq as -> Heq.
    + exists l1. split; [reflexivity|now symmetry].
    + destruct (IH after Heq Hq He) as (b3 & -> & ->). now exists b3.
Qed.

(** The [wait] loop returns normally only from a poll that showed no
    matching process. *)
Lemma wait_until_closed_val fuel name env : forall rc st st',
  wait_until_closed fuel name rc env st = (Val tt, st') ->
  rc < MAX_RETRIES -> MAX_RETRIES <= fuel + rc ->
  exists new snap,
    st_log st' = new ++ st_log st /\
    last_snapshot new = Some snap /\ none_running name snap.
Proof.
  unfold MAX_RETRIES.
  induction fuel as [|fuel IH]; intros rc st st' Hrun Hrc Hfuel; [lia|].
  cbn [wait_until_closed] in Hrun. unfold MAX_RETRIES in Hrun.
  rewrite (proj2 (Nat.ltb_lt rc 5)) in Hrun by exact Hrc.
  apply bind_val_inv in Hrun as (still & s1 & Hfind & Hrun).
  apply find_processes_run in Hfind as [-> Hsel].
  destruct (select_matching name _) as [e|l] eqn:Esel; [discriminate|].
  injection Hsel as ->.
  destruct l as [|pr l].
  - injection Hrun as <-. eexists [_], _. split; [reflexivity|]. split; [reflexivity|].
    exact Esel.
  - cbv zeta in Hrun.
    apply bind_val_inv in Hrun as ([] & s2 & Hblock & Hrun).
    destruct (5 <=? rc + 1)%nat eqn:Elast.
    { apply bind_val_inv in Hblock as ([] & s3 & _ & Hblock).
      apply bind_val_inv in Hblock as ([] & s4 & _ & Hblock).
      apply bind_val_inv in Hblock as ([] & s5 & _ & Hblock).
      unfold press_enter_to_exit in Hblock.
      apply bind_val_inv in Hblock as ([] & s6 & _ & Hblock). discriminate. }
    injection Hblock as <-.
    apply bind_val_inv in Hrun as ([] & s3 & Hp & Hrun).
    log_inv Hp.
    apply bind_val_inv in Hrun as ([] & s4 & Hs & Hrun).
    log_inv Hs.
    apply Nat.leb_gt in Elast.
    apply IH in Hrun as (new & snap & Hlog & Hlast & Hnone); [|lia..].
    simpl_state_in Hlog.
    exists (new ++ [ESleep WAIT_TIME_SECONDS; EPrint (MsgWaiting (rc + 1));
                    EProcessIter (env_process_iter env (st_polls st))]), snap.
    split; [rewrite Hlog; now rewrite <- app_assoc|].
    split; [now apply last_snapshot_app_some|exact Hnone].
Qed.

(** So does [close_cursor_process]. *)
Lemma close_cursor_process_val name env st st' :
  close_cursor_process name env st = (Val tt, st') ->
  exists new snap,
    st_log st' = new ++ st_log st /\
    last_snapshot new = Some snap /\ none_running name snap.
Proof.
  unfold close_cursor_process. intros Hrun.
  apply bind_val_inv in Hrun as ([] & s0 & Hcall & Hrun).
  log_inv Hcall.
  apply bind_val_inv in Hrun as (found & s1 & Hfind & Hrun).
  apply find_processes_run in Hfind as [-> Hsel]. simpl_state_in Hsel.
  destruct (select_matching name _) as [e|l] eqn:Esel; [discriminate|].
  injection Hsel as ->.
  destruct l as [|pr l].
  - injection Hrun as <-. eexists [_; _], _.
    split; [reflexivity|]. split; [reflexivity|exact Esel].
  - apply bind_val_inv in Hrun as ([] & s2 & H2 & Hrun).
    log_inv H2.
    apply bind_val_inv in Hrun as ([] & s3 & H3 & Hrun).
    apply bind_val_inv in Hrun as ([] & s4 & H4 & Hrun).
    log_inv H4.
    apply bind_val_inv in Hrun as ([] & s5 & H5 & Hrun).
    apply bind_val_inv in Hrun as ([] & s6 & H6 & Hrun).
    log_inv Hrun.
    apply wait_until_closed_val in H6 as (new & snap & Hlog & Hlast & Hnone);
      [|unfold MAX_RETRIES; lia..].
    destruct (emits_for_each (fun _ => true) _ _
                (fun a => emits_log _ _ eq_refl) _ _ _ _ H3) as (new3 & Hlog3 & _).
    destruct (emits_for_each (fun _ => true) _ _
                (fun a => emits_terminate _ name a (fun _ _ => eq_refl) (fun _ => eq_refl))
                _ _ _ _ H5) as (new5 & Hlog5 & _).
    simpl_state_in Hlog3. simpl_state_in Hlog5.
    exists (EPrint (MsgClosed name) :: new ++ new5 ++ EPrint (MsgTryClose name) ::
            new3 ++ [EPrint (MsgFoundRunning name);
                     EProcessIter (env_process_iter env (st_polls st));
                     ECall FnCloseCursorProcess]), snap.
    split; [|split; [cbn [last_snapshot]; now apply last_snapshot_app_some|exact Hnone]].
    simpl_state. rewrite Hlog, Hlog5, Hlog3. cbn [app].
    repeat (rewrite <- ?app_assoc; cbn [app]). reflexivity.
Qed.

(** ** Running forward *)

Lemma bind_val {A B} (m : M A) (k : A -> M B) env st a s1 :
  m env st = (Val a, s1) -> bind m k env st = k a env s1.
Proof. intros Hm. unfold bind. now rewrite Hm. Qed.

Lemma bind_exit {A B} (m : M A) (k : A -> M B) env st code s1 :
  m env st = (Exited code, s1) -> bind m k env st = (Exited code, s1).
Proof. intros Hm. unfold bind. now rewrite Hm. Qed.

Lemma find_processes_some name env st l :
  select_matching name (env_process_iter env (st_polls st)) = inr l ->
  find_processes name env st =
  (Val l, set_log (EProcessIter (env_process_iter env (st_polls st)) :: st_log st)
            (set_polls (S (st_polls st)) st)).
Proof.
  intros Hsel. unfold find_processes, process_iter. run_m. now rewrite Hsel.
Qed.

(** A loop whose body returns and leaves the poll counter alone does
    so too. *)
Lemma for_each_val {A} (body : A -> M unit) env :
  (forall a st, exists st', body a env st = (Val tt, st') /\ st_polls st' = st_polls st) ->
  forall l st, exists st',
    for_each l body env st = (Val tt, st') /\ st_polls st' = st_polls st.
Proof.
  intros Hbody. induction l as [|a l IH]; intros st; cbn [for_each].
  - now exists st.
  - destruct (Hbody a st) as (s1 & H1 & Hp1).
    destruct (IH s1) as (s2 & H2 & Hp2).
    exists s2. rewrite (bind_val _ _ _ _ _ _ H1). split; [exact H2|congruence].
Qed.

Lemma print_each_val {A} (f : A -> msg) env l st :
  exists st',
    for_each l (fun a => print (f a)) env st = (Val tt, st') /\
    st_polls st' = st_polls st.
Proof.
  apply for_each_val. intros a s. eexists. split; reflexivity.
Qed.

Lemma terminate_each_val name env l st :
  exists st',
    for_each l (terminate name) env st = (Val tt, st') /\
    st_polls st' = st_polls st.
Proof.
  apply for_each_val. intros a s. unfold terminate. run_m.
  destruct (env_terminate_ok env (proc_pid a)); eexists; split; reflexivity.
Qed.

(** Lines 158-162 always end the run with status 1. *)
Lemma budget_exhausted_block name env (l : list proc) st :
  exists st',
    (print (MsgCannotClose name);;
     for_each l (fun p => print (MsgStillRunning p));;
     print MsgCloseManually;;
     press_enter_to_exit 1)%py env st = (@Exited unit 1, st').
Proof.
  rewrite (bind_val (print _) _ _ _ tt _ eq_refl).
  destruct (print_each_val MsgStillRunning env l
              (set_log (EPrint (MsgCannotClose name) :: st_log st) st))
    as (s2 & Hfe & _).
  rewrite (bind_val _ _ _ _ _ _ Hfe).
  rewrite (bind_val (print _) _ _ _ tt _ eq_refl).
  eexists. reflexivity.
Qed.

(** The budget runs out: a matching process in every poll the loop can
    still make ends the run with status 1. *)
Lemma wait_until_closed_persists fuel name env : forall rc st,
  rc < MAX_RETRIES -> MAX_RETRIES <= fuel + rc ->
  (forall i, i < MAX_RETRIES - rc ->
     exists p l, select_matching name (env_process_iter env (st_polls st + i)) = inr (p :: l)) ->
  exists st', wait_until_closed fuel name rc env st = (Exited 1, st').
Proof.
  unfold MAX_RETRIES.
  induction fuel as [|fuel IH]; intros rc st Hrc Hfuel Hper; [lia|].
  cbn [wait_until_closed]. unfold MAX_RETRIES.
  rewrite (proj2 (Nat.ltb_lt rc 5)) by exact Hrc.
  destruct (Hper 0 ltac:(lia)) as (pr & l & Esel). rewrite Nat.add_0_r in Esel.
  rewrite (bind_val _ _ _ _ _ _ (find_processes_some _ _ _ _ Esel)).
  cbv zeta.
  destruct (5 <=? rc + 1)%nat eqn:Elast.
  - match goal with
    | |- context [bind _ _ env ?s] =>
        destruct (budget_exhausted_block name env (pr :: l) s) as (s2 & Hblock)
    end.
    exists s2. apply bind_exit. exact Hblock.
  - apply Nat.leb_gt in Elast.
    rewrite (bind_val (ret tt) _ _ _ tt _ eq_refl).
    rewrite (bind_val (print _) _ _ _ tt _ eq_refl).
    rewrite (bind_val (log _) _ _ _ tt _ eq_refl).
    apply IH; [lia..|]. intros i Hi. simpl_state.
    destruct (Hper (S i) ltac:(lia)) as (p' & l' & E').
    rewrite Nat.add_succ_r in E'. eauto.
Qed.

(** The loop comes back: the first quiet poll within the budget ends
    it. *)
Lemma wait_until_closed_quiet fuel name env : forall rc st k,
  rc < MAX_RETRIES -> MAX_RETRIES <= fuel + rc ->
  first_quiet name (env_process_iter env) (st_polls st) (MAX_RETRIES - rc) = Some k ->
  exists st',
    wait_until_closed fuel name rc env st = (Val tt, st') /\
    st_polls st' = st_polls st + k.
Proof.
  unfold MAX_RETRIES.
  induction fuel as [|fuel IH]; intros rc st k Hrc Hfuel Hq; [lia|].
  cbn [wait_until_closed]. unfold MAX_RETRIES.
  rewrite (proj2 (Nat.ltb_lt rc 5)) by exact Hrc.
  destruct (5 - rc) as [|b] eqn:Eb; [lia|]. cbn [first_quiet] in Hq.
  destruct (select_matching name (env_process_iter env (st_polls st)))
    as [e|[|pr l]] eqn:Esel; [discriminate| |].
  - injection Hq as <-.
    rewrite (bind_val _ _ _ _ _ _ (find_processes_some _ _ _ _ Esel)).
    eexists. split; [reflexivity|]. simpl_state. lia.
  - destruct (first_quiet name (env_process_iter env) (S (st_polls st)) b)
      as [k'|] eqn:Ek; [|discriminate].
    injection Hq as <-.
    destruct b as [|b]; [discriminate|].
    rewrite (bind_val _ _ _ _ _ _ (find_processes_some _ _ _ _ Esel)).
    cbv zeta.
    rewrite (proj2 (Nat.leb_gt 5 (rc + 1))) by lia.
    rewrite (bind_val (ret tt) _ _ _ tt _ eq_refl).
    rewrite (bind_val (print _) _ _ _ tt _ eq_refl).
    rewrite (bind_val (log _) _ _ _ tt _ eq_refl).
    destruct (IH (rc + 1) (set_log (ESleep WAIT_TIME_SECONDS :: EPrint (MsgWaiting (rc + 1)) ::
                 EProcessIter (env_process_iter env (st_polls st)) :: st_log st)
                 (set_polls (S (st_polls st)) st)) k')
      as (st' & Hrun & Hp); [lia..| |].
    + simpl_state. replace (5 - (rc + 1)) with (S b) by lia. exact Ek.
    + exists st'. split; [exact Hrun|]. rewrite Hp. simpl_state. lia.
Qed.

Lemma close_cursor_process_persists name env st :
  persists name env (st_polls st) ->
  exists st', close_cursor_process name env st = (Exited 1, st').
Proof.
  intros Hper. unfold close_cursor_process.
  rewrite (bind_val (log _) _ _ _ tt _ eq_refl).
  destruct (Hper 0 ltac:(unfold MAX_RETRIES; lia)) as (pr & l & Esel).
  rewrite Nat.add_0_r in Esel.
  rewrite (bind_val _ _ _ _ _ _ (find_processes_some name env (set_log (ECall FnCloseCursorProcess :: st_log st) st) _ Esel)).
  rewrite (bind_val (print _) _ _ _ tt _ eq_refl).
  match goal with
  | |- context [bind (for_each ?l _) _ env ?s] =>
      destruct (print_each_val MsgProcInfo env l s) as (s2 & Hfe & Hp2)
  end.
  rewrite (bind_val _ _ _ _ _ _ Hfe).
  rewrite (bind_val (print _) _ _ _ tt _ eq_refl).
  match goal with
  | |- context [bind (for_each ?l _) _ env ?s] =>
      destruct (terminate_each_val name env l s) as (s3 & Hte & Hp3)
  end.
  rewrite (bind_val _ _ _ _ _ _ Hte).
  simpl_state_in Hp2. simpl_state_in Hp3.
  destruct (wait_until_closed_persists MAX_RETRIES name env 0 s3) as (st' & Hw);
    [unfold MAX_RETRIES; lia..| |].
  - intros i Hi. rewrite Hp3, Hp2.
    destruct (Hper (S i) ltac:(lia)) as (p' & l' & E').
    rewrite Nat.add_succ_r in E'. eauto.
  - exists st'. now apply bind_exit.
Qed.

Lemma close_cursor_process_quiet name env st k :
  quiesce_polls name env (st_polls st) = Some k ->
  exists st',
    close_cursor_process name env st = (Val tt, st') /\
    st_polls st' = st_polls st + k.
Proof.
  unfold quiesce_polls. cbn [first_quiet]. intros Hq. unfold close_cursor_process.
  rewrite (bind_val (log _) _ _ _ tt _ eq_refl).
  destruct (select_matching name (env_process_iter env (st_polls st)))
    as [e|[|pr l]] eqn:Esel; [discriminate| |].
  - injection Hq as <-.
    rewrite (bind_val _ _ _ _ _ _ (find_processes_some name env (set_log (ECall FnCloseCursorProcess :: st_log st) st) _ Esel)).
    eexists. split; [reflexivity|]. simpl_state. lia.
  - destruct (first_quiet name (env_process_iter env) (S (st_polls st)) MAX_RETRIES)
      as [k'|] eqn:Ek; [|discriminate].
    injection Hq as <-.
    rewrite (bind_val _ _ _ _ _ _ (find_processes_some name env (set_log (ECall FnCloseCursorProcess :: st_log st) st) _ Esel)).
    rewrite (bind_val (print _) _ _ _ tt _ eq_refl).
    match goal with
    | |- context [bind (for_each ?l _) _ env ?s] =>
        destruct (print_each_val MsgProcInfo env l s) as (s2 & Hfe & Hp2)
    end.
    rewrite (bind_val _ _ _ _ _ _ Hfe).
    rewrite (bind_val (print _) _ _ _ tt _ eq_refl).
    match goal with
    | |- context [bind (for_each ?l _) _ env ?s] =>
        destruct (terminate_each_val name env l s) as (s3 & Hte & Hp3)
    end.
    rewrite (bind_val _ _ _ _ _ _ Hte).
    simpl_state_in Hp2. simpl_state_in Hp3.
    destruct (wait_until_closed_quiet MAX_RETRIES name env 0 s3 k')
      as (s4 & Hw & Hp4); [unfold MAX_RETRIES; lia..| |].
    + rewrite Hp3, Hp2. rewrite Nat.sub_0_r. exact Ek.
    + rewrite (bind_val _ _ _ _ _ _ Hw).
      eexists. split; [reflexivity|]. simpl_state. rewrite Hp4, Hp3, Hp2. lia.
Qed.

(** ** The orchestrator *)

Lemma startup_admin env st :
  env_is_admin env = true ->
  exists s1, startup env st = (Val tt, s1) /\ st_polls s1 = st_polls st.
Proof.
  intros Hadmin. unfold startup. run_m. rewrite Hadmin. simpl_state.
  destruct (env_cursor_version env); eexists; split; reflexivity.
Qed.

(** [quiesce] returns normally only after a poll of its second call
    showed no matching process. *)
Lemma quiesce_val env st st' :
  quiesce env st = (Val tt, st') ->
  exists new snap,
    st_log st' = new ++ st_log st /\
    last_snapshot new = Some snap /\ none_running "cursor" snap.
Proof.
  unfold quiesce. intros Hrun.
  apply bind_val_inv in Hrun as ([] & s1 & H1 & H2).
  destruct (emits_close_cursor_process "Cursor" _ _ _ _ H1) as (new1 & Hlog1 & _).
  apply close_cursor_process_val in H2 as (new2 & snap & Hlog2 & Hlast & Hnone).
  exists (new2 ++ new1), snap.
  split; [rewrite Hlog2, Hlog1; now rewrite app_assoc|].
  split; [now apply last_snapshot_app_some|exact Hnone].
Qed.

Lemma no_mutation_inside (new after before : list event) (e : event) :
  forallb not_mutation new = true ->
  new = after ++ e :: before -> is_mutation e = true -> False.
Proof.
  intros Hq -> He. rewrite forallb_app in Hq.
  apply andb_prop in Hq as [_ Hq]. cbn in Hq. unfold not_mutation in Hq at 1.
  rewrite He in Hq. discriminate.
Qed.

Section Orchestrator.
Context `{JsonCodec}.

Lemma emits_after_quiescing : emits not_poll after_quiescing.
Proof.
  unfold after_quiescing, get_storage_file_path, get_backup_dir_path.
  repeat (first [ apply emits_backup_config | apply emits_apply_changes | emits_step ]).
Qed.

(** C2: in every run, each event that mutates (or sets out to mutate)
    the registry value or the config file comes after [quiesce] has
    returned, and the latest process-table snapshot taken before it
    shows no matching process; and when a matching process is seen in
    all six enumerations of a quiescing call (the first one and the five
    retries), of the first call or of the second, the run exits with
    status 1 and its log holds no such event. *)
Theorem main_mutates_only_after_quiescing (env : Env) (st st' : State)
  (out : Outcome unit) (new : list event) :
  main env st = (out, st') ->
  st_log st' = new ++ st_log st ->
  (forall after e before,
     new = after ++ e :: before -> is_mutation e = true ->
     exists s1 s2 later snap,
       startup env st = (Val tt, s1) /\
       quiesce env s1 = (Val tt, s2) /\
       before ++ st_log st = later ++ st_log s2 /\
       forallb not_poll later = true /\
       last_snapshot before = Some snap /\ none_running "cursor" snap) /\
  (env_is_admin env = true ->
   persists "Cursor" env (st_polls st) \/
   (exists k, quiesce_polls "Cursor" env (st_polls st) = Some k /\
              persists "cursor" env (st_polls st + k)) ->
   out = Exited 1 /\ forallb not_mutation new = true).
Proof.
  intros Hrun Hnew. unfold main in Hrun. split.
  - intros after e before Hsplit He.
    apply bind_inv in Hrun as [([] & s1 & H1 & Hrun)|Hstop].
    2:{ exfalso.
        assert (Hs : exists o, startup env st = (o, st'))
          by (destruct Hstop as [(c & Hc & _)|(x & Hx & _)]; eauto).
        destruct Hs as (o & Hs).
        destruct (emits_startup _ _ _ _ Hs) as (n1 & Hl1 & Hq1).
        rewrite Hnew in Hl1. apply app_inv_tail in Hl1. rewrite Hl1 in Hsplit.
        exact (no_mutation_inside _ _ _ _ Hq1 Hsplit He). }
    destruct (emits_startup _ _ _ _ H1) as (n1 & Hl1 & Hq1).
    apply bind_inv in Hrun as [([] & s2 & H2 & Hrun)|Hstop].
    2:{ exfalso.
        assert (Hs : exists o, quiesce env s1 = (o, st'))
          by (destruct Hstop as [(c & Hc & _)|(x & Hx & _)]; eauto).
        destruct Hs as (o & Hs).
        destruct (emits_quiesce _ _ _ _ Hs) as (n2 & Hl2 & Hq2).
        rewrite Hl1, app_assoc in Hl2. rewrite Hnew in Hl2.
        apply app_inv_tail in Hl2. rewrite Hl2 in Hsplit.
        refine (no_mutation_inside _ _ _ _ _ Hsplit He).
        rewrite forallb_app, Hq1, Hq2. reflexivity. }
    destruct (emits_quiesce _ _ _ _ H2) as (n2 & Hl2 & Hq2).
    destruct (quiesce_val _ _ _ H2) as (n2' & snap & Hl2' & Hlast & Hnone).
    assert (n2' = n2) by (rewrite Hl2 in Hl2'; now apply app_inv_tail in Hl2').
    subst n2'.
    destruct (emits_after_quiescing _ _ _ _ Hrun) as (n3 & Hl3 & Hq3).
    assert (Hall : new = n3 ++ n2 ++ n1).
    { rewrite Hl2, Hl1, !app_assoc in Hl3. rewrite Hnew in Hl3.
      apply app_inv_tail in Hl3. now rewrite <- app_assoc in Hl3. }
    rewrite Hall in Hsplit.
    destruct (split_at_rejected not_mutation n3 (n2 ++ n1) after before e Hsplit)
      as (b3 & Hn3 & Hbefore).
    { rewrite forallb_app, Hq1, Hq2. reflexivity. }
    { unfold not_mutation. now rewrite He. }
    assert (Hb3 : forallb not_poll b3 = true).
    { rewrite Hn3, forallb_app in Hq3. apply andb_prop in Hq3 as [_ Hq3].
      cbn in Hq3. now apply andb_prop in Hq3 as [_ Hq3]. }
    exists s1, s2, b3, snap.
    split; [exact H1|]. split; [exact H2|].
    split; [rewrite Hbefore, Hl2, Hl1; now rewrite <- !app_assoc|].
    split; [exact Hb3|].
    split; [|exact Hnone].
    rewrite Hbefore, last_snapshot_app_quiet by exact Hb3.
    now apply last_snapshot_app_some.
  - intros Hadmin Hper.
    destruct (startup_admin env st Hadmin) as (s1 & H1 & Hp1).
    destruct (emits_startup _ _ _ _ H1) as (n1 & Hl1 & Hq1).
    rewrite (bind_val _ _ _ _ _ _ H1) in Hrun.
    assert (Hq : exists s2, quiesce env s1 = (Exited 1, s2)).
    { unfold quiesce. destruct Hper as [Hper|(k & Hk & Hper)].
      - rewrite <- Hp1 in Hper.
        destruct (close_cursor_process_persists _ _ _ Hper) as (s2 & Hc).
        exists s2. now apply bind_exit.
      - rewrite <- Hp1 in Hk, Hper.
        destruct (close_cursor_process_quiet _ _ _ _ Hk) as (s1' & Hc1 & Hp1').
        rewrite <- Hp1' in Hper.
        destruct (close_cursor_process_persists _ _ _ Hper) as (s2 & Hc).
        exists s2. now rewrite (bind_val _ _ _ _ _ _ Hc1). }
    destruct Hq as (s2 & H2).
    destruct (emits_quiesce _ _ _ _ H2) as (n2 & Hl2 & Hq2).
    rewrite (bind_exit _ _ _ _ _ _ H2) in Hrun. injection Hrun as <- <-.
    split; [reflexivity|].
    rewrite Hl1, app_assoc in Hl2. rewrite Hnew in Hl2.
    apply app_inv_tail in Hl2. rewrite Hl2.
    rewrite forallb_app, Hq1, Hq2. reflexivity.
Qed.

(** Lines 420-464 never read [machine_guid_updated]: after a config
    update that succeeded the report is the same whatever
    [update_machine_guid] returned, and it ends with status 0. *)
Lemma final_report_unused_flag
  (machine_guid_updated machine_guid_updated' : bool)
  (ids : IdentitySet) (backup_dir_path : string) (env : Env) (st : State) :
  final_report machine_guid_updated true ids backup_dir_path env st =
  final_report machine_guid_updated' true ids backup_dir_path env st /\
  fst (final_report machine_guid_updated true ids backup_dir_path env st) = Exited 0.
Proof.
  split; [reflexivity|].
  unfold final_report, iterdir_files. run_m.
  destruct (env_iterdir_ok env); simpl_state; [|reflexivity].
  match goal with
  | |- context [for_each ?l ?body env ?s] =>
      destruct (for_each_val body env
                  (fun a s0 => ex_intro _ _ (conj eq_refl eq_refl)) l s)
        as (s2 & Hfe & _)
  end.
  rewrite Hfe. destruct (omap _ _); reflexivity.
Qed.

End Orchestrator.

(** C2 on two concrete runs: one where Cursor goes away after the
    second poll and the config file is then rewritten, one where it
    never goes away. *)
Lemma main_mutates_only_after_quiescing_witness :
  (let env := with_procs leaving quiet_env in
   let st := installed_state None in
   let r := main env st in
   forall after e before,
     st_log (snd r) = after ++ e :: before -> is_mutation e = true ->
     exists s1 s2 later snap,
       startup env st = (Val tt, s1) /\
       quiesce env s1 = (Val tt, s2) /\
       before ++ st_log st = later ++ st_log s2 /\
       forallb not_poll later = true /\
       last_snapshot before = Some snap /\ none_running "cursor" snap) /\
  (let env := with_procs (fun _ => stubborn) quiet_env in
   let st := installed_state None in
   let r := main env st in
   fst r = Exited 1 /\ forallb not_mutation (st_log (snd r)) = true).
Proof.
  split.
  - intros env st r.
    apply (proj1 (main_mutates_only_after_quiescing env st (snd r) (fst r)
                    (st_log (snd r)) (surjective_pairing r)
                    (eq_sym (app_nil_r (st_log (snd r)))))).
  - intros env st r.
    apply (proj2 (main_mutates_only_after_quiescing env st (snd r) (fst r)
                    (st_log (snd r)) (surjective_pairing r)
                    (eq_sym (app_nil_r (st_log (snd r)))))).
    + reflexivity.
    + left. intros i Hi. eexists _, _. vm_compute. reflexivity.
Defined.

(** The first of those runs does mutate, and ends well. *)
Lemma main_after_cursor_left :
  let r := main (with_procs leaving quiet_env) (installed_state None) in
  fst r = Exited 0 /\
  existsb is_mutation (st_log (snd r)) = true /\
  quiesce_polls "Cursor" (with_procs leaving quiet_env) 0 = Some 4.
Proof. vm_compute. repeat split; reflexivity. Qed.

(** C1, at the failing input: the config file exists and copying it to
    the backup location fails.  The run reports the failure and goes
    on: it calls [update_storage_file], rewrites the config file of
    which no backup exists, and exits with status 0. *)
Lemma main_continues_after_failed_backup :
  let r := main (with_copy false quiet_env) (installed_state None) in
  fst r = Exited 0 /\
  existsb is_failed_copy (st_log (snd r)) = true /\
  existsb is_backup_failed_msg (st_log (snd r)) = true /\
  existsb is_config_call (st_log (snd r)) = true /\
  existsb is_write (st_log (snd r)) = true /\
  st_files (snd r) !! installed_backup = None /\
  st_files (installed_state None) !! installed_path = Some sample_config /\
  st_files (snd r) !! installed_path <> Some sample_config.
Proof.
  vm_compute. repeat split; try reflexivity. discriminate.
Qed.

(** The lines 380-390 in general: when the copy fails the block returns
    normally, so [main] goes on to [apply_changes]. *)
Lemma backup_config_survives_copy_failure (f dir : string) (env : Env) (st : State) :
  env_copy_ok env = false ->
  is_Some (st_files st !! dir) \/ dir ∈ st_dirs st \/ fst (mkdir dir env st) = Val tt ->
  is_Some (st_files st !! f) ->
  exists st', backup_config f dir env st = (Val tt, st') /\
              st_files st' = st_files st.
Proof.
  intros Hcopy Hdir [c Hf]. unfold backup_config, copy2, now_stamp. run_m.
  destruct (bool_decide (is_Some (st_files st !! dir)) || bool_decide (dir ∈ st_dirs st))
    eqn:Ed.
  - repeat (simpl_state;
            first [ rewrite Hf | rewrite Hcopy
                  | rewrite (bool_decide_eq_true_2 (is_Some (Some c))) by eauto ]).
    eexists. split; reflexivity.
  - destruct Hdir as [Hd|[Hd|Hd]].
    + rewrite (bool_decide_eq_true_2 _ Hd) in Ed. discriminate.
    + rewrite (bool_decide_eq_true_2 _ Hd), orb_true_r in Ed. discriminate.
    + unfold mkdir in Hd |- *.
      destruct (mkdir_parents_run (path_lineage dir) env st)
        as (out & new & D & Hrun & _).
      simpl_state. rewrite Hrun in Hd |- *. cbn [fst] in Hd. subst out.
      repeat (simpl_state;
              first [ rewrite Hf | rewrite Hcopy
                    | rewrite (bool_decide_eq_true_2 (is_Some (Some c))) by eauto ]).
      eexists. split; reflexivity.
Qed.


(** * Further properties *)

(** ** What a computation leaves alone *)

Section Preserves.
Context {X : Type} (f : State -> X).

Lemma preserves_ret {A} (a : A) : preserves f (ret a).
Proof. intros env st out st' [= <- <-]. reflexivity. Qed.

Lemma preserves_raise {A} (e : exn) : preserves f (@raise A e).
Proof. intros env st out st' [= <- <-]. reflexivity. Qed.

Lemma preserves_sys_exit {A} (code : Z) : preserves f (@sys_exit A code).
Proof. intros env st out st' [= <- <-]. reflexivity. Qed.

Lemma preserves_ask {A} (g : Env -> A) : preserves f (ask g).
Proof. intros env st out st' [= <- <-]. reflexivity. Qed.

Lemma preserves_get {A} (g : State -> A) : preserves f (get g).
Proof. intros env st out st' [= <- <-]. reflexivity. Qed.

Lemma preserves_modify (g : State -> State) :
  (forall st, f (g st) = f st) -> preserves f (modify g).
Proof. intros Hg env st out st' [= <- <-]. apply Hg. Qed.

Lemma preserves_lift_py {A} (r : exn + A) : preserves f (lift_py r).
Proof. destruct r; [apply preserves_raise|apply preserves_ret]. Qed.

Lemma preserves_bind {A B} (m : M A) (k : A -> M B) :
  preserves f m -> (forall a, preserves f (k a)) -> preserves f (bind m k).
Proof.
  intros Hm Hk env st out st' Hrun. unfold bind in Hrun.
  destruct (m env st) as [[a|code|e] st1] eqn:Em; pose proof (Hm _ _ _ _ Em) as H1.
  - rewrite (Hk a _ _ _ _ Hrun). exact H1.
  - injection Hrun as <- <-. exact H1.
  - injection Hrun as <- <-. exact H1.
Qed.

Lemma preserves_try_except {A} (body : M A) (handler : exn -> M A) :
  preserves f body -> (forall e, preserves f (handler e)) ->
  preserves f (try_except body handler).
Proof.
  intros Hb Hh env st out st' Hrun. unfold try_except in Hrun.
  destruct (body env st) as [[a|code|e] st1] eqn:Eb; pose proof (Hb _ _ _ _ Eb) as H1.
  - injection Hrun as <- <-. exact H1.
  - injection Hrun as <- <-. exact H1.
  - rewrite (Hh e _ _ _ _ Hrun). exact H1.
Qed.

Lemma preserves_try_except_import {A} (body handler : M A) :
  preserves f body -> preserves f handler ->
  preserves f (try_except_import body handler).
Proof.
  intros Hb Hh env st out st' Hrun. unfold try_except_import in Hrun.
  destruct (body env st) as [[a|code|e] st1] eqn:Eb; pose proof (Hb _ _ _ _ Eb) as H1.
  - injection Hrun as <- <-. exact H1.
  - injection Hrun as <- <-. exact H1.
  - destruct e; try (injection Hrun as <- <-; exact H1).
    rewrite (Hh _ _ _ _ Hrun). exact H1.
Qed.

Lemma preserves_for_each {A} (l : list A) (body : A -> M unit) :
  (forall a, preserves f (body a)) -> preserves f (for_each l body).
Proof.
  intros Hb. induction l as [|a l IH]; cbn [for_each].
  - apply preserves_ret.
  - apply preserves_bind; [apply Hb|intros _; exact IH].
Qed.

End Preserves.

(** Making a directory touches the directories and the log only. *)
Lemma preserves_mkdir {X : Type} (f : State -> X) (dir : string) :
  (forall l s, f (set_log l s) = f s) ->
  (forall d s, f (set_dirs d s) = f s) ->
  preserves f (mkdir dir).
Proof.
  intros Hlog Hdirs env st out st' Hrun. unfold mkdir in Hrun.
  destruct (mkdir_parents_run (path_lineage dir) env st) as (o & new & D & Hm & _).
  rewrite Hm in Hrun. injection Hrun as _ <-. now rewrite Hdirs, Hlog.
Qed.

(** One step of a frame proof; a [modify] leaf is closed when the
    component is not the one it sets. *)
Ltac preserves_step :=
  lazymatch goal with
  | |- preserves _ (bind _ _) => apply preserves_bind; [|intros ?]
  | |- preserves _ (ret _) => apply preserves_ret
  | |- preserves _ (raise _) => apply preserves_raise
  | |- preserves _ (sys_exit _) => apply preserves_sys_exit
  | |- preserves _ (ask _) => apply preserves_ask
  | |- preserves _ (get _) => apply preserves_get
  | |- preserves _ (lift_py _) => apply preserves_lift_py
  | |- preserves _ (log _) => unfold log
  | |- preserves _ (print _) => unfold print, log
  | |- preserves _ (press_enter_to_exit _) => unfold press_enter_to_exit
  | |- preserves _ (path_exists _) => unfold path_exists
  | |- preserves _ (mkdir _) => apply preserves_mkdir; intros; reflexivity
  | |- preserves _ (modify _) => apply preserves_modify; intros ?; reflexivity
  | |- preserves _ (try_except _ _) => apply preserves_try_except; [|intros ?]
  | |- preserves _ (try_except_import _ _) => apply preserves_try_except_import
  | |- preserves _ (for_each _ _) => apply preserves_for_each; intros ?
  | |- preserves _ (if ?b then _ else _) => destruct b
  | |- preserves _ (match ?x with _ => _ end) => destruct x
  | |- preserves _ (let _ := _ in _) => cbv zeta
  end.

(** ** How a computation moves the state *)

Section Evolves.
Variable R : State -> State -> Prop.
Hypothesis R_refl : forall st, R st st.
Hypothesis R_trans : forall a b c, R a b -> R b c -> R a c.

Lemma evolves_ret {A} (a : A) : evolves R (ret a).
Proof. intros env st out st' [= <- <-]. apply R_refl. Qed.

Lemma evolves_raise {A} (e : exn) : evolves R (@raise A e).
Proof. intros env st out st' [= <- <-]. apply R_refl. Qed.

Lemma evolves_sys_exit {A} (code : Z) : evolves R (@sys_exit A code).
Proof. intros env st out st' [= <- <-]. apply R_refl. Qed.

Lemma evolves_ask {A} (g : Env -> A) : evolves R (ask g).
Proof. intros env st out st' [= <- <-]. apply R_refl. Qed.

Lemma evolves_get {A} (g : State -> A) : evolves R (get g).
Proof. intros env st out st' [= <- <-]. apply R_refl. Qed.

Lemma evolves_modify (g : State -> State) :
  (forall st, R st (g st)) -> evolves R (modify g).
Proof. intros Hg env st out st' [= <- <-]. apply Hg. Qed.

Lemma evolves_lift_py {A} (r : exn + A) : evolves R (lift_py r).
Proof. destruct r; [apply evolves_raise|apply evolves_ret]. Qed.

Lemma evolves_bind {A B} (m : M A) (k : A -> M B) :
  evolves R m -> (forall a, evolves R (k a)) -> evolves R (bind m k).
Proof.
  intros Hm Hk env st out st' Hrun. unfold bind in Hrun.
  destruct (m env st) as [[a|code|e] st1] eqn:Em; pose proof (Hm _ _ _ _ Em) as H1.
  - exact (R_trans _ _ _ H1 (Hk a _ _ _ _ Hrun)).
  - injection Hrun as <- <-. exact H1.
  - injection Hrun as <- <-. exact H1.
Qed.

Lemma evolves_try_except {A} (body : M A) (handler : exn -> M A) :
  evolves R body -> (forall e, evolves R (handler e)) ->
  evolves R (try_except body handler).
Proof.
  intros Hb Hh env st out st' Hrun. unfold try_except in Hrun.
  destruct (body env st) as [[a|code|e] st1] eqn:Eb; pose proof (Hb _ _ _ _ Eb) as H1.
  - injection Hrun as <- <-. exact H1.
  - injection Hrun as <- <-. exact H1.
  - exact (R_trans _ _ _ H1 (Hh e _ _ _ _ Hrun)).
Qed.

Lemma evolves_try_except_import {A} (body handler : M A) :
  evolves R body -> evolves R handler ->
  evolves R (try_except_import body handler).
Proof.
  intros Hb Hh env st out st' Hrun. unfold try_except_import in Hrun.
  destruct (body env st) as [[a|code|e] st1] eqn:Eb; pose proof (Hb _ _ _ _ Eb) as H1.
  - injection Hrun as <- <-. exact H1.
  - injection Hrun as <- <-. exact H1.
  - destruct e; try (injection Hrun as <- <-; exact H1).
    exact (R_trans _ _ _ H1 (Hh _ _ _ _ Hrun)).
Qed.

Lemma evolves_for_each {A} (l : list A) (body : A -> M unit) :
  (forall a, evolves R (body a)) -> evolves R (for_each l body).
Proof.
  intros Hb. induction l as [|a l IH]; cbn [for_each].
  - apply evolves_ret.
  - apply evolves_bind; [apply Hb|intros _; exact IH].
Qed.

End Evolves.

(** Directories are only added, and only from the list. *)
Lemma dirs_grown_refl l st : dirs_grown l st st.
Proof. split; [reflexivity|auto]. Qed.

Lemma dirs_grown_trans l a b c :
  dirs_grown l a b -> dirs_grown l b c -> dirs_grown l a c.
Proof.
  intros [H1 H2] [H3 H4]. split; [set_solver|].
  intros q Hq. destruct (H4 q Hq) as [Hb|?]; [exact (H2 q Hb)|now right].
Qed.

Lemma dirs_grown_mono l l' a b :
  (forall q, In q l -> In q l') -> dirs_grown l a b -> dirs_grown l' a b.
Proof.
  intros Hl [H1 H2]. split; [exact H1|].
  intros q Hq. destruct (H2 q Hq) as [?|?]; [now left|right; auto].
Qed.

Lemma evolves_mkdir dir : evolves (dirs_grown (path_lineage dir)) (mkdir dir).
Proof.
  intros env st out st' Hrun. unfold mkdir in Hrun.
  destruct (mkdir_parents_run (path_lineage dir) env st)
    as (o & new & D & Hm & _ & _ & Hsub & Hin & _).
  rewrite Hm in Hrun. injection Hrun as _ <-. split; [exact Hsub|exact Hin].
Qed.

(** One step of a proof that a computation only adds directories of the
    list; a [modify] leaf is closed when it leaves the directories
    alone. *)
Ltac grows_step :=
  lazymatch goal with
  | |- evolves _ (bind _ _) =>
      apply evolves_bind; [apply dirs_grown_trans| |intros ?]
  | |- evolves _ (ret _) => apply evolves_ret, dirs_grown_refl
  | |- evolves _ (raise _) => apply evolves_raise, dirs_grown_refl
  | |- evolves _ (sys_exit _) => apply evolves_sys_exit, dirs_grown_refl
  | |- evolves _ (ask _) => apply evolves_ask, dirs_grown_refl
  | |- evolves _ (get _) => apply evolves_get, dirs_grown_refl
  | |- evolves _ (lift_py _) => apply evolves_lift_py, dirs_grown_refl
  | |- evolves _ (log _) => unfold log
  | |- evolves _ (print _) => unfold print, log
  | |- evolves _ (press_enter_to_exit _) => unfold press_enter_to_exit
  | |- evolves _ (path_exists _) => unfold path_exists
  | |- evolves _ (mkdir _) => apply evolves_mkdir
  | |- evolves _ (modify _) =>
      apply evolves_modify; intros ?; unfold dirs_grown;
      cbn [st_dirs set_log set_files set_guid set_clock set_urandom set_writes
           set_draws set_polls];
      split; [reflexivity|auto]
  | |- evolves _ (try_except _ _) =>
      apply evolves_try_except; [apply dirs_grown_trans| |intros ?]
  | |- evolves _ (try_except_import _ _) =>
      apply evolves_try_except_import; [apply dirs_grown_trans| |]
  | |- evolves _ (for_each _ _) =>
      apply evolves_for_each;
      [apply dirs_grown_refl|apply dirs_grown_trans|intros ?]
  | |- evolves _ (if ?b then _ else _) => destruct b
  | |- evolves _ (match ?x with _ => _ end) => destruct x
  | |- evolves _ (let _ := _ in _) => cbv zeta
  end.

(** ** How a computation can end *)

Section Aborts.
Variable E : Z -> State -> Prop.
Variable X : exn -> Prop.

Lemma aborts_ret {A} (a : A) : aborts E X (ret a).
Proof. intros env st out st' [= <- <-]. exact I. Qed.

Lemma aborts_raise {A} (e : exn) : X e -> aborts E X (@raise A e).
Proof. intros He env st out st' [= <- <-]. exact He. Qed.

Lemma aborts_ask {A} (g : Env -> A) : aborts E X (ask g).
Proof. intros env st out st' [= <- <-]. exact I. Qed.

Lemma aborts_get {A} (g : State -> A) : aborts E X (get g).
Proof. intros env st out st' [= <- <-]. exact I. Qed.

Lemma aborts_modify (g : State -> State) : aborts E X (modify g).
Proof. intros env st out st' [= <- <-]. exact I. Qed.

Lemma aborts_log (e : event) : aborts E X (log e).
Proof. apply aborts_modify. Qed.

Lemma aborts_lift_py {A} (r : exn + A) :
  match r with inl e => X e | inr _ => True end -> aborts E X (lift_py r).
Proof. destruct r; intros Hr; [now apply aborts_raise|apply aborts_ret]. Qed.

Lemma aborts_bind {A B} (m : M A) (k : A -> M B) :
  aborts E X m -> (forall a, aborts E X (k a)) -> aborts E X (bind m k).
Proof.
  intros Hm Hk env st out st' Hrun. unfold bind in Hrun.
  destruct (m env st) as [[a|code|e] st1] eqn:Em; pose proof (Hm _ _ _ _ Em) as H1.
  - exact (Hk a _ _ _ _ Hrun).
  - injection Hrun as <- <-. exact H1.
  - injection Hrun as <- <-. exact H1.
Qed.

Lemma aborts_for_each {A} (l : list A) (body : A -> M unit) :
  (forall a, aborts E X (body a)) -> aborts E X (for_each l body).
Proof.
  intros Hb. induction l as [|a l IH]; cbn [for_each].
  - apply aborts_ret.
  - apply aborts_bind; [apply Hb|intros _; exact IH].
Qed.

End Aborts.

(** An [except Exception] absorbs whatever its body raises. *)
Lemma aborts_try_except {A} E X (body : M A) (handler : exn -> M A) :
  aborts E any_exn body -> (forall e, aborts E X (handler e)) ->
  aborts E X (try_except body handler).
Proof.
  intros Hb Hh env st out st' Hrun. unfold try_except in Hrun.
  destruct (body env st) as [[a|code|e] st1] eqn:Eb; pose proof (Hb _ _ _ _ Eb) as H1.
  - injection Hrun as <- <-. exact I.
  - injection Hrun as <- <-. exact H1.
  - exact (Hh e _ _ _ _ Hrun).
Qed.

(** An [except ImportError] absorbs that one. *)
Lemma aborts_try_except_import {A} E X (body handler : M A) :
  aborts E (fun e => e = ImportError \/ X e) body -> aborts E X handler ->
  aborts E X (try_except_import body handler).
Proof.
  intros Hb Hh env st out st' Hrun. unfold try_except_import in Hrun.
  destruct (body env st) as [[a|code|e] st1] eqn:Eb; pose proof (Hb _ _ _ _ Eb) as H1.
  - injection Hrun as <- <-. exact I.
  - injection Hrun as <- <-. exact H1.
  - destruct e; try (injection Hrun as <- <-; cbn in H1 |- *;
                     destruct H1 as [H1|H1]; [discriminate H1|exact H1]).
    exact (Hh _ _ _ _ Hrun).
Qed.

(** [Path.mkdir] returns or raises [OSError]. *)
Lemma aborts_mkdir E (X : exn -> Prop) (dir : string) :
  X OSError -> aborts E X (mkdir dir).
Proof.
  intros HX env st out st' Hrun. unfold mkdir in Hrun.
  destruct (mkdir_parents_run (path_lineage dir) env st) as (o & new & D & Hm & Ho & _).
  rewrite Hm in Hrun. injection Hrun as <- _. destruct Ho as [-> | ->]; [exact I|exact HX].
Qed.

Lemma aborts_press_enter_to_exit {A} X (code : Z) :
  code = 0%Z \/ code = 1%Z -> aborts prompted X (@press_enter_to_exit A code).
Proof.
  intros Hc env st out st' [= <- <-]. split; [exact Hc|]. cbn. eauto.
Qed.

Ltac aborts_step :=
  lazymatch goal with
  | |- aborts _ _ (bind _ _) => apply aborts_bind; [|intros ?]
  | |- aborts _ _ (ret _) => apply aborts_ret
  | |- aborts _ _ (ask _) => apply aborts_ask
  | |- aborts _ _ (get _) => apply aborts_get
  | |- aborts _ _ (log _) => apply aborts_log
  | |- aborts _ _ (print _) => apply aborts_log
  | |- aborts _ _ (modify _) => apply aborts_modify
  | |- aborts _ _ (path_exists _) => apply aborts_get
  | |- aborts _ _ (mkdir _) =>
      apply aborts_mkdir;
      first [exact I | reflexivity | (right; reflexivity) | (left; reflexivity) | auto]
  | |- aborts _ _ (raise _) => apply aborts_raise; first [exact I | reflexivity | (right; reflexivity) | (left; reflexivity) | auto]
  | |- aborts prompted _ (press_enter_to_exit _) =>
      apply aborts_press_enter_to_exit; first [left; reflexivity | right; reflexivity]
  | |- aborts _ _ (try_except _ _) => apply aborts_try_except; [|intros ?]
  | |- aborts _ _ (try_except_import _ _) => apply aborts_try_except_import
  | |- aborts _ _ (for_each _ _) => apply aborts_for_each; intros ?
  | |- aborts _ _ (if ?b then _ else _) => destruct b
  | |- aborts _ _ (match ?x with _ => _ end) => destruct x
  | |- aborts _ _ (let _ := _ in _) => cbv zeta
  end.

(** ** Identifier generator, continued *)

Lemma random_choices_spec (population : string) (k : nat) (g : Rng) :
  random_choices population k g =
  (map (fun i => nth (rng_tape g (i + rng_pos g) mod length (chars population))
                     (chars population) "0"%char)
       (seq 0 k),
   mkRng (rng_tape g) (k + rng_pos g)).
Proof.
  revert g. induction k as [|k IH]; intros g.
  - destruct g; reflexivity.
  - cbn [random_choices]. unfold random_choice.
    rewrite IH. cbn [rng_tape rng_pos seq map Nat.add]. f_equal.
    + f_equal. rewrite <- seq_shift, map_map.
      apply map_ext. intros i.
      now replace (i + S (rng_pos g)) with (S i + rng_pos g) by lia.
    + f_equal. lia.
Qed.

(** X1: [get_random_hex(length)] returns exactly [length] characters, each a
    lowercase letter or a digit, the [i]-th chosen by the [i]-th draw
    from the 36-character alphabet, and takes exactly [length] draws. *)
Theorem get_random_hex_spec (len : nat) (g : Rng) :
  let s := chars (fst (get_random_hex len g)) in
  length s = len /\
  Forall (fun c => c ∈ chars (ascii_lowercase +:+ digits)) s /\
  (forall i, i < len ->
     s !! i = Some (nth (rng_tape g (i + rng_pos g) mod 36)
                        (chars (ascii_lowercase +:+ digits)) "0"%char)) /\
  NoDup (chars (ascii_lowercase +:+ digits)) /\
  rng_pos (snd (get_random_hex len g)) = len + rng_pos g.
Proof.
  cbv zeta. unfold get_random_hex.
  rewrite random_choices_spec. cbn [fst snd rng_pos].
  rewrite chars_join.
  change (length (chars (ascii_lowercase +:+ digits))) with 36.
  split; [now rewrite length_map, length_seq|].
  split.
  { apply Forall_forall. intros c Hc.
    apply list_elem_of_In, in_map_iff in Hc as (i & <- & _).
    apply list_elem_of_In, nth_In.
    change (length (chars (ascii_lowercase +:+ digits))) with 36.
    apply Nat.mod_upper_bound. lia. }
  split.
  { intros i Hi.
    change (map ?f ?l) with (f <$> l).
    rewrite list_lookup_fmap, lookup_seq_lt by exact Hi. reflexivity. }
  split; [apply (bool_decide_unpack _); vm_compute; exact I|reflexivity].
Qed.

(** The bits of a [uuid4]: the raw bits, then the variant mask and bits,
    then the version mask and bits. *)
Lemma uuid4_testbit (entropy k : Z) :
  (0 <= k)%Z ->
  Z.testbit (uuid4 entropy) k =
  (Z.testbit (entropy mod 2 ^ 128) k && negb (Z.testbit (Z.shiftl 0xc000 48) k)
   || Z.testbit (Z.shiftl 0x8000 48) k)
  && negb (Z.testbit (Z.shiftl 0xf000 64) k)
  || Z.testbit (Z.shiftl 4 76) k.
Proof.
  intros Hk. unfold uuid4. cbv zeta.
  now rewrite Z.lor_spec, Z.land_spec, Z.lor_spec, Z.land_spec, !Z.lnot_spec by exact Hk.
Qed.

(** Bit [i < 4] of the nibble at bit offset [off]. *)
Lemma nibble_testbit (y off i : Z) :
  (0 <= off)%Z -> (0 <= i < 4)%Z ->
  Z.testbit ((y / 2 ^ off) mod 16) i = Z.testbit y (off + i).
Proof.
  intros Hoff Hi. change 16%Z with (2 ^ 4)%Z.
  rewrite Z.mod_pow2_bits_low by lia.
  rewrite Z.div_pow2_bits by lia. f_equal. lia.
Qed.

(** The version nibble is 4. *)
Lemma uuid4_version (entropy : Z) :
  ((uuid4 entropy / 16 ^ Z.of_nat 19) mod 16 = 4)%Z.
Proof.
  change (16 ^ Z.of_nat 19)%Z with (2 ^ 76)%Z.
  set (v := ((uuid4 entropy / 2 ^ 76) mod 16)%Z).
  assert (H0 : Z.testbit v 0 = false).
  { subst v. rewrite nibble_testbit, uuid4_testbit by lia.
    generalize (Z.testbit (entropy mod 2 ^ 128) (76 + 0)). intros b.
    vm_compute. now destruct b. }
  assert (H1 : Z.testbit v 1 = false).
  { subst v. rewrite nibble_testbit, uuid4_testbit by lia.
    generalize (Z.testbit (entropy mod 2 ^ 128) (76 + 1)). intros b.
    vm_compute. now destruct b. }
  assert (H2 : Z.testbit v 2 = true).
  { subst v. rewrite nibble_testbit, uuid4_testbit by lia.
    generalize (Z.testbit (entropy mod 2 ^ 128) (76 + 2)). intros b.
    vm_compute. now destruct b. }
  assert (H3 : Z.testbit v 3 = false).
  { subst v. rewrite nibble_testbit, uuid4_testbit by lia.
    generalize (Z.testbit (entropy mod 2 ^ 128) (76 + 3)). intros b.
    vm_compute. now destruct b. }
  assert (Hv : (0 <= v < 16)%Z) by (subst v; apply Z.mod_pos_bound; lia).
  clearbody v.
  assert (Hcases : (v = 0 \/ v = 1 \/ v = 2 \/ v = 3 \/ v = 4 \/ v = 5 \/ v = 6 \/ v = 7 \/
                    v = 8 \/ v = 9 \/ v = 10 \/ v = 11 \/ v = 12 \/ v = 13 \/ v = 14 \/
                    v = 15)%Z) by lia.
  repeat (destruct Hcases as [->|Hcases]; [first [reflexivity | discriminate]|]).
  subst v. discriminate.
Qed.

(** The variant nibble is 8, 9, 10 or 11. *)
Lemma uuid4_variant (entropy : Z) :
  let v := ((uuid4 entropy / 16 ^ Z.of_nat 15) mod 16)%Z in
  (v = 8 \/ v = 9 \/ v = 10 \/ v = 11)%Z.
Proof.
  cbv zeta. change (16 ^ Z.of_nat 15)%Z with (2 ^ 60)%Z.
  set (v := ((uuid4 entropy / 2 ^ 60) mod 16)%Z).
  assert (H2 : Z.testbit v 2 = false).
  { subst v. rewrite nibble_testbit, uuid4_testbit by lia.
    generalize (Z.testbit (entropy mod 2 ^ 128) (60 + 2)). intros b.
    vm_compute. now destruct b. }
  assert (H3 : Z.testbit v 3 = true).
  { subst v. rewrite nibble_testbit, uuid4_testbit by lia.
    generalize (Z.testbit (entropy mod 2 ^ 128) (60 + 3)). intros b.
    vm_compute. now destruct b. }
  assert (Hv : (0 <= v < 16)%Z) by (subst v; apply Z.mod_pos_bound; lia).
  clearbody v.
  assert (Hcases : (v = 0 \/ v = 1 \/ v = 2 \/ v = 3 \/ v = 4 \/ v = 5 \/ v = 6 \/ v = 7 \/
                    v = 8 \/ v = 9 \/ v = 10 \/ v = 11 \/ v = 12 \/ v = 13 \/ v = 14 \/
                    v = 15)%Z) by lia.
  repeat (destruct Hcases as [->|Hcases]; [first [discriminate | tauto]|]).
  subst v. discriminate.
Qed.
Lemma uuid_str_chars (y : Z) :
  let h i := hex_digit (Z.to_nat ((y / 16 ^ Z.of_nat i) mod 16)) in
  chars (uuid_str y) =
  [h 31; h 30; h 29; h 28; h 27; h 26; h 25; h 24; "-"%char;
   h 23; h 22; h 21; h 20; "-"%char;
   h 19; h 18; h 17; h 16; "-"%char;
   h 15; h 14; h 13; h 12; "-"%char;
   h 11; h 10; h 9; h 8; h 7; h 6; h 5; h 4; h 3; h 2; h 1; h 0].
Proof.
  cbv [uuid_str uuid_hex join_chars rev seq map app string_of_list_ascii
       substring String.append chars list_ascii_of_string].
  reflexivity.
Qed.

Lemma generate_ids_dev_device_id (g : Rng) (e1 e2 : Z) :
  ids_dev_device_id (fst (generate_ids g e1 e2)) = uuid_str (uuid4 e1).
Proof.
  unfold generate_ids. destruct (new_standard_machine_id g) as [m g1].
  destruct (get_random_hex 32 g1) as [r g2]. reflexivity.
Qed.

(** Settles one position of a [str(uuid4)]: a listed hyphen position, or
    a hex digit that cannot be the hyphen [Hi] says it is. *)
Ltac solve_uuid_position Hi :=
  first
    [ apply (bool_decide_unpack _); vm_compute; exact I
    | exfalso; cbv [lookup list_lookup] in Hi; apply (inj Some) in Hi;
      match type of Hi with
      | hex_digit ?d = _ =>
          let Hh := fresh in
          pose proof (hex_digit_lower d) as Hh; rewrite Hi in Hh; discriminate Hh
      end ].

(** X2: The devDeviceId, [str(uuid.uuid4())], has the canonical textual form
    of a version-4 UUID: 36 characters, hyphens exactly at positions 8,
    13, 18 and 23, lowercase hex digits elsewhere, the version digit [4]
    at position 14 and a variant digit [8], [9], [a] or [b] at position
    19. *)
Theorem dev_device_id_format (g : Rng) (e1 e2 : Z) :
  let s := chars (ids_dev_device_id (fst (generate_ids g e1 e2))) in
  length s = 36 /\
  (forall i : nat, s !! i = Some "-"%char <-> i ∈ hyphen_positions) /\
  (forall (i : nat) (c : ascii),
     s !! i = Some c -> i ∉ hyphen_positions -> is_lower_hex c = true) /\
  s !! 14 = Some "4"%char /\
  exists c, s !! 19 = Some c /\ c ∈ chars variant_alphabet.
Proof.
  cbv zeta. rewrite generate_ids_dev_device_id, uuid_str_chars. cbv zeta.
  split; [reflexivity|]. split; [|split; [|split]].
  - intros i. unfold hyphen_positions. split.
    + intros Hi. do 36 (destruct i as [|i]; [solve_uuid_position Hi|]).
      discriminate Hi.
    + intros Hi. repeat (apply elem_of_cons in Hi as [->|Hi]; [reflexivity|]).
      now apply elem_of_nil in Hi.
  - intros i c Hi Hnot. unfold hyphen_positions in Hnot.
    do 36 (destruct i as [|i];
           [first [ exfalso; apply Hnot; apply (bool_decide_unpack _); vm_compute; exact I
                  | cbv [lookup list_lookup] in Hi; apply (inj Some) in Hi; subst c;
                    apply hex_digit_lower ] |]).
    discriminate Hi.
  - cbv [lookup list_lookup]. f_equal. now rewrite uuid4_version.
  - eexists. split; [reflexivity|].
    destruct (uuid4_variant e1) as [Hv|[Hv|[Hv|Hv]]]; cbv zeta in Hv; rewrite Hv;
      apply (bool_decide_unpack _); vm_compute; exact I.
Qed.

(** ** Process quiescer, continued *)

(** X3: [close_cursor_process] selects exactly the processes whose name
    equals the wanted one up to case, in the order of the process table;
    the selection fails, with [AttributeError], exactly when the table
    holds a process whose name could not be read. *)
Theorem select_matching_spec (process_name : string) (snapshot : list proc) :
  (Forall (fun p => proc_name p <> None) snapshot ->
   select_matching process_name snapshot =
   inr (List.filter (name_matches process_name) snapshot)) /\
  (Exists (fun p => proc_name p = None) snapshot ->
   select_matching process_name snapshot = inl AttributeError) /\
  (forall other, str_lower other = str_lower process_name ->
   select_matching other snapshot = select_matching process_name snapshot).
Proof.
  split; [|split].
  - induction 1 as [|p rest Hp _ IH]; [reflexivity|].
    cbn [select_matching List.filter]. unfold name_matches at 1.
    destruct (proc_name p) as [name|]; [|contradiction]. now rewrite IH.
  - induction 1 as [p rest Hp|p rest _ IH]; cbn [select_matching].
    + now rewrite Hp.
    + destruct (proc_name p); [|reflexivity]. now rewrite IH.
  - intros other Hsame. induction snapshot as [|p rest IH]; [reflexivity|].
    cbn [select_matching]. destruct (proc_name p); [|reflexivity].
    now rewrite IH, Hsame.
Qed.

Lemma select_matching_spec_witness :
  select_matching "Cursor" stubborn =
  inr (List.filter (name_matches "Cursor") stubborn) /\
  select_matching "Cursor" (mkProc 1 None None :: stubborn) = inl AttributeError /\
  select_matching "CURSOR" stubborn = select_matching "Cursor" stubborn.
Proof.
  split; [|split].
  - apply (proj1 (select_matching_spec "Cursor" stubborn)).
    repeat constructor; discriminate.
  - apply (proj1 (proj2 (select_matching_spec "Cursor" (mkProc 1 None None :: stubborn)))).
    now constructor.
  - apply (proj2 (proj2 (select_matching_spec "Cursor" stubborn))). reflexivity.
Defined.

(** With no matching process [close_cursor_process] returns after its
    one enumeration: no signal is sent, nothing is printed, there is no
    wait. *)
Lemma close_cursor_process_nothing_running (name : string) (env : Env) (st : State) :
  select_matching name (env_process_iter env (st_polls st)) = inr [] ->
  close_cursor_process name env st =
  (Val tt,
   set_log (EProcessIter (env_process_iter env (st_polls st)) ::
            ECall FnCloseCursorProcess :: st_log st)
     (set_polls (S (st_polls st)) st)).
Proof.
  intros Hsel. unfold close_cursor_process.
  rewrite (bind_val (log _) _ _ _ tt _ eq_refl).
  rewrite (bind_val _ _ _ _ _ _
             (find_processes_some name env
                (set_log (ECall FnCloseCursorProcess :: st_log st) st) _ Hsel)).
  reflexivity.
Qed.

Lemma close_cursor_process_nothing_running_witness :
  close_cursor_process "cursor" quiet_env (installed_state None) =
  (Val tt,
   set_log (EProcessIter (env_process_iter quiet_env (st_polls (installed_state None))) ::
            ECall FnCloseCursorProcess :: st_log (installed_state None))
     (set_polls (S (st_polls (installed_state None))) (installed_state None))).
Proof.
  apply (close_cursor_process_nothing_running "cursor" quiet_env (installed_state None)).
  reflexivity.
Defined.

(** ** The quiescer as equations *)

Lemma logged_logged (a b : list event) (st : State) :
  logged b (logged a st) = logged (a ++ b) st.
Proof. unfold logged. cbn [st_log set_log]. now rewrite rev_app_distr, app_assoc. Qed.

Lemma log_logged (e : event) env st : log e env st = (Val tt, logged [e] st).
Proof. reflexivity. Qed.

Lemma print_each_run {A} (f : A -> msg) env (l : list A) st :
  for_each l (fun a => print (f a)) env st =
  (Val tt, logged (map (fun a => EPrint (f a)) l) st).
Proof.
  revert st. induction l as [|a l IH]; intros st; cbn [for_each map].
  - unfold logged. cbn [rev app]. now destruct st.
  - rewrite (bind_val (print _) _ _ _ tt _ eq_refl), IH.
    f_equal. unfold logged. cbn [st_log set_log rev]. now rewrite <- app_assoc.
Qed.

Lemma terminate_each_run name env (l : list proc) st :
  for_each l (terminate name) env st =
  (Val tt, logged (concat (map (terminate_events env name) l)) st).
Proof.
  revert st. induction l as [|p l IH]; intros st; cbn [for_each map concat].
  - unfold logged. cbn [rev app]. now destruct st.
  - assert (Hp : terminate name p env st = (Val tt, logged (terminate_events env name p) st)).
    { unfold terminate, terminate_events. run_m.
      destruct (env_terminate_ok env (proc_pid p)); reflexivity. }
    rewrite (bind_val _ _ _ _ _ _ Hp), IH. now rewrite logged_logged.
Qed.

(** One enumeration and selection (lines 124-129 and 146-151). *)
Lemma find_processes_eq name env st :
  find_processes name env st =
  let snap := env_process_iter env (st_polls st) in
  let s1 := set_polls (S (st_polls st)) (logged [EProcessIter snap] st) in
  match select_matching name snap with
  | inl e => (Raised e, s1)
  | inr l => (Val l, s1)
  end.
Proof.
  unfold find_processes, process_iter. run_m.
  destruct (select_matching name (env_process_iter env (st_polls st))); reflexivity.
Qed.

(** One turn of the [while] loop of lines 144-166. *)
Lemma wait_until_closed_unfold fuel name rc env st :
  rc < MAX_RETRIES ->
  wait_until_closed (S fuel) name rc env st =
  let snap := env_process_iter env (st_polls st) in
  let s1 := set_polls (S (st_polls st)) (logged [EProcessIter snap] st) in
  match select_matching name snap with
  | inl e => (Raised e, s1)
  | inr [] => (Val tt, s1)
  | inr (p :: l) =>
      if (MAX_RETRIES <=? rc + 1)%nat then
        (Exited 1,
         logged (EPrint (MsgCannotClose name) ::
                 map (fun p => EPrint (MsgStillRunning p)) (p :: l) ++
                 [EPrint MsgCloseManually; EInput]) s1)
      else
        wait_until_closed fuel name (rc + 1) env
          (logged [EPrint (MsgWaiting (rc + 1)); ESleep WAIT_TIME_SECONDS] s1)
  end.
Proof.
  intros Hrc. cbn [wait_until_closed].
  rewrite (proj2 (Nat.ltb_lt _ _) Hrc). cbv zeta.
  unfold find_processes at 1, process_iter. run_m.
  destruct (select_matching name (env_process_iter env (st_polls st)))
    as [e|[|p l]]; [reflexivity..|].
  destruct (MAX_RETRIES <=? rc + 1)%nat.
  - match goal with
    | |- context [for_each ?l ?body env ?s] =>
        change body with (fun p : proc => print (MsgStillRunning p));
        rewrite (print_each_run MsgStillRunning env l s)
    end.
    unfold logged. simpl_state. cbn [rev app map].
    rewrite !rev_app_distr. cbn [rev app]. rewrite <- !app_assoc. reflexivity.
  - reflexivity.
Qed.

(** [close_cursor_process] from its first enumeration on. *)
Lemma close_cursor_process_unfold name env st :
  close_cursor_process name env st =
  let snap := env_process_iter env (st_polls st) in
  let s1 := set_polls (S (st_polls st))
              (logged [ECall FnCloseCursorProcess; EProcessIter snap] st) in
  match select_matching name snap with
  | inl e => (Raised e, s1)
  | inr [] => (Val tt, s1)
  | inr (p :: l) =>
      let s2 :=
        logged (EPrint (MsgFoundRunning name) ::
                map (fun p => EPrint (MsgProcInfo p)) (p :: l) ++
                EPrint (MsgTryClose name) ::
                concat (map (terminate_events env name) (p :: l))) s1 in
      match wait_until_closed MAX_RETRIES name 0 env s2 with
      | (Val _, s3) => (Val tt, logged [EPrint (MsgClosed name)] s3)
      | (Exited code, s3) => (Exited code, s3)
      | (Raised e, s3) => (Raised e, s3)
      end
  end.
Proof.
  unfold close_cursor_process. cbv zeta.
  rewrite (bind_val (log _) _ _ _ tt _ eq_refl).
  unfold bind at 1. rewrite find_processes_eq. cbv zeta. simpl_state.
  destruct (select_matching name (env_process_iter env (st_polls st)))
    as [e|[|p l]]; [reflexivity..|].
  rewrite (bind_val (print _) _ _ _ tt _ eq_refl).
  rewrite (bind_val _ _ _ _ _ _ (print_each_run MsgProcInfo env (p :: l) _)).
  rewrite (bind_val (print _) _ _ _ tt _ eq_refl).
  rewrite (bind_val _ _ _ _ _ _ (terminate_each_run name env (p :: l) _)).
  unfold bind, print, log, modify.
  match goal with
  | |- match wait_until_closed _ _ _ _ ?a with _ => _ end =
       match wait_until_closed _ _ _ _ ?b with _ => _ end =>
      assert (Hs : a = b)
  end.
  { unfold logged, set_log, set_polls.
    cbn [st_files st_dirs st_guid st_draws st_urandom st_polls st_writes
         st_clock st_log]. f_equal.
    cbn [rev app]. rewrite ?rev_app_distr. cbn [rev app].
    rewrite ?rev_app_distr. cbn [rev app]. rewrite <- ?app_assoc.
    reflexivity. }
  rewrite Hs. destruct (wait_until_closed _ _ _ _ _) as [[[]|c|e] s3]; reflexivity.
Qed.

(** ** What a run of the quiescer does *)

Lemma select_matching_error name snapshot e :
  select_matching name snapshot = inl e -> e = AttributeError.
Proof.
  induction snapshot as [|p rest IH]; cbn [select_matching]; [discriminate|].
  destruct (proc_name p); [|congruence].
  destruct (select_matching name rest); [|discriminate].
  intros [= <-]. now apply IH.
Qed.

Lemma logged_set_polls (n : nat) (b : list event) (st : State) :
  logged b (set_polls n st) = set_polls n (logged b st).
Proof. reflexivity. Qed.

Lemma set_polls_logged_logged (n : nat) (a b : list event) (st : State) :
  logged b (set_polls n (logged a st)) = set_polls n (logged (a ++ b) st).
Proof. rewrite logged_set_polls, logged_logged. reflexivity. Qed.

Lemma set_polls_set_polls (n m : nat) (st : State) :
  set_polls n (set_polls m st) = set_polls n st.
Proof. reflexivity. Qed.

Lemma count_sleeps_app (a b : list event) :
  count_sleeps (a ++ b) = count_sleeps a + count_sleeps b.
Proof. unfold count_sleeps. now rewrite List.filter_app, length_app. Qed.

Lemma count_sleeps_cons (e : event) (l : list event) :
  count_sleeps (e :: l) = (if is_sleep e then 1 else 0) + count_sleeps l.
Proof. unfold count_sleeps. cbn [List.filter]. now destruct (is_sleep e). Qed.

Lemma count_sleeps_prints {A} (f : A -> msg) (l : list A) :
  count_sleeps (map (fun a => EPrint (f a)) l) = 0.
Proof. induction l; [reflexivity|]. exact IHl. Qed.

Lemma not_terminate_prints {A} (f : A -> msg) (l : list A) :
  forallb not_terminate (map (fun a => EPrint (f a)) l) = true.
Proof. induction l; [reflexivity|]. exact IHl. Qed.

Lemma terminated_prints {A} (f : A -> msg) (l : list A) :
  omap terminated_pid (map (fun a => EPrint (f a)) l) = [].
Proof. induction l; [reflexivity|]. exact IHl. Qed.

Lemma terminated_none (l : list event) :
  forallb not_terminate l = true -> omap terminated_pid l = [].
Proof.
  induction l as [|e l IH]; [reflexivity|]. cbn [forallb].
  intros [He Hl]%andb_prop. destruct e; try discriminate; cbn; auto.
Qed.

Lemma terminated_terminate_events env name (l : list proc) :
  omap terminated_pid (concat (map (terminate_events env name) l)) = map proc_pid l.
Proof.
  induction l as [|p l IH]; [reflexivity|].
  cbn [map concat]. unfold terminate_events at 1.
  destruct (env_terminate_ok env (proc_pid p)); cbn; now rewrite IH.
Qed.

Lemma count_sleeps_terminate_events env name (l : list proc) :
  count_sleeps (concat (map (terminate_events env name) l)) = 0.
Proof.
  induction l as [|p l IH]; [reflexivity|].
  cbn [map concat]. rewrite count_sleeps_app, IH. unfold terminate_events.
  destruct (env_terminate_ok env (proc_pid p)); reflexivity.
Qed.

(** The waiting loop, entered with [rc] retries used: what it logs and
    how it ends. *)
Lemma wait_until_closed_run name env fuel :
  forall rc st, rc < MAX_RETRIES ->
  exists new,
    snd (wait_until_closed fuel name rc env st) =
      set_polls (st_polls (snd (wait_until_closed fuel name rc env st)))
                (logged new st) /\
    forallb not_terminate new = true /\
    count_sleeps new + rc + 1 <= MAX_RETRIES /\
    st_polls st <= st_polls (snd (wait_until_closed fuel name rc env st))
      <= st_polls st + (MAX_RETRIES - rc) /\
    match fst (wait_until_closed fuel name rc env st) with
    | Val _ => True
    | Exited code => code = 1%Z /\ exists pre, new = pre ++ [EInput]
    | Raised e => e = AttributeError
    end.
Proof.
  pose proof (eq_refl : MAX_RETRIES = 5) as HM.
  induction fuel as [|fuel IH]; intros rc st Hrc.
  - exists []. cbn [wait_until_closed ret fst snd].
    repeat split; try (cbn; lia). now destruct st.
  - rewrite (wait_until_closed_unfold fuel name rc env st Hrc). cbv zeta.
    destruct (select_matching name (env_process_iter env (st_polls st)))
      as [e|[|p l]] eqn:Hsel.
    + exists [EProcessIter (env_process_iter env (st_polls st))].
      cbn [fst snd]. repeat split; try reflexivity; try (cbn; lia).
      now apply select_matching_error in Hsel.
    + exists [EProcessIter (env_process_iter env (st_polls st))].
      cbn [fst snd]. repeat split; try reflexivity; cbn; lia.
    + destruct (MAX_RETRIES <=? rc + 1)%nat eqn:Hmax.
      * eexists. cbn [fst snd]. rewrite set_polls_logged_logged.
        split; [reflexivity|].
        split; [cbn [app forallb not_terminate andb];
                rewrite forallb_app, (not_terminate_prints MsgStillRunning);
                reflexivity|].
        split; [|split; [cbn; lia|]].
        -- repeat (rewrite count_sleeps_app || rewrite count_sleeps_cons).
           rewrite (count_sleeps_prints MsgStillRunning). cbn. lia.
        -- split; [reflexivity|].
           exists (EProcessIter (env_process_iter env (st_polls st)) ::
                   EPrint (MsgCannotClose name) ::
                   map (fun p => EPrint (MsgStillRunning p)) (p :: l) ++
                   [EPrint MsgCloseManually]).
           cbn [app]. rewrite <- app_assoc. reflexivity.
      * apply Nat.leb_gt in Hmax.
        destruct (IH (rc + 1)
                    (logged [EPrint (MsgWaiting (rc + 1)); ESleep WAIT_TIME_SECONDS]
                       (set_polls (S (st_polls st))
                          (logged [EProcessIter (env_process_iter env (st_polls st))] st)))
                    Hmax)
          as (new & Hst & Hnt & Hsl & Hpolls & Hout).
        rewrite set_polls_logged_logged in Hst, Hpolls, Hout |- *.
        set (r := wait_until_closed fuel name (rc + 1) env _) in *.
        exists ([EProcessIter (env_process_iter env (st_polls st));
                 EPrint (MsgWaiting (rc + 1)); ESleep WAIT_TIME_SECONDS] ++ new).
        split; [|split; [|split; [|split]]].
        -- rewrite Hst at 1. rewrite logged_set_polls, logged_logged.
           reflexivity.
        -- rewrite forallb_app, Hnt. reflexivity.
        -- rewrite count_sleeps_app. change (count_sleeps [_; _; _]) with 1. lia.
        -- cbn [st_polls set_polls logged set_log] in Hpolls. lia.
        -- destruct (fst r); auto.
           destruct Hout as [-> [pre ->]]. split; [reflexivity|].
           eexists. rewrite app_assoc. reflexivity.
Qed.

Ltac state_eq :=
  unfold logged, set_polls, set_log;
  cbn [st_files st_dirs st_guid st_draws st_urandom st_polls st_writes
       st_clock st_log];
  f_equal; rewrite ?rev_app_distr; cbn [rev app]; rewrite <- ?app_assoc;
  reflexivity.

Lemma terminated_cons_other (e : event) (l : list event) :
  not_terminate e = true -> omap terminated_pid (e :: l) = omap terminated_pid l.
Proof. now destruct e. Qed.

Lemma close_cursor_process_run name env st :
  exists new,
    snd (close_cursor_process name env st) =
      set_polls (st_polls (snd (close_cursor_process name env st)))
                (logged new st) /\
    omap terminated_pid new =
      match select_matching name (env_process_iter env (st_polls st)) with
      | inr l => map proc_pid l
      | inl _ => []
      end /\
    count_sleeps new + 1 <= MAX_RETRIES /\
    st_polls st < st_polls (snd (close_cursor_process name env st))
      <= st_polls st + 1 + MAX_RETRIES /\
    match fst (close_cursor_process name env st) with
    | Val _ => True
    | Exited code => code = 1%Z /\ exists pre, new = pre ++ [EInput]
    | Raised e => e = AttributeError
    end.
Proof.
  pose proof (eq_refl : MAX_RETRIES = 5) as HM.
  rewrite close_cursor_process_unfold. cbv zeta.
  destruct (select_matching name (env_process_iter env (st_polls st)))
    as [e|[|p l]] eqn:Hsel.
  - eexists. cbn [fst snd]. split; [reflexivity|].
    repeat split; try reflexivity; try (cbn; lia).
    now apply select_matching_error in Hsel.
  - eexists. cbn [fst snd]. split; [reflexivity|].
    repeat split; try reflexivity; cbn; lia.
  - rewrite set_polls_logged_logged.
    match goal with
    | |- context [wait_until_closed _ _ _ _ (set_polls ?n (logged ?a st))] =>
        set (first := a)
    end.
    destruct (wait_until_closed_run name env MAX_RETRIES 0
                (set_polls (S (st_polls st)) (logged first st)) ltac:(lia))
      as (new & Hst & Hnt & Hsl & Hpolls & Hout).
    assert (Hfirst : omap terminated_pid first = map proc_pid (p :: l)).
    { subst first.
      repeat (rewrite omap_app || rewrite terminated_cons_other by reflexivity).
      rewrite (terminated_prints MsgProcInfo). cbn [app].
      apply terminated_terminate_events. }
    assert (Hcount : count_sleeps first = 0).
    { subst first.
      repeat (rewrite count_sleeps_app || rewrite count_sleeps_cons).
      rewrite (count_sleeps_prints MsgProcInfo), count_sleeps_terminate_events.
      reflexivity. }
    clearbody first.
    destruct (wait_until_closed MAX_RETRIES name 0 env _) as [[[]|c|e] s3].
    + exists (first ++ new ++ [EPrint (MsgClosed name)]).
      cbn [fst snd] in *. split; [|split; [|split; [|split]]]; trivial.
      * rewrite Hst at 1. state_eq.
      * rewrite !omap_app, Hfirst, (terminated_none _ Hnt). cbn. now rewrite app_nil_r.
      * rewrite !count_sleeps_app, Hcount. cbn. lia.
      * cbn [st_polls set_polls logged set_log] in *. lia.
    + exists (first ++ new).
      cbn [fst snd] in *. split; [|split; [|split; [|split]]].
      * rewrite Hst at 1. state_eq.
      * rewrite !omap_app, Hfirst, (terminated_none _ Hnt). now rewrite app_nil_r.
      * rewrite !count_sleeps_app, Hcount. lia.
      * cbn [st_polls set_polls logged set_log] in *. lia.
      * destruct Hout as [-> [pre ->]]. split; [reflexivity|].
        exists (first ++ pre). now rewrite app_assoc.
    + exists (first ++ new).
      cbn [fst snd] in *. split; [|split; [|split; [|split]]]; trivial.
      * rewrite Hst at 1. state_eq.
      * rewrite !omap_app, Hfirst, (terminated_none _ Hnt). now rewrite app_nil_r.
      * rewrite !count_sleeps_app, Hcount. lia.
      * cbn [st_polls set_polls logged set_log] in *. lia.
Qed.



Lemma emits_sleeps_wait_until_closed fuel name rc :
  emits sleeps_one_wait (wait_until_closed fuel name rc).
Proof.
  revert rc. induction fuel as [|fuel IH]; intros rc; cbn [wait_until_closed].
  - apply emits_ret.
  - destruct (rc <? MAX_RETRIES)%nat; [|apply emits_ret].
    apply emits_bind; [now apply emits_find_processes|intros still].
    destruct still as [|pr still]; [apply emits_ret|].
    cbv zeta. repeat (first [apply IH | emits_step]).
Qed.

Lemma emits_sleeps_close_cursor_process name :
  emits sleeps_one_wait (close_cursor_process name).
Proof.
  unfold close_cursor_process.
  repeat (first [ apply emits_sleeps_wait_until_closed
                | apply emits_find_processes; reflexivity
                | apply emits_terminate; reflexivity
                | emits_step ]).
Qed.

(** X4: However the call ends, [terminate()] has been sent once to each
    process that the first enumeration matched, in the order of the
    process table, and to no other process: the waiting loop sends no
    signal, and a failed selection sends none at all.  ([new] is what
    the call logged, oldest first.) *)
Theorem close_cursor_process_signals (name : string) (env : Env) (st : State) :
  exists new,
    st_log (snd (close_cursor_process name env st)) = rev new ++ st_log st /\
    omap terminated_pid new =
      match select_matching name (env_process_iter env (st_polls st)) with
      | inr matched => map proc_pid matched
      | inl _ => []
      end.
Proof.
  destruct (close_cursor_process_run name env st) as (new & Hst & Hsig & _).
  exists new. split; [|exact Hsig]. now rewrite Hst.
Qed.

(** X5: One call enumerates the process table at least once and at most
    [1 + MAX_RETRIES] = 6 times, and sleeps fewer than [MAX_RETRIES]
    times (at most 4 waits of one second): it cannot wait forever. *)
Theorem close_cursor_process_bounded (name : string) (env : Env) (st : State) :
  let st' := snd (close_cursor_process name env st) in
  exists new,
    st_log st' = rev new ++ st_log st /\
    count_sleeps new < MAX_RETRIES /\
    forallb sleeps_one_wait new = true /\
    st_polls st < st_polls st' <= st_polls st + 1 + MAX_RETRIES.
Proof.
  cbv zeta.
  destruct (close_cursor_process_run name env st) as (new & Hst & _ & Hsl & Hpolls & _).
  exists new. split; [now rewrite Hst|]. split; [lia|]. split; [|exact Hpolls].
  destruct (emits_sleeps_close_cursor_process name env st _ _ (surjective_pairing _))
    as (n & Hn & Hall).
  rewrite Hst in Hn at 1. cbn [st_log set_polls logged set_log] in Hn.
  apply app_inv_tail in Hn. subst n.
  rewrite forallb_forall in Hall |- *.
  intros e He. apply Hall. now apply in_rev in He.
Qed.

(** X6: The quiescer touches nothing but the log and the enumeration
    counter: files, directories, the registry value, the random sources
    and the clock are as before, however the call ends. *)
Theorem close_cursor_process_frame (name : string) (env : Env) (st : State) :
  let st' := snd (close_cursor_process name env st) in
  st_files st' = st_files st /\ st_dirs st' = st_dirs st /\
  st_guid st' = st_guid st /\ st_draws st' = st_draws st /\
  st_urandom st' = st_urandom st /\ st_writes st' = st_writes st /\
  st_clock st' = st_clock st.
Proof.
  cbv zeta.
  destruct (close_cursor_process_run name env st) as (new & Hst & _).
  rewrite Hst. repeat split.
Qed.


(** ** The registry mutator in full *)

Lemma preserves_backup_registry_guid backup_dir :
  preserves st_guid (backup_registry backup_dir).
Proof.
  unfold backup_registry, now_stamp, reg_export.
  repeat preserves_step.
Qed.

(** Lines 222-238 when [SetValueEx] works and the value can be read
    back: no restore, whatever the value read. *)
Lemma set_and_verify_readback (original_guid bfp new_guid v : string)
  (env : Env) (st : State) :
  env_reg_set_ok env = true ->
  env_reg_readback env new_guid = Some v ->
  set_and_verify original_guid bfp new_guid env st =
  (Val (String.eqb v new_guid),
   set_log (EPrint (if String.eqb v new_guid then MsgRegVerified new_guid
                    else MsgRegVerifyFailed v new_guid) ::
            ERegQuery (Some v) :: EPrint (MsgRegSet new_guid) ::
            ERegSet new_guid true :: st_log st)
     (set_guid (Some new_guid) st)).
Proof.
  intros Hset Hread. unfold set_and_verify, reg_set, reg_readback. run_m.
  rewrite Hset. simpl_state. rewrite Hread. simpl_state.
  destruct (String.eqb v new_guid); reflexivity.
Qed.

(** Lines 222-250 when the verifying query raises. *)
Lemma set_and_verify_readback_raises (original_guid bfp new_guid : string)
  (env : Env) (st : State) :
  env_reg_set_ok env = true ->
  env_reg_readback env new_guid = None ->
  exists st2, set_and_verify original_guid bfp new_guid env st = (Val false, st2).
Proof.
  intros Hset Hread. unfold set_and_verify, reg_set, reg_readback. run_m.
  rewrite Hset. simpl_state. rewrite Hread. simpl_state.
  match goal with
  | |- context [restore_from_backup _ _ _ ?st1] =>
      destruct (restore_from_backup_run original_guid bfp env st1)
        as (st2 & new & Hrun & _)
  end.
  rewrite Hrun. eauto.
Qed.

Lemma set_and_verify_result (original_guid bfp new_guid : string)
  (env : Env) (st : State) :
  exists st2,
    set_and_verify original_guid bfp new_guid env st =
    (Val (env_reg_set_ok env &&
          bool_decide (env_reg_readback env new_guid = Some new_guid)), st2) /\
    (env_reg_set_ok env &&
     bool_decide (env_reg_readback env new_guid = Some new_guid) = true ->
     st_guid st2 = Some new_guid).
Proof.
  destruct (env_reg_set_ok env) eqn:Hset.
  - destruct (env_reg_readback env new_guid) as [v|] eqn:Hread.
    + rewrite (set_and_verify_readback _ _ _ v _ _ Hset Hread).
      assert (Hb : String.eqb v new_guid =
                   true && bool_decide (Some v = Some new_guid)).
      { destruct (String.eqb_spec v new_guid) as [->|Hne].
        - now rewrite bool_decide_eq_true_2.
        - rewrite bool_decide_eq_false_2; [reflexivity|congruence]. }
      rewrite Hb. eexists. split; [reflexivity|]. intros _. reflexivity.
    + destruct (set_and_verify_readback_raises original_guid bfp new_guid env st
                  Hset Hread) as (st2 & Hrun).
      exists st2. rewrite Hrun. split; [reflexivity|]. discriminate.
  - destruct (set_and_verify_set_fails original_guid bfp new_guid env st Hset)
      as (st2 & new & Hrun & _).
    exists st2. rewrite Hrun. split; [reflexivity|]. discriminate.
Qed.

(** Lines 170-221 on Windows with the key open: everything up to the
    [try] that sets the value. *)
Lemma update_machine_guid_prefix (backup_dir : string) (env : Env) (st : State) :
  env_win32 env = true ->
  env_winreg env = true ->
  env_reg_open_ok env = true ->
  exists s1 new1,
    st_log s1 = new1 ++ st_log st /\
    restore_attempted new1 = false /\
    st_guid s1 = st_guid st /\
    (env_reg_export_ok env = true ->
     st_files s1 !! reg_backup_path backup_dir env st =
     Some (reg_file_of (st_guid st))) /\
    forall b s2,
      set_and_verify (original_guid_of env st) (reg_backup_path backup_dir env st)
        (reg_new_guid env st) env s1 = (Val b, s2) ->
      update_machine_guid backup_dir env st = (Val b, s2).
Proof.
  intros Hwin Hreg Hopen.
  unfold update_machine_guid, import_winreg, reg_open, new_uuid4. run_m.
  repeat (simpl_state; first [rewrite Hwin | rewrite Hreg | rewrite Hopen]).
  simpl_state.
  match goal with
  | |- context [read_original_guid env ?s] =>
      destruct (read_original_guid_run env s) as (new0 & Hrun0 & Hatt0 & Hback0);
      change (original_guid_of env s) with (original_guid_of env st) in Hrun0;
      simpl_state_in Hrun0
  end.
  rewrite Hrun0.
  match goal with
  | |- context [backup_registry backup_dir env ?s] =>
      destruct (backup_registry_run backup_dir env s)
        as (st1 & new1 & Hrun1 & Hlog1 & Hatt1 & _ & Hfiles1 & _ & Hur1);
      pose proof (preserves_backup_registry_guid backup_dir _ _ _ _ Hrun1) as Hguid1
  end.
  change (reg_backup_path backup_dir env _) with (reg_backup_path backup_dir env st) in *.
  simpl_state_in Hlog1. simpl_state_in Hur1. simpl_state_in Hguid1.
  simpl_state_in Hfiles1.
  rewrite Hrun1. rewrite Hur1.
  eexists _, (new1 ++ new0 ++
              [ERegOpen true; EPrint MsgUpdatingGuid; ECall FnUpdateMachineGuid]).
  split; [|split; [|split; [|split]]].
  5:{ intros b s2 Hrun2. unfold reg_new_guid. rewrite Hrun2. reflexivity. }
  - simpl_state. rewrite Hlog1. cbn [app]. now rewrite <- !app_assoc.
  - unfold restore_attempted in *. rewrite !existsb_app, Hatt1, Hatt0. reflexivity.
  - simpl_state. exact Hguid1.
  - intros Hexp. simpl_state. rewrite Hfiles1, Hexp. apply lookup_insert_eq.
Qed.

Lemma update_machine_guid_skips (backup_dir : string) (env : Env) (st : State) :
  env_win32 env && env_winreg env && env_reg_open_ok env = false ->
  exists new,
    update_machine_guid backup_dir env st = (Val false, set_log (new ++ st_log st) st) /\
    forallb (fun e => negb (is_change e)) new = true.
Proof.
  intros Hskip. unfold update_machine_guid, import_winreg, reg_open. run_m.
  destruct (env_win32 env); simpl_state;
    [destruct (env_winreg env); simpl_state;
     [destruct (env_reg_open_ok env); [discriminate|simpl_state]|]|];
    (eexists; split;
     [unfold set_log;
      cbn [st_files st_dirs st_guid st_draws st_urandom st_polls st_writes
           st_clock st_log];
      do 2 f_equal; log_suffix|reflexivity]).
Qed.

Lemma update_machine_guid_returns (backup_dir : string) (env : Env) (st : State) :
  exists b, fst (update_machine_guid backup_dir env st) = Val b.
Proof.
  destruct (env_win32 env && env_winreg env && env_reg_open_ok env) eqn:Hgo.
  - apply andb_prop in Hgo as [[Hwin Hreg]%andb_prop Hopen].
    destruct (update_machine_guid_prefix backup_dir env st Hwin Hreg Hopen)
      as (s1 & new1 & _ & _ & _ & _ & Hrun).
    destruct (set_and_verify_result (original_guid_of env st)
                (reg_backup_path backup_dir env st) (reg_new_guid env st) env s1)
      as (s2 & Hrun2 & _).
    rewrite (Hrun _ _ Hrun2). eauto.
  - destruct (update_machine_guid_skips backup_dir env st Hgo) as (new & Hrun & _).
    rewrite Hrun. eauto.
Qed.

(** X8: [update_machine_guid] always returns: no exception leaves it and it
    never exits.  It returns [True] exactly when the platform is
    Windows, [winreg] can be imported, the key can be opened,
    [SetValueEx] works, and the value read back is the new GUID; the
    registry then holds that GUID.  Failures of the query, of the backup
    directory or of the export do not change the result. *)
Theorem update_machine_guid_result (backup_dir : string) (env : Env) (st : State) :
  let r := update_machine_guid backup_dir env st in
  fst r = Val (guid_update_succeeds env st) /\
  (guid_update_succeeds env st = true ->
   st_guid (snd r) = Some (reg_new_guid env st)).
Proof.
  cbv zeta. unfold guid_update_succeeds.
  destruct (env_win32 env && env_winreg env && env_reg_open_ok env) eqn:Hgo.
  - apply andb_prop in Hgo as [[Hwin Hreg]%andb_prop Hopen].
    destruct (update_machine_guid_prefix backup_dir env st Hwin Hreg Hopen)
      as (s1 & new1 & _ & _ & _ & _ & Hrun).
    destruct (set_and_verify_result (original_guid_of env st)
                (reg_backup_path backup_dir env st) (reg_new_guid env st) env s1)
      as (s2 & Hrun2 & Hguid2).
    rewrite (Hrun _ _ Hrun2). cbn [fst snd andb]. split; [reflexivity|exact Hguid2].
  - destruct (update_machine_guid_skips backup_dir env st Hgo) as (new & Hrun & _).
    rewrite Hrun. cbn [fst snd andb]. split; [reflexivity|discriminate].
Qed.

Lemma update_machine_guid_result_witness :
  let env := with_reg_set true (win_env true true true) in
  let st := installed_state (Some "old-guid") in
  guid_update_succeeds env st = true /\
  st_guid (snd (update_machine_guid "/cfg/backups" env st)) = Some (reg_new_guid env st).
Proof.
  intros env st. split; [reflexivity|].
  apply (proj2 (update_machine_guid_result "/cfg/backups" env st)). reflexivity.
Defined.

(** X9: When the platform is not Windows, or [winreg] cannot be imported, or
    the key cannot be opened, the call returns [False] having changed
    nothing: apart from what it logged the state is the one it started
    in, and it attempted no export, no write of the value, no import and
    created no directory. *)
Theorem update_machine_guid_skipped (backup_dir : string) (env : Env) (st : State) :
  env_win32 env = false \/ env_winreg env = false \/ env_reg_open_ok env = false ->
  exists new,
    update_machine_guid backup_dir env st = (Val false, set_log (new ++ st_log st) st) /\
    forallb (fun e => negb (is_change e)) new = true.
Proof.
  intros Hskip. apply update_machine_guid_skips.
  destruct Hskip as [-> | [-> | ->]]; [reflexivity| |];
    destruct (env_win32 env); try reflexivity;
    destruct (env_winreg env); reflexivity.
Qed.

Lemma update_machine_guid_skipped_witness :
  exists new,
    update_machine_guid "/cfg/backups" quiet_env (installed_state (Some "old-guid")) =
    (Val false,
     set_log (new ++ st_log (installed_state (Some "old-guid")))
       (installed_state (Some "old-guid"))) /\
    forallb (fun e => negb (is_change e)) new = true.
Proof.
  apply (update_machine_guid_skipped "/cfg/backups" quiet_env
           (installed_state (Some "old-guid"))).
  left. reflexivity.
Defined.



Ltac unfold_registry :=
  unfold update_machine_guid, import_winreg, reg_open, read_original_guid,
    reg_query, backup_registry, now_stamp, reg_export, new_uuid4,
    set_and_verify, reg_set, reg_readback, restore_from_backup, reg_import.

Lemma update_machine_guid_preserves_counters backup_dir :
  preserves st_writes (update_machine_guid backup_dir) /\
  preserves st_draws (update_machine_guid backup_dir) /\
  preserves st_polls (update_machine_guid backup_dir).
Proof. repeat split; unfold_registry; repeat preserves_step. Qed.

Lemma update_machine_guid_preserves_file backup_dir p :
  (forall stamp, p <> path_join backup_dir ("MachineGuid_" +:+ stamp +:+ ".reg")) ->
  preserves (fun st => st_files st !! p) (update_machine_guid backup_dir).
Proof.
  intros Hp. unfold_registry.
  repeat first
    [ preserves_step
    | apply preserves_modify; intros ?; cbv beta; cbn [st_files set_files];
      apply lookup_insert_ne; intros Heq; exact (Hp _ (eq_sym Heq)) ].
Qed.

Lemma update_machine_guid_grows backup_dir :
  evolves (dirs_grown (path_lineage backup_dir)) (update_machine_guid backup_dir).
Proof. unfold_registry. repeat grows_step. Qed.

(** X11: The registry step keeps to the registry and to its own backup file:
    every file other than a [MachineGuid_<stamp>.reg] of the backup
    directory is as it was (the config file and its backup among them);
    no directory is removed, and the directories made are the backup
    directory or ancestors of it; no file is written through [open], no
    random character is drawn and the process table is not read. *)
Theorem update_machine_guid_frame (backup_dir : string) (env : Env) (st : State) :
  let st' := snd (update_machine_guid backup_dir env st) in
  (forall p, (forall stamp, p <> path_join backup_dir
                                     ("MachineGuid_" +:+ stamp +:+ ".reg")) ->
             st_files st' !! p = st_files st !! p) /\
  st_dirs st ⊆ st_dirs st' /\
  (forall q, q ∈ st_dirs st' -> q ∈ st_dirs st \/ In q (path_lineage backup_dir)) /\
  st_writes st' = st_writes st /\
  st_draws st' = st_draws st /\
  st_polls st' = st_polls st.
Proof.
  cbv zeta.
  pose proof (surjective_pairing (update_machine_guid backup_dir env st)) as Hrun.
  destruct (update_machine_guid_preserves_counters backup_dir) as (Hw & Hd & Hp).
  destruct (update_machine_guid_grows backup_dir _ _ _ _ Hrun) as [Hsub Hnew].
  split; [|split; [|split; [|split; [|split]]]].
  - intros p Hfar.
    exact (update_machine_guid_preserves_file backup_dir p Hfar _ _ _ _ Hrun).
  - exact Hsub.
  - exact Hnew.
  - exact (Hw _ _ _ _ Hrun).
  - exact (Hd _ _ _ _ Hrun).
  - exact (Hp _ _ _ _ Hrun).
Qed.

(** On a machine where only the configuration directory exists, the
    registry step leaves the config file alone and makes the four
    directories down to the backup directory. *)
Lemma update_machine_guid_frame_witness :
  let env := with_reg_set true (win_env true true true) in
  let st := set_dirs {["/cfg"]} (state_with {[installed_path := sample_config]}
                                   (Some "old-guid")) in
  let st' := snd (update_machine_guid "/cfg/Cursor/User/globalStorage/backups" env st) in
  st_files st' !! installed_path = Some sample_config /\
  "/cfg" ∈ st_dirs st' /\
  forall q, q ∈ st_dirs st' ->
    q ∈ st_dirs st \/
    In q ["/cfg/Cursor/User/globalStorage/backups"; "/cfg/Cursor/User/globalStorage";
          "/cfg/Cursor/User"; "/cfg/Cursor"; "/cfg"].
Proof.
  intros env st st'.
  destruct (update_machine_guid_frame "/cfg/Cursor/User/globalStorage/backups" env st)
    as (Hfiles & Hsub & Hnew & _).
  split; [|split].
  - subst st'. rewrite (Hfiles installed_path).
    + reflexivity.
    + intros stamp Heq. vm_compute in Heq. discriminate Heq.
  - apply Hsub. apply (bool_decide_unpack _). vm_compute. exact I.
  - exact Hnew.
Defined.

(** ** The config mutator in full *)

Section ConfigRuns.
Context `{JsonCodec}.

(** Lines 255-273 when there is no document to work on: the file is
    missing, cannot be read, or does not parse. *)
Lemma update_storage_file_no_document_run (env : Env) (st : State)
  (path : string) (a b c d : string) :
  (forall content, st_files st !! path = Some content ->
                   env_read_ok env = true ->
                   json_loads (universal_newlines content) = None) ->
  exists new,
    update_storage_file path a b c d env st =
      (Val false, set_log (new ++ st_log st) st) /\
    forallb (fun e => negb (is_change e)) new = true.
Proof.
  intros Hnone. unfold update_storage_file, read_text. run_m.
  destruct (bool_decide (is_Some (st_files st !! path))
            || bool_decide (path ∈ st_dirs st)); simpl_state.
  2:{ eexists [_; _; _]. split; reflexivity. }
  destruct (st_files st !! path) as [content|] eqn:Hfile; simpl_state.
  2:{ eexists [_; _; _]. split; reflexivity. }
  destruct (env_read_ok env) eqn:Hread; simpl_state.
  2:{ eexists [_; _; _]. split; reflexivity. }
  rewrite (Hnone content eq_refl eq_refl).
  eexists [_; _; _]. split; reflexivity.
Qed.

(** Lines 289-303: how many times the file is opened for writing. *)
Lemma write_with_rollback_result (path content : string) (config : json)
  (env : Env) (st : State) :
  exists st',
    write_with_rollback path content config env st =
      (Val (write_succeeds (env_write env (st_writes st))), st') /\
    st_writes st' =
      st_writes st + (if write_succeeds (env_write env (st_writes st)) then 1 else 2).
Proof.
  unfold write_with_rollback, write_text. run_m.
  destruct (env_write env (st_writes st)); simpl_state;
    [|destruct (env_write env (S (st_writes st)))..]; simpl_state;
    eexists; (split; [reflexivity|]); simpl_state; cbn [write_succeeds]; lia.
Qed.

Lemma update_storage_file_object_run (env : Env) (st : State)
  (path content : string) (members : list (string * json)) (a b c d : string) :
  st_files st !! path = Some content ->
  env_read_ok env = true ->
  json_loads (universal_newlines content) = Some (JObj members) ->
  exists st',
    update_storage_file path a b c d env st =
      (Val (write_succeeds (env_write env (st_writes st))), st') /\
    st_writes st' =
      st_writes st + (if write_succeeds (env_write env (st_writes st)) then 1 else 2).
Proof.
  intros Hfile Hread Hparse.
  rewrite (update_storage_file_parsed env st path content (JObj members))
    by assumption.
  rewrite mutate_config_object.
  match goal with
  | |- context [write_with_rollback _ _ ?cfg _ ?s] =>
      destruct (write_with_rollback_result path (universal_newlines content) cfg env s)
        as (st' & Hrun & Hw)
  end.
  simpl_state_in Hrun. simpl_state_in Hw. eauto.
Qed.

Lemma update_storage_file_non_object_run (env : Env) (st : State)
  (path content : string) (config : json) (a b c d : string) :
  st_files st !! path = Some content ->
  env_read_ok env = true ->
  json_loads (universal_newlines content) = Some config ->
  is_dict config = false ->
  exists out st',
    update_storage_file path a b c d env st = (out, st') /\
    (out = Val false \/ out = Raised TypeError).
Proof.
  intros Hfile Hread Hparse Hroot.
  rewrite (update_storage_file_parsed env st path content config) by assumption.
  unfold mutate_config, bind.
  destruct (ensure_telemetry_non_object config env
              (set_log (ERead path true :: ECall FnUpdateStorageFile :: st_log st) st)
              Hroot)
    as (out & st' & new & Hrun & Hout & _).
  rewrite Hrun. destruct Hout as [-> | ->]; eauto.
Qed.

End ConfigRuns.

Section ConfigExtras.
Context `{JsonCodec}.

(** X12: When there is no document to update (the config file is missing,
    cannot be read, or its content is not JSON) [update_storage_file]
    returns [False] and has changed nothing: it opened no file for
    writing, and apart from its log the state is the one it started in. *)
Theorem update_storage_file_no_document (env : Env) (st : State)
  (path : string) (a b c d : string) :
  st_files st !! path = None \/
  env_read_ok env = false \/
  (exists content, st_files st !! path = Some content /\
                   json_loads (universal_newlines content) = None) ->
  exists new,
    update_storage_file path a b c d env st =
      (Val false, set_log (new ++ st_log st) st) /\
    forallb (fun e => negb (is_change e)) new = true.
Proof.
  intros Hno. apply update_storage_file_no_document_run.
  intros content Hfile Hread.
  destruct Hno as [Hmiss|[Hunread|(content' & Hfile' & Hparse)]].
  - rewrite Hmiss in Hfile. discriminate Hfile.
  - rewrite Hunread in Hread. discriminate Hread.
  - rewrite Hfile' in Hfile. injection Hfile as <-. exact Hparse.
Qed.

(** X13: For a readable config file whose root is a JSON object the call
    always returns, and what it returns is whether its first write went
    through: [True] after exactly one write, [False] after exactly two
    (the failed one and the attempt to put the original text back). *)
Theorem update_storage_file_object_root_result (env : Env) (st : State)
  (path content : string) (members : list (string * json)) (a b c d : string) :
  st_files st !! path = Some content ->
  env_read_ok env = true ->
  json_loads (universal_newlines content) = Some (JObj members) ->
  let r := update_storage_file path a b c d env st in
  fst r = Val (write_succeeds (env_write env (st_writes st))) /\
  st_writes (snd r) =
    st_writes st + (if write_succeeds (env_write env (st_writes st)) then 1 else 2).
Proof.
  intros Hfile Hread Hparse. cbv zeta.
  destruct (update_storage_file_object_run env st path content members a b c d
              Hfile Hread Hparse) as (st' & Hrun & Hw).
  rewrite Hrun. split; [reflexivity|exact Hw].
Qed.

(** The three ways through lines 255-303. *)
Lemma update_storage_file_cases (env : Env) (st : State)
  (path : string) (a b c d : string) :
  (exists new,
     update_storage_file path a b c d env st =
       (Val false, set_log (new ++ st_log st) st)) \/
  (exists content members st',
     st_files st !! path = Some content /\
     json_loads (universal_newlines content) = Some (JObj members) /\
     update_storage_file path a b c d env st =
       (Val (write_succeeds (env_write env (st_writes st))), st')) \/
  (exists content config out st',
     st_files st !! path = Some content /\
     json_loads (universal_newlines content) = Some config /\ is_dict config = false /\
     update_storage_file path a b c d env st = (out, st') /\
     (out = Val false \/ out = Raised TypeError)).
Proof.
  destruct (st_files st !! path) as [content|] eqn:Hfile.
  2:{ destruct (update_storage_file_no_document_run env st path a b c d
                    ltac:(intros; congruence)) as (new & Hrun & _).
      left. eauto. }
  destruct (env_read_ok env) eqn:Hread.
  2:{ destruct (update_storage_file_no_document_run env st path a b c d
                    ltac:(intros; congruence)) as (new & Hrun & _).
      left. eauto. }
  destruct (json_loads (universal_newlines content)) as [config|] eqn:Hparse.
  2:{ destruct (update_storage_file_no_document_run env st path a b c d
                    ltac:(intros c0 Hc _; rewrite Hfile in Hc;
                          injection Hc as <-; exact Hparse))
        as (new & Hrun & _).
      left. eauto. }
  destruct (is_dict config) eqn:Hroot.
  - destruct config; try discriminate Hroot.
    destruct (update_storage_file_object_run env st path content members a b c d
                Hfile Hread Hparse) as (st' & Hrun & _).
    right. left. eauto 10.
  - destruct (update_storage_file_non_object_run env st path content config a b c d
                Hfile Hread Hparse Hroot) as (out & st' & Hrun & Hout).
    right. right. eauto 10.
Qed.


Lemma update_storage_file_preserves_file path a b c d p :
  p <> path ->
  preserves (fun st => st_files st !! p) (update_storage_file path a b c d).
Proof.
  intros Hp.
  unfold update_storage_file, read_text, mutate_config, ensure_telemetry,
    set_identity_fields, write_with_rollback, write_text.
  repeat first
    [ preserves_step
    | apply preserves_modify; intros ?; cbv beta; cbn [st_files set_files];
      apply lookup_insert_ne; congruence ].
Qed.

Lemma update_storage_file_preserves_rest path a b c d :
  preserves st_dirs (update_storage_file path a b c d) /\
  preserves st_guid (update_storage_file path a b c d) /\
  preserves st_draws (update_storage_file path a b c d) /\
  preserves st_urandom (update_storage_file path a b c d) /\
  preserves st_polls (update_storage_file path a b c d) /\
  preserves st_clock (update_storage_file path a b c d).
Proof.
  repeat split;
    unfold update_storage_file, read_text, mutate_config, ensure_telemetry,
      set_identity_fields, write_with_rollback, write_text;
    repeat preserves_step.
Qed.

(** X15: Whatever the config file holds and however the call ends, the one
    thing [update_storage_file] can change is the file at the path it
    was given: every other file, the directories, the registry value,
    the random sources, the clock and the process table are untouched. *)
Theorem update_storage_file_touches_only_path (env : Env) (st : State)
  (path : string) (a b c d : string) :
  let st' := snd (update_storage_file path a b c d env st) in
  (forall p, p <> path -> st_files st' !! p = st_files st !! p) /\
  st_dirs st' = st_dirs st /\ st_guid st' = st_guid st /\
  st_draws st' = st_draws st /\ st_urandom st' = st_urandom st /\
  st_polls st' = st_polls st /\ st_clock st' = st_clock st.
Proof.
  cbv zeta.
  pose proof (surjective_pairing (update_storage_file path a b c d env st)) as Hrun.
  destruct (update_storage_file_preserves_rest path a b c d)
    as (H1 & H2 & H3 & H4 & H5 & H6).
  split; [intros p Hp;
          exact (update_storage_file_preserves_file path a b c d p Hp _ _ _ _ Hrun)|].
  repeat split; eauto.
Qed.

End ConfigExtras.

Lemma update_storage_file_no_document_witness :
  exists new,
    update_storage_file sample_path "m1" "m2" "m3" "m4" quiet_env (state_with ∅ None) =
      (Val false, set_log (new ++ st_log (state_with ∅ None)) (state_with ∅ None)) /\
    forallb (fun e => negb (is_change e)) new = true.
Proof.
  apply (update_storage_file_no_document quiet_env (state_with ∅ None) sample_path).
  left. reflexivity.
Defined.

Lemma update_storage_file_object_root_result_witness :
  let r := update_storage_file sample_path "m1" "m2" "m3" "m4"
             (with_write (fun _ => OpenFails) quiet_env) sample_state in
  fst r = Val false /\ st_writes (snd r) = 2.
Proof.
  apply (update_storage_file_object_root_result
           (with_write (fun _ => OpenFails) quiet_env) sample_state
           sample_path sample_config
           [("a", JInt 1);
            ("telemetry", JObj [("x", JBool true); ("machineId", JStr "old")])]).
  - vm_compute. reflexivity.
  - reflexivity.
  - vm_compute. reflexivity.
Defined.

Lemma update_storage_file_touches_only_path_witness :
  st_files (snd (update_storage_file sample_path "m1" "m2" "m3" "m4"
                   quiet_env (installed_state None))) !! installed_path
  = Some sample_config.
Proof.
  rewrite (proj1 (update_storage_file_touches_only_path quiet_env
                    (installed_state None) sample_path "m1" "m2" "m3" "m4")
             installed_path).
  - reflexivity.
  - discriminate.
Defined.

(** ** The rewritten document *)

Lemma dict_set_keys (k : string) (v : json) (d : list (string * json)) :
  dict_keys (dict_set k v d) = dict_keys d ++ missing_keys [k] d.
Proof.
  unfold dict_keys, missing_keys.
  induction d as [|[k' v'] d IH]; [reflexivity|].
  cbn [dict_set dict_get map fst List.filter] in *.
  destruct (String.eqb_spec k' k) as [->|Hne].
  - rewrite bool_decide_eq_true_2 by eauto. cbn. now rewrite app_nil_r.
  - cbn [map fst app]. now rewrite IH.
Qed.

Lemma missing_keys_set_ne (k k' : string) (v : json) (d : list (string * json)) :
  k <> k' -> missing_keys [k] (dict_set k' v d) = missing_keys [k] d.
Proof.
  intros Hne. unfold missing_keys. cbn [List.filter].
  now rewrite dict_get_set_ne by congruence.
Qed.

Lemma with_identity_keys (t : list (string * json)) (a b c d : string) :
  dict_keys (with_identity t a b c d) = dict_keys t ++ missing_keys identity_keys t.
Proof.
  unfold with_identity. rewrite !dict_set_keys.
  rewrite !missing_keys_set_ne by discriminate.
  rewrite <- !app_assoc. f_equal.
  unfold missing_keys, identity_keys. cbn [List.filter].
  repeat match goal with
         | |- context [negb (bool_decide ?P)] => destruct (negb (bool_decide P))
         end; reflexivity.
Qed.

Lemma dict_set_comm_present (k k2 : string) (v v2 : json) (d : list (string * json)) :
  k <> k2 -> is_Some (dict_get k d) ->
  dict_set k v (dict_set k2 v2 d) = dict_set k2 v2 (dict_set k v d).
Proof.
  intros Hne. induction d as [|[k' v'] d IH]; cbn [dict_get dict_set].
  - intros [? [=]].
  - destruct (String.eqb_spec k' k) as [->|Hk]; intros Hsome.
    + rewrite (proj2 (String.eqb_neq k k2) Hne).
      cbn [dict_set]. rewrite String.eqb_refl.
      now rewrite (proj2 (String.eqb_neq k k2) Hne).
    + destruct (String.eqb_spec k' k2) as [->|Hk2]; cbn [dict_set].
      * rewrite (proj2 (String.eqb_neq k2 k)) by congruence.
        now rewrite String.eqb_refl.
      * rewrite (proj2 (String.eqb_neq k' k) Hk), (proj2 (String.eqb_neq k' k2) Hk2).
        now rewrite IH.
Qed.

Lemma dict_get_set_some (k k' : string) (v : json) (d : list (string * json)) :
  is_Some (dict_get k d) -> is_Some (dict_get k (dict_set k' v d)).
Proof.
  intros Hsome. destruct (String.eqb_spec k' k) as [->|Hne].
  - rewrite dict_get_set_eq. eauto.
  - now rewrite dict_get_set_ne.
Qed.

Ltac solve_present :=
  first [ rewrite dict_get_set_eq; eauto
        | apply dict_get_set_some; solve_present ].

Lemma with_identity_twice (t : list (string * json)) (a b c d a' b' c' d' : string) :
  with_identity (with_identity t a b c d) a' b' c' d' = with_identity t a' b' c' d'.
Proof.
  unfold with_identity.
  set (S1 := dict_set "machineId"). set (S2 := dict_set "macMachineId").
  set (S3 := dict_set "devDeviceId"). set (S4 := dict_set "sqmId").
  assert (H1 : S1 (JStr a') (S4 (JStr d) (S3 (JStr c) (S2 (JStr b) (S1 (JStr a) t))))
               = S4 (JStr d) (S3 (JStr c) (S2 (JStr b) (S1 (JStr a') t)))).
  { subst S1 S2 S3 S4.
    rewrite !(dict_set_comm_present "machineId")
      by (try discriminate; solve_present).
    now rewrite dict_set_twice. }
  rewrite H1.
  assert (H2 : forall x, S2 (JStr b') (S4 (JStr d) (S3 (JStr c) (S2 (JStr b) x)))
               = S4 (JStr d) (S3 (JStr c) (S2 (JStr b') x))).
  { intros x. subst S1 S2 S3 S4.
    rewrite !(dict_set_comm_present "macMachineId")
      by (try discriminate; solve_present).
    now rewrite dict_set_twice. }
  rewrite H2.
  assert (H3 : forall x, S3 (JStr c') (S4 (JStr d) (S3 (JStr c) x))
               = S4 (JStr d) (S3 (JStr c') x)).
  { intros x. subst S1 S2 S3 S4.
    rewrite !(dict_set_comm_present "devDeviceId")
      by (try discriminate; solve_present).
    now rewrite dict_set_twice. }
  rewrite H3. subst S1 S2 S3 S4. now rewrite dict_set_twice.
Qed.

Lemma updated_members_twice (members : list (string * json))
  (a b c d a' b' c' d' : string) :
  updated_members (updated_members members a b c d) a' b' c' d' =
  updated_members members a' b' c' d'.
Proof.
  assert (Ht : telemetry_of (updated_members members a b c d) =
               Some (with_identity (default [] (telemetry_of members)) a b c d)).
  { unfold telemetry_of at 1, updated_members. now rewrite dict_get_set_eq. }
  unfold updated_members at 1. rewrite Ht. cbn [default].
  unfold id. rewrite with_identity_twice.
  unfold updated_members. now rewrite dict_set_twice.
Qed.

Section ConfigDocument.
Context `{JsonCodec}.

(** Lines 255-303 on a root object, when the call returns [True]: the
    file store is the one it started with, the config file replaced by
    the serialisation of the updated document. *)
Lemma update_storage_file_true_files (env : Env) (st st' : State)
  (path content : string) (members : list (string * json)) (a b c d : string) :
  st_files st !! path = Some content ->
  json_loads (universal_newlines content) = Some (JObj members) ->
  update_storage_file path a b c d env st = (Val true, st') ->
  st_files st' =
  <[path := written env (json_dumps (JObj (updated_members members a b c d)))]>
    (st_files st).
Proof.
  intros Hfile Hparse Hrun.
  destruct (env_read_ok env) eqn:Hread.
  2:{ rewrite (update_storage_file_unreadable env st path content) in Hrun
        by assumption. discriminate. }
  rewrite (update_storage_file_parsed env st path content (JObj members)) in Hrun
    by assumption.
  rewrite mutate_config_object in Hrun.
  match type of Hrun with
  | write_with_rollback _ _ ?cfg _ ?st1 = _ =>
      destruct (write_with_rollback_spec path (universal_newlines content) cfg env st1)
        as (out & st2 & new & Hw & _ & Hcase)
  end.
  rewrite Hw in Hrun. injection Hrun as -> ->.
  destruct (env_write env _); [|destruct Hcase; discriminate..].
  destruct Hcase as [_ Hfiles]. exact Hfiles.
Qed.

(** X16: The rewritten config file keeps the order of the document it was
    read from: every top-level key stays where it was, [telemetry] being
    added at the end only when it was missing; inside a [telemetry]
    object every key stays where it was, and those of the four identity
    keys that were missing follow at the end, in the order [machineId],
    [macMachineId], [devDeviceId], [sqmId]. *)
Theorem update_storage_file_key_order (env : Env) (st st' : State)
  (path content : string) (members : list (string * json)) (a b c d : string) :
  st_files st !! path = Some content ->
  json_loads (universal_newlines content) = Some (JObj members) ->
  update_storage_file path a b c d env st = (Val true, st') ->
  exists members' telemetry' : list (string * json),
    st_files st' !! path = Some (written env (json_dumps (JObj members'))) /\
    dict_get "telemetry" members' = Some (JObj telemetry') /\
    dict_keys members' = dict_keys members ++ missing_keys ["telemetry"] members /\
    (forall t, dict_get "telemetry" members = Some (JObj t) ->
       dict_keys telemetry' = dict_keys t ++ missing_keys identity_keys t).
Proof.
  intros Hfile Hparse Hrun.
  exists (updated_members members a b c d),
         (with_identity (default [] (telemetry_of members)) a b c d).
  split; [|split; [|split]].
  - rewrite (update_storage_file_true_files env st st' path content members a b c d)
      by assumption.
    apply lookup_insert_eq.
  - apply dict_get_set_eq.
  - apply dict_set_keys.
  - intros t Ht. unfold telemetry_of. rewrite Ht. apply with_identity_keys.
Qed.

(** X17: Running the update again with other identifiers leaves what one run
    with those identifiers would have left: the second run replaces the
    four fields of the first and nothing else accumulates.  The file
    the first run wrote is assumed to read and parse back to the
    document it was made from. *)
Theorem update_storage_file_twice (env env' : Env) (st st1 st2 : State)
  (path content : string) (members : list (string * json))
  (a b c d a' b' c' d' : string) :
  st_files st !! path = Some content ->
  json_loads (universal_newlines content) = Some (JObj members) ->
  json_loads (universal_newlines
                (written env (json_dumps (JObj (updated_members members a b c d))))) =
    Some (JObj (updated_members members a b c d)) ->
  update_storage_file path a b c d env st = (Val true, st1) ->
  update_storage_file path a' b' c' d' env' st1 = (Val true, st2) ->
  st_files st2 =
  <[path := written env' (json_dumps (JObj (updated_members members a' b' c' d')))]>
    (st_files st).
Proof.
  intros Hfile Hparse Hround Hrun1 Hrun2.
  pose proof (update_storage_file_true_files env st st1 path content members
                a b c d Hfile Hparse Hrun1) as Hfiles1.
  assert (Hfile1 : st_files st1 !! path =
                   Some (written env (json_dumps (JObj (updated_members members a b c d)))))
    by (rewrite Hfiles1; apply lookup_insert_eq).
  rewrite (update_storage_file_true_files env' st1 st2 path _ _ a' b' c' d'
             Hfile1 Hround Hrun2).
  rewrite updated_members_twice, Hfiles1. apply insert_insert_eq.
Qed.

End ConfigDocument.

Lemma update_storage_file_key_order_witness :
  exists members' telemetry' : list (string * json),
    st_files (snd (update_storage_file sample_path "m1" "m2" "m3" "m4"
                     quiet_env sample_state)) !! sample_path
      = Some (written quiet_env (json_dumps (JObj members'))) /\
    dict_get "telemetry" members' = Some (JObj telemetry') /\
    dict_keys members' = ["a"; "telemetry"] /\
    (forall t,
       dict_get "telemetry"
         [("a", JInt 1);
          ("telemetry", JObj [("x", JBool true); ("machineId", JStr "old")])]
         = Some (JObj t) ->
       dict_keys telemetry' = dict_keys t ++ missing_keys identity_keys t).
Proof.
  apply (update_storage_file_key_order quiet_env sample_state
           (snd (update_storage_file sample_path "m1" "m2" "m3" "m4"
                   quiet_env sample_state))
           sample_path sample_config
           [("a", JInt 1);
            ("telemetry", JObj [("x", JBool true); ("machineId", JStr "old")])]
           "m1" "m2" "m3" "m4").
  - vm_compute. reflexivity.
  - vm_compute. reflexivity.
  - vm_compute. reflexivity.
Defined.

Lemma update_storage_file_twice_witness :
  let r1 := update_storage_file sample_path "m1" "m2" "m3" "m4" quiet_env sample_state in
  let r2 := update_storage_file sample_path "n1" "n2" "n3" "n4" quiet_env (snd r1) in
  st_files (snd r2) =
  <[sample_path :=
      written quiet_env
        (json_dumps (JObj (updated_members
                             [("a", JInt 1);
                              ("telemetry",
                               JObj [("x", JBool true); ("machineId", JStr "old")])]
                             "n1" "n2" "n3" "n4")))]> (st_files sample_state).
Proof.
  intros r1 r2.
  apply (update_storage_file_twice quiet_env quiet_env sample_state (snd r1) (snd r2)
           sample_path sample_config
           [("a", JInt 1);
            ("telemetry", JObj [("x", JBool true); ("machineId", JStr "old")])]
           "m1" "m2" "m3" "m4" "n1" "n2" "n3" "n4").
  - vm_compute. reflexivity.
  - vm_compute. reflexivity.
  - vm_compute. reflexivity.
  - vm_compute. reflexivity.
  - vm_compute. reflexivity.
Defined.

(** ** How a run can end *)



Lemma aborts_update_machine_guid E X backup_dir :
  aborts E X (update_machine_guid backup_dir).
Proof.
  intros env st out st' Hrun.
  destruct (update_machine_guid_returns backup_dir env st) as [b Hr].
  rewrite Hrun in Hr. cbn [fst] in Hr. now subst out.
Qed.

Section RunEndings.
Context `{JsonCodec}.

Lemma aborts_update_storage_file E path a b c d :
  aborts E uncaught (update_storage_file path a b c d).
Proof.
  intros env st out st' Hrun.
  destruct (update_storage_file_cases env st path a b c d)
    as [(new & Hr)|[(content & members & s1 & _ & _ & Hr)
                   |(content & config & o & s1 & _ & _ & _ & Hr & Ho)]];
    rewrite Hrun in Hr; injection Hr as -> ->; [exact I..|].
  destruct Ho as [-> | ->]; [exact I|now right].
Qed.









End RunEndings.

(** ** The paths of a run *)

Lemma string_app_inv_head (a x y : string) : a +:+ x = a +:+ y -> x = y.
Proof.
  induction a as [|c a IH]; [trivial|].
  rewrite !string_app_cons. intros [= Heq]. auto.
Qed.

Lemma path_join_inj_r (a x y : string) : path_join a x = path_join a y -> x = y.
Proof.
  unfold path_join. intros Heq. apply string_app_inv_head in Heq.
  rewrite !string_app_cons in Heq. now injection Heq.
Qed.

(** The config file is not inside the backup directory. *)
Lemma storage_not_in_backups (dir name : string) :
  path_join dir "storage.json" <> path_join (path_join dir "backups") name.
Proof.
  unfold path_join. rewrite string_app_assoc. intros Heq.
  apply string_app_inv_head in Heq.
  rewrite !string_app_cons in Heq. discriminate Heq.
Qed.

(** The config backup and the registry backup have different names. *)
Lemma config_backup_not_reg_backup (dir stamp stamp' : string) :
  path_join dir ("storage.json.backup_" +:+ stamp) <>
  path_join dir ("MachineGuid_" +:+ stamp' +:+ ".reg").
Proof.
  intros Heq. apply path_join_inj_r in Heq.
  rewrite !string_app_cons in Heq. discriminate Heq.
Qed.

(** ** What the steps of a run leave alone *)

Section LogOnly.
Context {X : Type} (f : State -> X).
Hypothesis Hlog : forall l st, f (set_log l st) = f st.
Hypothesis Hpolls : forall n st, f (set_polls n st) = f st.

Lemma preserves_log_only (e : event) : preserves f (log e).
Proof. intros env st out st' [= <- <-]. apply Hlog. Qed.

Lemma preserves_startup : preserves f startup.
Proof.
  unfold startup, press_enter_to_exit.
  repeat first [apply preserves_log_only | preserves_step].
Qed.

Lemma preserves_close_cursor_process name :
  preserves f (close_cursor_process name).
Proof.
  intros env st out st' Hrun.
  destruct (close_cursor_process_run name env st) as (new & Hst & _).
  rewrite Hrun in Hst. cbn [snd] in Hst. rewrite Hst.
  unfold logged. now rewrite Hpolls, Hlog.
Qed.

Lemma preserves_quiesce : preserves f quiesce.
Proof.
  unfold quiesce. apply preserves_bind; [|intros _];
    apply preserves_close_cursor_process.
Qed.

End LogOnly.

Section RunFrames.
Context `{JsonCodec}.

Lemma preserves_final_report_files guid_ok ok ids backup_dir_path :
  preserves st_files (final_report guid_ok ok ids backup_dir_path).
Proof. unfold final_report, iterdir_files. repeat preserves_step. Qed.

Lemma preserves_backup_config_sources storage_file_path backup_dir_path :
  preserves st_draws (backup_config storage_file_path backup_dir_path) /\
  preserves st_urandom (backup_config storage_file_path backup_dir_path) /\
  preserves st_guid (backup_config storage_file_path backup_dir_path).
Proof.
  repeat split; unfold backup_config, copy2, now_stamp;
    repeat preserves_step.
Qed.

Lemma preserves_backup_config_file storage_file_path backup_dir_path p :
  (forall name, p <> path_join backup_dir_path name) ->
  preserves (fun st => st_files st !! p)
    (backup_config storage_file_path backup_dir_path).
Proof.
  intros Hp. unfold backup_config, copy2, now_stamp.
  repeat first
    [ preserves_step
    | apply preserves_modify; intros ?; cbv beta; cbn [st_files set_files];
      apply lookup_insert_ne; intros Heq; exact (Hp _ (eq_sym Heq)) ].
Qed.

(** Lines 358-391 when the backup block returns, there is a config file
    and [shutil.copy2] works: the backup holds the text of the config
    file. *)
Lemma backup_config_copied storage_file_path backup_dir_path env st st' content :
  backup_config storage_file_path backup_dir_path env st = (Val tt, st') ->
  st_files st !! storage_file_path = Some content ->
  env_copy_ok env = true ->
  st_files st' !!
    path_join backup_dir_path ("storage.json.backup_" +:+ env_now env (st_clock st))
  = Some content.
Proof.
  intros Hrun Hfile Hcopy. revert Hrun.
  unfold backup_config, copy2, now_stamp. run_m.
  destruct (bool_decide (is_Some (st_files st !! backup_dir_path))
            || bool_decide (backup_dir_path ∈ st_dirs st)); simpl_state;
    [|unfold mkdir;
      destruct (mkdir_parents_run (path_lineage backup_dir_path) env st)
        as (out & new & D & -> & [-> | ->] & _); simpl_state;
      [|discriminate]];
    repeat (simpl_state;
            first [ rewrite Hfile | rewrite Hcopy
                  | rewrite bool_decide_eq_true_2 by eauto ]);
    simpl_state; intros [= <-]; simpl_state; apply lookup_insert_eq.
Qed.

Lemma new_ids_inv env st out st' :
  new_ids env st = (out, st') ->
  out = Val (ids_of env st) /\
  st_files st' = st_files st /\ st_log st' = st_log st /\
  st_clock st' = st_clock st /\ st_dirs st' = st_dirs st.
Proof.
  intros Hrun. unfold new_ids in Hrun. cbv zeta in Hrun.
  pose proof (f_equal fst Hrun) as H1. pose proof (f_equal snd Hrun) as H2.
  cbn [fst snd] in H1, H2. subst out st'.
  split; [unfold ids_of; reflexivity|].
  cbn [st_files st_log st_clock st_dirs set_urandom set_draws]. auto.
Qed.

End RunFrames.

(** ** A run that ends with status 0 *)

Lemma aborts_one_press_enter_to_exit {A} X :
  aborts exit_status_one X (@press_enter_to_exit A 1).
Proof. intros env st out st' [= <- <-]. reflexivity. Qed.

Lemma aborts_one_close_cursor_process name :
  aborts exit_status_one any_exn (close_cursor_process name).
Proof.
  intros env st out st' Hrun.
  destruct (close_cursor_process_run name env st) as (new & _ & _ & _ & _ & Hout).
  rewrite Hrun in Hout. cbn [fst] in Hout.
  destruct out as [a|code|e]; [exact I|exact (proj1 Hout)|exact I].
Qed.

Lemma aborts_one_startup : aborts exit_status_one any_exn startup.
Proof.
  unfold startup.
  repeat first [apply aborts_one_press_enter_to_exit | aborts_step].
Qed.

Lemma aborts_one_quiesce : aborts exit_status_one any_exn quiesce.
Proof.
  unfold quiesce. apply aborts_bind; [|intros _];
    apply aborts_one_close_cursor_process.
Qed.

Lemma aborts_one_backup_config storage_file_path backup_dir_path :
  aborts exit_status_one any_exn (backup_config storage_file_path backup_dir_path).
Proof.
  unfold backup_config, copy2, now_stamp.
  repeat first [apply aborts_one_press_enter_to_exit | aborts_step].
Qed.

(** A step that can only exit with status 1 and whose run ended with
    status 0 has returned. *)
Lemma bind_exit_zero_inv {A B} (m : M A) (k : A -> M B) env st st' :
  aborts exit_status_one any_exn m ->
  bind m k env st = (Exited 0, st') ->
  exists a s1, m env st = (Val a, s1) /\ k a env s1 = (Exited 0, st').
Proof.
  intros Hm Hrun.
  apply bind_inv in Hrun as [Hv|[(code & Hc & Hout)|(e & _ & He)]];
    [exact Hv| |discriminate He].
  injection Hout as <-. pose proof (Hm _ _ _ _ Hc) as Hone. discriminate Hone.
Qed.

Section ExitZero.
Context `{JsonCodec}.

Lemma update_storage_file_true_inv (env : Env) (st st' : State)
  (path : string) (a b c d : string) :
  update_storage_file path a b c d env st = (Val true, st') ->
  exists content members,
    st_files st !! path = Some content /\
    json_loads (universal_newlines content) = Some (JObj members) /\
    st_files st' =
    <[path := written env (json_dumps (JObj (updated_members members a b c d)))]>
      (st_files st).
Proof.
  intros Hrun.
  destruct (update_storage_file_cases env st path a b c d)
    as [(new & Hr)|[(content & members & s1 & Hfile & Hparse & Hr)
                   |(content & config & o & s1 & _ & _ & _ & Hr & Ho)]].
  - rewrite Hrun in Hr. discriminate Hr.
  - exists content, members. split; [exact Hfile|]. split; [exact Hparse|].
    exact (update_storage_file_true_files env st st' path content members a b c d
             Hfile Hparse Hrun).
  - rewrite Hrun in Hr. injection Hr as <- <-. destruct Ho as [Ho|Ho]; discriminate Ho.
Qed.

(** Lines 420-464: the report ends with status 0 only for a config
    update that succeeded; it has printed the four identifiers and
    changed no file. *)
Lemma final_report_exit_zero guid_ok ok ids backup_dir_path env st st' :
  final_report guid_ok ok ids backup_dir_path env st = (Exited 0, st') ->
  ok = true /\
  st_files st' = st_files st /\
  In (EPrint (MsgConfigDetails (ids_machine_id ids) (ids_mac_machine_id ids)
                (ids_dev_device_id ids) (ids_sqm_id ids))) (st_log st').
Proof.
  intros Hrun.
  pose proof (preserves_final_report_files guid_ok ok ids backup_dir_path
                _ _ _ _ Hrun) as Hfiles.
  destruct ok.
  2:{ revert Hrun. unfold final_report, press_enter_to_exit. run_m. discriminate. }
  split; [reflexivity|]. split; [exact Hfiles|].
  unfold final_report in Hrun.
  apply bind_inv in Hrun as [(u & s1 & H1 & Hrest)|[(code & Hc & _)|(e & _ & He)]];
    [| revert Hc; run_m; discriminate | discriminate He].
  revert H1. run_m. intros [= <- <-].
  match type of Hrest with
  | ?t env ?s = _ =>
      assert (Ht : emits (fun _ => true) t)
        by (unfold iterdir_files; emits_auto)
  end.
  destruct (Ht _ _ _ _ Hrest) as (new & Hlog & _).
  rewrite Hlog. apply in_or_app. right. cbn [st_log set_log]. left. reflexivity.
Qed.

(** Lines 393-464 when they end with status 0. *)
Lemma apply_changes_exit_zero storage_file_path backup_dir_path env st st' :
  apply_changes storage_file_path backup_dir_path env st = (Exited 0, st') ->
  (forall stamp, storage_file_path <>
                 path_join backup_dir_path ("MachineGuid_" +:+ stamp +:+ ".reg")) ->
  let ids := ids_of env st in
  exists content members,
    st_files st !! storage_file_path = Some content /\
    json_loads (universal_newlines content) = Some (JObj members) /\
    st_files st' !! storage_file_path =
      Some (written env (json_dumps (JObj (updated_members members
              (ids_machine_id ids) (ids_mac_machine_id ids)
              (ids_dev_device_id ids) (ids_sqm_id ids))))) /\
    (forall p, p <> storage_file_path ->
       (forall stamp, p <> path_join backup_dir_path
                               ("MachineGuid_" +:+ stamp +:+ ".reg")) ->
       st_files st' !! p = st_files st !! p) /\
    In (EPrint (MsgConfigDetails (ids_machine_id ids) (ids_mac_machine_id ids)
                  (ids_dev_device_id ids) (ids_sqm_id ids))) (st_log st').
Proof.
  intros Hrun Hfar ids. unfold apply_changes in Hrun.
  rewrite (bind_val (print _) _ _ _ tt _ eq_refl) in Hrun.
  apply bind_inv in Hrun as [(ids' & s1 & Hids & Hrun)|[(code & Hc & _)|(e & He & _)]].
  2:{ apply new_ids_inv in Hc as [Hc _]. discriminate Hc. }
  2:{ apply new_ids_inv in He as [He _]. discriminate He. }
  apply new_ids_inv in Hids as (Hv & Hf1 & _).
  assert (ids' = ids) as ->.
  { assert (Hi : ids' = ids_of env (set_log (EPrint MsgGeneratingIds :: st_log st) st))
      by congruence.
    rewrite Hi. unfold ids, ids_of. cbn [st_draws st_urandom set_log]. reflexivity. }
  cbn [st_files set_log] in Hf1.
  rewrite (bind_val (ask env_win32) _ _ _ _ _ eq_refl) in Hrun.
  (* the registry step *)
  apply bind_inv in Hrun as [(guid_ok & s2 & Hreg & Hrun)|[(code & Hc & Hout)|(e & _ & He)]];
    [| |discriminate He].
  2:{ exfalso. destruct (env_win32 env).
      - exact (aborts_update_machine_guid never_exits any_exn _ _ _ _ _ Hc).
      - revert Hc. run_m. discriminate. }
  assert (Hf2 : forall p,
             (forall stamp, p <> path_join backup_dir_path
                                     ("MachineGuid_" +:+ stamp +:+ ".reg")) ->
             st_files s2 !! p = st_files s1 !! p).
  { intros p Hp. destruct (env_win32 env).
    - exact (update_machine_guid_preserves_file backup_dir_path p Hp _ _ _ _ Hreg).
    - revert Hreg. run_m. intros [= _ <-]. reflexivity. }
  rewrite (bind_val (print _) _ _ _ tt _ eq_refl) in Hrun.
  (* the config step *)
  apply bind_inv in Hrun as [(ok & s3 & Hcfg & Hrun)|[(code & Hc & Hout)|(e & _ & He)]];
    [| |discriminate He].
  2:{ exfalso.
      exact (aborts_update_storage_file never_exits _ _ _ _ _ _ _ _ _ Hc). }
  apply final_report_exit_zero in Hrun as (-> & Hf4 & Hin).
  pose proof Hcfg as Hcfg'.
  apply update_storage_file_true_inv in Hcfg
    as (content & members & Hfile & Hparse & Hf3).
  cbn [st_files set_log] in Hfile, Hf3.
  exists content, members.
  split; [rewrite <- Hf1, <- (Hf2 _ Hfar); exact Hfile|].
  split; [exact Hparse|].
  split; [rewrite Hf4, Hf3; apply lookup_insert_eq|].
  split; [|exact Hin].
  intros p Hp Hpreg.
  rewrite Hf4, Hf3, lookup_insert_ne by congruence.
  rewrite (Hf2 _ Hpreg), Hf1. reflexivity.
Qed.

End ExitZero.

Section SuccessfulRun.
Context `{JsonCodec}.

Lemma after_quiescing_eq env st :
  after_quiescing env st =
  bind (backup_config (storage_file_path_of env) (backup_dir_path_of env))
       (fun _ => apply_changes (storage_file_path_of env) (backup_dir_path_of env))
       env st.
Proof. reflexivity. Qed.

Lemma storage_file_not_reg_backup env stamp :
  storage_file_path_of env <>
  path_join (backup_dir_path_of env) ("MachineGuid_" +:+ stamp +:+ ".reg").
Proof. apply storage_not_in_backups. Qed.

(** What is known of a run that ended with status 0. *)
Lemma main_exit_zero_inv (env : Env) (st st' : State) :
  main env st = (Exited 0, st') ->
  let ids := ids_of env st in
  exists content members,
    st_files st !! storage_file_path_of env = Some content /\
    json_loads (universal_newlines content) = Some (JObj members) /\
    st_files st' !! storage_file_path_of env =
      Some (written env (json_dumps (JObj (updated_members members
              (ids_machine_id ids) (ids_mac_machine_id ids)
              (ids_dev_device_id ids) (ids_sqm_id ids))))) /\
    In (EPrint (MsgConfigDetails (ids_machine_id ids) (ids_mac_machine_id ids)
                  (ids_dev_device_id ids) (ids_sqm_id ids))) (st_log st') /\
    (env_copy_ok env = true ->
     st_files st' !! config_backup_path_of env st = Some content).
Proof.
  intros Hrun ids. unfold main in Hrun.
  apply (bind_exit_zero_inv _ _ _ _ _ aborts_one_startup) in Hrun
    as ([] & s1 & H1 & Hrun).
  apply (bind_exit_zero_inv _ _ _ _ _ aborts_one_quiesce) in Hrun
    as ([] & s2 & H2 & Hrun).
  rewrite after_quiescing_eq in Hrun.
  apply (bind_exit_zero_inv _ _ _ _ _ (aborts_one_backup_config _ _)) in Hrun
    as ([] & s3 & H3 & Hrun).
  (* what the first steps leave alone *)
  assert (Hkeep : forall {X} (f : State -> X),
            (forall l s, f (set_log l s) = f s) ->
            (forall n s, f (set_polls n s) = f s) -> f s2 = f st).
  { intros X f Hlog Hpolls.
    rewrite (preserves_quiesce f Hlog Hpolls _ _ _ _ H2).
    exact (preserves_startup f Hlog _ _ _ _ H1). }
  pose proof (Hkeep _ st_files (fun _ _ => eq_refl) (fun _ _ => eq_refl)) as Hfiles2.
  pose proof (Hkeep _ st_draws (fun _ _ => eq_refl) (fun _ _ => eq_refl)) as Hdraws2.
  pose proof (Hkeep _ st_urandom (fun _ _ => eq_refl) (fun _ _ => eq_refl)) as Hur2.
  pose proof (Hkeep _ st_clock (fun _ _ => eq_refl) (fun _ _ => eq_refl)) as Hclock2.
  destruct (preserves_backup_config_sources (storage_file_path_of env)
              (backup_dir_path_of env)) as (Hd & Hu & _).
  pose proof (Hd _ _ _ _ H3) as Hdraws3. pose proof (Hu _ _ _ _ H3) as Hur3.
  pose proof (preserves_backup_config_file (storage_file_path_of env)
                (backup_dir_path_of env) (storage_file_path_of env)
                (storage_not_in_backups _) _ _ _ _ H3) as Hfile3.
  cbv beta in Hfile3.
  apply apply_changes_exit_zero in Hrun
    as (content & members & Hfile & Hparse & Hnew & Hother & Hin);
    [|apply storage_file_not_reg_backup].
  assert (Hids : ids_of env s3 = ids).
  { unfold ids, ids_of. now rewrite Hdraws3, Hur3, Hdraws2, Hur2. }
  rewrite Hids in Hnew, Hin.
  exists content, members.
  split; [rewrite <- Hfiles2, <- Hfile3; exact Hfile|].
  split; [exact Hparse|]. split; [exact Hnew|]. split; [exact Hin|].
  intros Hcopy. unfold config_backup_path_of. rewrite <- Hclock2.
  rewrite Hother.
  - apply (backup_config_copied _ _ _ _ _ _ H3); [|exact Hcopy].
    rewrite <- Hfile3. exact Hfile.
  - intros Heq. exact (storage_not_in_backups _ _ (eq_sym Heq)).
  - intros stamp. apply config_backup_not_reg_backup.
Qed.

(** X19: A run that ends with status 0 has rewritten the config file: the
    file was there when the run started and held a JSON object, and it
    now holds that document with the four identity fields set to the
    identifiers generated in this run, which are the ones the report
    printed.  Status 0 is never reported for a config file that was left
    as it was. *)
Theorem main_exit_zero (env : Env) (st st' : State) :
  main env st = (Exited 0, st') ->
  let ids := ids_of env st in
  exists content members,
    st_files st !! storage_file_path_of env = Some content /\
    json_loads (universal_newlines content) = Some (JObj members) /\
    st_files st' !! storage_file_path_of env =
      Some (written env (json_dumps (JObj (updated_members members
              (ids_machine_id ids) (ids_mac_machine_id ids)
              (ids_dev_device_id ids) (ids_sqm_id ids))))) /\
    In (EPrint (MsgConfigDetails (ids_machine_id ids) (ids_mac_machine_id ids)
                  (ids_dev_device_id ids) (ids_sqm_id ids))) (st_log st').
Proof.
  intros Hrun ids.
  destruct (main_exit_zero_inv env st st' Hrun)
    as (content & members & Hfile & Hparse & Hnew & Hin & _).
  exists content, members. auto.
Qed.

(** X20: After a run that ended with status 0 on a machine where
    [shutil.copy2] works, the backup named in this run holds the text the
    config file had when the run started: neither the registry step nor
    the config step has touched it. *)
Theorem main_backup_holds_original (env : Env) (st st' : State) :
  main env st = (Exited 0, st') ->
  env_copy_ok env = true ->
  is_Some (st_files st !! storage_file_path_of env) /\
  st_files st' !! config_backup_path_of env st =
  st_files st !! storage_file_path_of env.
Proof.
  intros Hrun Hcopy.
  destruct (main_exit_zero_inv env st st' Hrun)
    as (content & members & Hfile & _ & _ & _ & Hbackup).
  rewrite Hfile, (Hbackup Hcopy). split; [eauto|reflexivity].
Qed.

End SuccessfulRun.

Lemma main_exit_zero_witness :
  let env := with_procs leaving quiet_env in
  let st := installed_state None in
  let ids := ids_of env st in
  exists content members,
    st_files st !! storage_file_path_of env = Some content /\
    json_loads (universal_newlines content) = Some (JObj members) /\
    st_files (snd (main env st)) !! storage_file_path_of env =
      Some (written env (json_dumps (JObj (updated_members members
              (ids_machine_id ids) (ids_mac_machine_id ids)
              (ids_dev_device_id ids) (ids_sqm_id ids))))) /\
    In (EPrint (MsgConfigDetails (ids_machine_id ids) (ids_mac_machine_id ids)
                  (ids_dev_device_id ids) (ids_sqm_id ids)))
       (st_log (snd (main env st))).
Proof.
  intros env st.
  apply (main_exit_zero env st (snd (main env st))).
  vm_compute. reflexivity.
Defined.

Lemma main_backup_holds_original_witness :
  let env := with_procs leaving quiet_env in
  let st := installed_state None in
  is_Some (st_files st !! storage_file_path_of env) /\
  st_files (snd (main env st)) !! config_backup_path_of env st =
  st_files st !! storage_file_path_of env.
Proof.
  intros env st.
  apply (main_backup_holds_original env st (snd (main env st))).
  - vm_compute. reflexivity.
  - reflexivity.
Defined.

(** ** What a run leaves alone *)

Lemma preserves_at_of {X A} env (f : State -> X) (m : M A) :
  preserves f m -> preserves_at env f m.
Proof. intros Hm st out st'. apply Hm. Qed.

Lemma preserves_at_bind {X A B} env (f : State -> X) (m : M A) (k : A -> M B) :
  preserves_at env f m -> (forall a, preserves_at env f (k a)) ->
  preserves_at env f (bind m k).
Proof.
  intros Hm Hk st out st' Hrun.
  apply bind_inv in Hrun as [(a & s1 & H1 & H2)|[(c & Hc & _)|(e & He & _)]].
  - rewrite (Hk a _ _ _ H2). exact (Hm _ _ _ H1).
  - exact (Hm _ _ _ Hc).
  - exact (Hm _ _ _ He).
Qed.

(** The answer of the environment is known. *)
Lemma preserves_at_ask {X A B} env (f : State -> X) (g : Env -> A) (k : A -> M B) :
  preserves_at env f (k (g env)) -> preserves_at env f (bind (ask g) k).
Proof. intros Hk st out st' Hrun. exact (Hk _ _ _ Hrun). Qed.

Lemma preserves_new_ids {X} (f : State -> X) :
  (forall n s, f (set_urandom n s) = f s) ->
  (forall n s, f (set_draws n s) = f s) ->
  preserves f new_ids.
Proof.
  intros Hu Hd env st out st' Hrun. unfold new_ids in Hrun. cbv zeta in Hrun.
  apply (f_equal snd) in Hrun. cbn [snd] in Hrun. subst st'.
  now rewrite Hu, Hd.
Qed.

Section RunFrame.
Context `{JsonCodec}.

Lemma preserves_final_report {X} (f : State -> X) guid_ok ok ids backup_dir_path :
  (forall l st, f (set_log l st) = f st) ->
  preserves f (final_report guid_ok ok ids backup_dir_path).
Proof.
  intros Hlog. unfold final_report, iterdir_files, press_enter_to_exit.
  repeat first [apply (preserves_log_only f Hlog) | preserves_step].
Qed.

Lemma backup_config_grows storage_file_path backup_dir_path :
  evolves (dirs_grown (path_lineage backup_dir_path))
    (backup_config storage_file_path backup_dir_path).
Proof. unfold backup_config, copy2, now_stamp. repeat grows_step. Qed.

(** [main] changes a part of the state only where one of its three
    mutating steps does. *)
Lemma preserves_at_main {X} env (f : State -> X) :
  (forall l s, f (set_log l s) = f s) ->
  (forall n s, f (set_polls n s) = f s) ->
  (forall n s, f (set_urandom n s) = f s) ->
  (forall n s, f (set_draws n s) = f s) ->
  preserves_at env f
    (backup_config (storage_file_path_of env) (backup_dir_path_of env)) ->
  preserves_at env f
    (if env_win32 env then update_machine_guid (backup_dir_path_of env)
     else print MsgSkipGuidNonWindows;; ret false) ->
  (forall a b c d,
     preserves_at env f (update_storage_file (storage_file_path_of env) a b c d)) ->
  preserves_at env f main.
Proof.
  intros Hlog Hpolls Hu Hd Hbackup Hreg Hcfg. unfold main.
  apply preserves_at_bind;
    [apply preserves_at_of, preserves_startup; assumption|intros _].
  apply preserves_at_bind;
    [apply preserves_at_of, preserves_quiesce; assumption|intros _].
  intros st out st' Hrun. rewrite after_quiescing_eq in Hrun. revert st out st' Hrun.
  apply preserves_at_bind; [exact Hbackup|intros _].
  unfold apply_changes.
  apply preserves_at_bind;
    [apply preserves_at_of, preserves_log_only, Hlog|intros _].
  apply preserves_at_bind;
    [apply preserves_at_of, preserves_new_ids; assumption|intros ids].
  apply preserves_at_ask.
  apply preserves_at_bind; [exact Hreg|intros guid_ok].
  apply preserves_at_bind;
    [apply preserves_at_of, preserves_log_only, Hlog|intros _].
  apply preserves_at_bind; [apply Hcfg|intros ok].
  apply preserves_at_of, preserves_final_report, Hlog.
Qed.

(** The same for the directories: [main] adds directories only where
    one of its steps does. *)
Lemma evolves_at_main env (l : list string) :
  evolves_at env (dirs_grown l)
    (backup_config (storage_file_path_of env) (backup_dir_path_of env)) ->
  evolves_at env (dirs_grown l) (update_machine_guid (backup_dir_path_of env)) ->
  evolves_at env (dirs_grown l) main.
Proof.
  intros Hbackup Hreg st out st' Hrun.
  assert (Hkeep : forall {A} (m : M A) s o s',
            preserves st_dirs m -> m env s = (o, s') -> dirs_grown l s s').
  { intros A m s o s' Hm Hr. pose proof (Hm _ _ _ _ Hr) as Hd.
    split; [rewrite Hd; reflexivity|intros q Hq; left; now rewrite <- Hd]. }
  unfold main in Hrun.
  apply bind_inv in Hrun as [([] & s1 & H1 & Hrun)|[(c & Hc & _)|(e & He & _)]].
  2,3: eapply Hkeep; [apply preserves_startup; intros; reflexivity|eassumption].
  apply (dirs_grown_trans l _ s1);
    [eapply Hkeep; [apply preserves_startup; intros; reflexivity|eassumption]|].
  apply bind_inv in Hrun as [([] & s2 & H2 & Hrun)|[(c & Hc & _)|(e & He & _)]].
  2,3: eapply Hkeep; [apply preserves_quiesce; intros; reflexivity|eassumption].
  apply (dirs_grown_trans l _ s2);
    [eapply Hkeep; [apply preserves_quiesce; intros; reflexivity|eassumption]|].
  rewrite after_quiescing_eq in Hrun.
  apply bind_inv in Hrun as [([] & s3 & H3 & Hrun)|[(c & Hc & _)|(e & He & _)]].
  2,3: eapply Hbackup; eassumption.
  apply (dirs_grown_trans l _ s3); [eapply Hbackup; eassumption|].
  unfold apply_changes in Hrun.
  apply bind_inv in Hrun as [([] & s4 & H4 & Hrun)|[(c & Hc & _)|(e & He & _)]].
  2,3: eapply Hkeep; [apply preserves_log_only; intros; reflexivity|eassumption].
  apply (dirs_grown_trans l _ s4);
    [eapply Hkeep; [apply preserves_log_only; intros; reflexivity|eassumption]|].
  apply bind_inv in Hrun as [(ids & s5 & H5 & Hrun)|[(c & Hc & _)|(e & He & _)]].
  2,3: eapply Hkeep; [apply preserves_new_ids; intros; reflexivity|eassumption].
  apply (dirs_grown_trans l _ s5);
    [eapply Hkeep; [apply preserves_new_ids; intros; reflexivity|eassumption]|].
  rewrite (bind_val (ask env_win32) _ _ _ _ _ eq_refl) in Hrun.
  assert (Hstep : forall s o s',
            (if env_win32 env then update_machine_guid (backup_dir_path_of env)
             else print MsgSkipGuidNonWindows;; ret false) env s = (o, s') ->
            dirs_grown l s s').
  { intros s o s' Hr. destruct (env_win32 env); [exact (Hreg _ _ _ Hr)|].
    eapply Hkeep; [|exact Hr]. repeat preserves_step. }
  apply bind_inv in Hrun as [(guid_ok & s6 & H6 & Hrun)|[(c & Hc & _)|(e & He & _)]].
  2,3: eapply Hstep; eassumption.
  apply (dirs_grown_trans l _ s6); [eapply Hstep; eassumption|].
  apply bind_inv in Hrun as [([] & s7 & H7 & Hrun)|[(c & Hc & _)|(e & He & _)]].
  2,3: eapply Hkeep; [apply preserves_log_only; intros; reflexivity|eassumption].
  apply (dirs_grown_trans l _ s7);
    [eapply Hkeep; [apply preserves_log_only; intros; reflexivity|eassumption]|].
  apply bind_inv in Hrun as [(ok & s8 & H8 & Hrun)|[(c & Hc & _)|(e & He & _)]].
  2,3: eapply Hkeep; [apply update_storage_file_preserves_rest|eassumption].
  apply (dirs_grown_trans l _ s8);
    [eapply Hkeep; [apply update_storage_file_preserves_rest|eassumption]|].
  eapply Hkeep; [apply preserves_final_report; intros; reflexivity|eassumption].
Qed.

(** The ancestors of the backup directory: the [globalStorage], [User]
    and [Cursor] directories, then the configuration directory and its
    own ancestors. *)
Lemma backup_dir_lineage (env : Env) :
  path_lineage (backup_dir_path_of env) =
  [backup_dir_path_of env; global_storage_dir env;
   path_join (path_join (env_config_dir env) "Cursor") "User";
   path_join (env_config_dir env) "Cursor"] ++ path_lineage (env_config_dir env).
Proof.
  unfold backup_dir_path_of, global_storage_dir.
  now rewrite !path_lineage_join by reflexivity.
Qed.

(** X21: Whatever happens in a run, [main] keeps to its own files: every file
    other than the config file and the paths under the backup directory
    is as it was; no directory is removed, and the directories made are
    the backup directory or ancestors of it; and on a platform other
    than Windows the registry value is not touched. *)
Theorem main_frame (env : Env) (st : State) :
  let st' := snd (main env st) in
  (forall p, p <> storage_file_path_of env ->
             (forall name, p <> path_join (backup_dir_path_of env) name) ->
             st_files st' !! p = st_files st !! p) /\
  st_dirs st ⊆ st_dirs st' /\
  (forall q, q ∈ st_dirs st' ->
             q ∈ st_dirs st \/ In q (path_lineage (backup_dir_path_of env))) /\
  (env_win32 env = false -> st_guid st' = st_guid st).
Proof.
  cbv zeta.
  pose proof (surjective_pairing (main env st)) as Hrun.
  split; [|split; [|split]].
  - intros p Hp Hfar.
    refine (preserves_at_main env (fun s => st_files s !! p) _ _ _ _ _ _ _ _ _ _ Hrun);
      try (intros; reflexivity).
    + apply preserves_at_of, preserves_backup_config_file, Hfar.
    + destruct (env_win32 env).
      * apply preserves_at_of, update_machine_guid_preserves_file.
        intros stamp. apply Hfar.
      * apply preserves_at_of. repeat preserves_step.
    + intros a b c d.
      apply preserves_at_of, update_storage_file_preserves_file, Hp.
  - refine (proj1 (evolves_at_main env (path_lineage (backup_dir_path_of env))
                     _ _ _ _ _ Hrun)).
    + intros s o s'. apply backup_config_grows.
    + intros s o s'. apply update_machine_guid_grows.
  - refine (proj2 (evolves_at_main env (path_lineage (backup_dir_path_of env))
                     _ _ _ _ _ Hrun)).
    + intros s o s'. apply backup_config_grows.
    + intros s o s'. apply update_machine_guid_grows.
  - intros Hwin.
    refine (preserves_at_main env st_guid _ _ _ _ _ _ _ _ _ _ Hrun);
      try (intros; reflexivity).
    + apply preserves_at_of, preserves_backup_config_sources.
    + rewrite Hwin. apply preserves_at_of. repeat preserves_step.
    + intros a b c d. apply preserves_at_of, update_storage_file_preserves_rest.
Qed.

End RunFrame.

(** On a machine where only the configuration directory exists, next to
    a stray config file: a run leaves an unrelated file and the registry
    value alone, and the directories it makes are the four down to the
    backup directory. *)
Lemma main_frame_witness :
  let env := with_procs leaving quiet_env in
  let st := set_dirs {["/cfg"; "/home"]}
              (state_with {[installed_path := sample_config; "/home/notes.txt" := "mine"]}
                 (Some "old-guid")) in
  let st' := snd (main env st) in
  st_files st' !! "/home/notes.txt" = Some "mine" /\
  "/home" ∈ st_dirs st' /\
  (forall q, q ∈ st_dirs st' ->
     q ∈ st_dirs st \/
     In q ["/cfg/Cursor/User/globalStorage/backups"; "/cfg/Cursor/User/globalStorage";
           "/cfg/Cursor/User"; "/cfg/Cursor"; "/cfg"]) /\
  st_guid st' = Some "old-guid".
Proof.
  intros env st st'.
  destruct (main_frame env st) as (Hfiles & Hsub & Hnew & Hguid).
  split; [|split; [|split]].
  - subst st'. rewrite (Hfiles "/home/notes.txt").
    + reflexivity.
    + discriminate.
    + intros name Heq. vm_compute in Heq. discriminate Heq.
  - apply Hsub. apply (bool_decide_unpack _). vm_compute. exact I.
  - exact Hnew.
  - subst st'. rewrite Hguid; reflexivity.
Defined.

(** ** Runs that stop before changing anything *)

Lemma aborts_scan_close_cursor_process name :
  aborts exit_status_one is_attribute_error (close_cursor_process name).
Proof.
  intros env st out st' Hrun.
  destruct (close_cursor_process_run name env st) as (new & _ & _ & _ & _ & Hout).
  rewrite Hrun in Hout. cbn [fst] in Hout.
  destruct out as [a|code|e]; [exact I|exact (proj1 Hout)|exact Hout].
Qed.

Lemma aborts_scan_startup : aborts exit_status_one is_attribute_error startup.
Proof.
  unfold startup.
  repeat first [apply aborts_one_press_enter_to_exit | aborts_step].
Qed.

Lemma aborts_scan_quiesce : aborts exit_status_one is_attribute_error quiesce.
Proof.
  unfold quiesce. apply aborts_bind; [|intros _];
    apply aborts_scan_close_cursor_process.
Qed.

(** Lines 369-377 when the backup directory is not there and the
    operating system refuses to make it: the block exits with status 1;
    [Path.mkdir] may have made ancestors of the directory by then, and
    nothing else has changed. *)
Lemma backup_config_mkdir_fails storage_file_path dir name env st :
  no_slash name = true ->
  st_files st !! path_join dir name = None ->
  path_join dir name ∉ st_dirs st ->
  env_mkdir_ok env (path_join dir name) = false ->
  exists new D,
    backup_config storage_file_path (path_join dir name) env st =
      (Exited 1,
       set_dirs D (set_log (EInput :: EPrint (MsgBackupDirFailed (path_join dir name)) ::
                            new ++ st_log st) st)) /\
    st_dirs st ⊆ D /\
    (forall q, q ∈ D -> q ∈ st_dirs st \/ In q (path_lineage dir)) /\
    path_join dir name ∉ D.
Proof.
  intros Hname Hnf Hnd Hmk. unfold backup_config, press_enter_to_exit. run_m.
  rewrite Hnf.
  rewrite (bool_decide_eq_false_2 (is_Some None)) by (intros [? ?]; discriminate).
  rewrite (bool_decide_eq_false_2 (path_join dir name ∈ st_dirs st)) by exact Hnd.
  simpl_state. unfold mkdir.
  destruct (mkdir_parents_run (path_lineage (path_join dir name)) env st)
    as (out & new & D & -> & _ & _ & Hsub & Hin & _ & Hleaf).
  rewrite (path_lineage_join _ _ Hname) in Hin, Hleaf.
  destruct (Hleaf _ eq_refl Hnd (path_join_not_in_lineage dir name)) as [Hraise Hnot].
  rewrite (Hraise Hmk) in *. simpl_state.
  exists new, D. split; [reflexivity|]. split; [exact Hsub|].
  split; [|exact (Hnot eq_refl)].
  intros q Hq. destruct (Hin q Hq) as [?|[<-|?]]; [now left| |now right].
  exfalso. exact (Hnot eq_refl Hq).
Qed.

Section EarlyStops.
Context `{JsonCodec}.

(** X22: Without administrator rights [main] does nothing: it prints the
    request to run as administrator, waits for Enter and exits with
    status 1, before the screen is cleared, any process is looked at or
    any file, directory or registry value is read. *)
Theorem main_without_admin (env : Env) (st : State) :
  env_is_admin env = false ->
  main env st =
  (Exited 1, set_log (EInput :: EPrint MsgNeedAdmin :: st_log st) st).
Proof.
  intros Hadmin. unfold main.
  assert (Hs : startup env st =
               (Exited 1, set_log (EInput :: EPrint MsgNeedAdmin :: st_log st) st)).
  { unfold startup, press_enter_to_exit. run_m. rewrite Hadmin. reflexivity. }
  exact (bind_exit _ _ _ _ _ _ Hs).
Qed.

(** X23: When the backup directory does not exist and the operating system
    refuses to make it, the run stops with status 1 (unless the process
    scan has already raised [AttributeError]).  No file or registry
    value has changed, no identifier has been drawn and no timestamp
    taken; the backup directory does not exist, but ancestors of it that
    were missing may have been made on the way: no directory is removed
    and every new one is an ancestor of the backup directory. *)
Theorem main_backup_dir_failure (env : Env) (st : State) :
  st_files st !! backup_dir_path_of env = None ->
  backup_dir_path_of env ∉ st_dirs st ->
  env_mkdir_ok env (backup_dir_path_of env) = false ->
  let r := main env st in
  (fst r = Exited 1 \/ fst r = Raised AttributeError) /\
  durable_content (snd r) = durable_content st /\
  st_dirs st ⊆ st_dirs (snd r) /\
  (forall q, q ∈ st_dirs (snd r) ->
             q ∈ st_dirs st \/ In q (path_lineage (global_storage_dir env))) /\
  backup_dir_path_of env ∉ st_dirs (snd r).
Proof.
  intros Hnf Hnd Hmk. cbv zeta.
  destruct (main env st) as [out st'] eqn:Hrun. cbn [fst snd].
  unfold main in Hrun.
  assert (Hdur : forall l s, durable (set_log l s) = durable s) by reflexivity.
  assert (Hdup : forall n s, durable (set_polls n s) = durable s) by reflexivity.
  assert (Hsame : forall s, durable s = durable st ->
            durable_content s = durable_content st /\
            st_dirs st ⊆ st_dirs s /\
            (forall q, q ∈ st_dirs s ->
                       q ∈ st_dirs st \/ In q (path_lineage (global_storage_dir env))) /\
            backup_dir_path_of env ∉ st_dirs s).
  { intros s Hs. unfold durable in Hs. injection Hs as Hf Hd Hg Hdr Hu Hw Hc.
    unfold durable_content. rewrite Hf, Hd, Hg, Hdr, Hu, Hw, Hc.
    split; [reflexivity|]. split; [reflexivity|]. split; [auto|exact Hnd]. }
  apply bind_inv in Hrun as [([] & s1 & H1 & Hrun)|[(c & Hc & ->)|(e & He & ->)]].
  2:{ rewrite (aborts_scan_startup _ _ _ _ Hc).
      split; [now left|exact (Hsame _ (preserves_startup durable Hdur _ _ _ _ Hc))]. }
  2:{ rewrite (aborts_scan_startup _ _ _ _ He).
      split; [now right|exact (Hsame _ (preserves_startup durable Hdur _ _ _ _ He))]. }
  pose proof (preserves_startup durable Hdur _ _ _ _ H1) as Hd1.
  apply bind_inv in Hrun as [([] & s2 & H2 & Hrun)|[(c & Hc & ->)|(e & He & ->)]].
  2:{ rewrite (aborts_scan_quiesce _ _ _ _ Hc).
      split; [now left|]. apply Hsame.
      now rewrite (preserves_quiesce durable Hdur Hdup _ _ _ _ Hc). }
  2:{ rewrite (aborts_scan_quiesce _ _ _ _ He).
      split; [now right|]. apply Hsame.
      now rewrite (preserves_quiesce durable Hdur Hdup _ _ _ _ He). }
  pose proof (preserves_quiesce durable Hdur Hdup _ _ _ _ H2) as Hd2.
  rewrite Hd1 in Hd2.
  assert (Hf2 : st_files s2 = st_files st /\ st_dirs s2 = st_dirs st).
  { unfold durable in Hd2. now injection Hd2. }
  destruct Hf2 as [Hf2 Hdirs2].
  rewrite after_quiescing_eq in Hrun.
  destruct (backup_config_mkdir_fails (storage_file_path_of env)
              (global_storage_dir env) "backups" env s2 eq_refl
              ltac:(now rewrite Hf2) ltac:(now rewrite Hdirs2) Hmk)
    as (new & D & Hfail & Hsub & Hin & Hleaf).
  change (path_join (global_storage_dir env) "backups")
    with (backup_dir_path_of env) in Hfail, Hleaf.
  rewrite (bind_exit _ _ _ _ _ _ Hfail) in Hrun.
  injection Hrun as <- <-.
  split; [now left|].
  unfold durable in Hd2. injection Hd2 as Hf Hd Hg Hdr Hu Hw Hc.
  unfold durable_content. cbn [st_files st_dirs st_guid st_draws st_urandom st_writes
                               st_clock set_dirs set_log].
  rewrite Hf, Hg, Hdr, Hu, Hw, Hc. rewrite Hd in Hsub, Hin.
  split; [reflexivity|]. split; [exact Hsub|]. split; [exact Hin|exact Hleaf].
Qed.

End EarlyStops.

Lemma main_without_admin_witness :
  main (with_admin false quiet_env) (installed_state None) =
  (Exited 1,
   set_log (EInput :: EPrint MsgNeedAdmin :: st_log (installed_state None))
     (installed_state None)).
Proof.
  apply (main_without_admin (with_admin false quiet_env) (installed_state None)).
  reflexivity.
Defined.

(** On a machine where Cursor has never run, with a configuration
    directory in which everything can be made but [backups]: the run
    exits with status 1 having made the three directories above the
    backup directory, and nothing else. *)
Lemma main_backup_dir_failure_witness :
  let env := with_mkdir (fun d => negb (String.eqb d "/cfg/Cursor/User/globalStorage/backups"))
               quiet_env in
  let st := set_dirs {["/cfg"]} (state_with ∅ (Some "old-guid")) in
  let r := main env st in
  fst r = Exited 1 /\
  durable_content (snd r) = durable_content st /\
  st_dirs (snd r) =
    {["/cfg/Cursor/User/globalStorage"; "/cfg/Cursor/User"; "/cfg/Cursor"; "/cfg"]} /\
  (forall q, q ∈ st_dirs (snd r) ->
     q ∈ st_dirs st \/
     In q ["/cfg/Cursor/User/globalStorage"; "/cfg/Cursor/User"; "/cfg/Cursor"; "/cfg"]) /\
  "/cfg/Cursor/User/globalStorage/backups" ∉ st_dirs (snd r).
Proof.
  intros env st r.
  destruct (main_backup_dir_failure env st) as (Hout & Hkeep & _ & Hnew & Hleaf).
  - vm_compute. reflexivity.
  - apply (bool_decide_unpack _). vm_compute. exact I.
  - reflexivity.
  - split; [|split; [exact Hkeep|split; [|split; [exact Hnew|exact Hleaf]]]].
    + destruct Hout as [Hout|Hout]; [exact Hout|].
      vm_compute in Hout. discriminate Hout.
    + apply (bool_decide_unpack _). vm_compute. exact I.
Defined.

(** ** How long a run can wait *)

Lemma count_sleeps_rev (l : list event) : count_sleeps (rev l) = count_sleeps l.
Proof.
  induction l as [|e l IH]; [reflexivity|].
  cbn [rev]. rewrite count_sleeps_app, !count_sleeps_cons, IH.
  change (count_sleeps []) with 0. lia.
Qed.

Lemma count_sleeps_none (l : list event) :
  forallb not_sleep l = true -> count_sleeps l = 0.
Proof.
  induction l as [|e l IH]; [reflexivity|]. cbn [forallb].
  intros [He Hl]%andb_prop. rewrite count_sleeps_cons, (IH Hl).
  unfold not_sleep in He. now destruct (is_sleep e).
Qed.

Lemma sleeps_one_wait_none (l : list event) :
  forallb not_sleep l = true -> forallb sleeps_one_wait l = true.
Proof.
  induction l as [|e l IH]; [reflexivity|]. cbn [forallb].
  intros [He Hl]%andb_prop. rewrite (IH Hl). now destruct e.
Qed.

Lemma waits_at_most_bind {A B} a b c d (m : M A) (k : A -> M B) :
  waits_at_most a b m -> (forall x, waits_at_most c d (k x)) ->
  waits_at_most (a + c) (b + d) (bind m k).
Proof.
  intros Hm Hk env st out st' Hrun.
  apply bind_inv in Hrun as [(x & s1 & H1 & H2)|[(code & Hc & _)|(e & He & _)]].
  - destruct (Hm _ _ _ _ H1) as (Hp1 & new1 & Hl1 & Hc1 & Hs1).
    destruct (Hk x _ _ _ _ H2) as (Hp2 & new2 & Hl2 & Hc2 & Hs2).
    split; [lia|]. exists (new2 ++ new1).
    split; [rewrite Hl2, Hl1; now rewrite app_assoc|].
    split; [rewrite count_sleeps_app; lia|].
    rewrite forallb_app, Hs1, Hs2. reflexivity.
  - destruct (Hm _ _ _ _ Hc) as (Hp1 & new1 & Hl1 & Hc1 & Hs1).
    split; [lia|]. exists new1. split; [exact Hl1|]. split; [lia|exact Hs1].
  - destruct (Hm _ _ _ _ He) as (Hp1 & new1 & Hl1 & Hc1 & Hs1).
    split; [lia|]. exists new1. split; [exact Hl1|]. split; [lia|exact Hs1].
Qed.

(** A step that neither enumerates nor sleeps. *)
Lemma waits_at_most_quiet {A} (m : M A) :
  preserves st_polls m -> emits not_sleep m -> waits_at_most 0 0 m.
Proof.
  intros Hp Hs env st out st' Hrun.
  rewrite (Hp _ _ _ _ Hrun). split; [lia|].
  destruct (Hs _ _ _ _ Hrun) as (new & Hlog & Hnew).
  exists new. split; [exact Hlog|].
  split; [now rewrite count_sleeps_none|now apply sleeps_one_wait_none].
Qed.

Lemma waits_at_most_close_cursor_process name :
  waits_at_most (1 + MAX_RETRIES) (MAX_RETRIES - 1) (close_cursor_process name).
Proof.
  intros env st out st' Hrun.
  destruct (close_cursor_process_run name env st)
    as (new & Hst & _ & Hsl & Hpolls & _).
  rewrite Hrun in Hst, Hpolls. cbn [snd] in Hst, Hpolls.
  split; [lia|].
  destruct (emits_sleeps_close_cursor_process name _ _ _ _ Hrun) as (n & Hn & Hall).
  exists n. split; [exact Hn|]. split; [|exact Hall].
  rewrite Hst in Hn at 1. cbn [st_log set_polls logged set_log] in Hn.
  apply app_inv_tail in Hn. subst n. rewrite count_sleeps_rev. lia.
Qed.

Lemma emits_not_sleep_startup : emits not_sleep startup.
Proof. unfold startup. emits_auto. Qed.

Lemma emits_not_sleep_update_machine_guid dir :
  emits not_sleep (update_machine_guid dir).
Proof.
  unfold update_machine_guid, import_winreg, reg_open, read_original_guid,
    reg_query, backup_registry, reg_export, set_and_verify, reg_set,
    reg_readback, restore_from_backup, reg_import.
  emits_auto.
Qed.

Section RunWaits.
Context `{JsonCodec}.

Lemma emits_not_sleep_after_quiescing : emits not_sleep after_quiescing.
Proof.
  unfold after_quiescing, get_storage_file_path, get_backup_dir_path,
    backup_config, apply_changes.
  repeat (first [ apply emits_not_sleep_update_machine_guid
                | emits_step | solve [eauto with emits] ]);
    unfold update_storage_file, mutate_config, ensure_telemetry,
      set_identity_fields, write_with_rollback, final_report, iterdir_files;
    emits_auto.
Qed.

Lemma preserves_polls_after_quiescing : preserves st_polls after_quiescing.
Proof.
  unfold after_quiescing, get_storage_file_path, get_backup_dir_path,
    backup_config, apply_changes, copy2, now_stamp.
  repeat first
    [ apply update_machine_guid_preserves_counters
    | apply update_storage_file_preserves_rest
    | apply preserves_new_ids; intros; reflexivity
    | apply preserves_final_report; intros; reflexivity
    | preserves_step ].
Qed.

(** X24: A run cannot hang on the processes it waits for: [main] enumerates
    the process table at most [2 * (1 + MAX_RETRIES)] = 12 times and
    sleeps at most [2 * (MAX_RETRIES - 1)] = 8 times, one second each,
    all of it in the two quiescing calls. *)
Theorem main_waits_bounded (env : Env) (st : State) :
  let st' := snd (main env st) in
  st_polls st <= st_polls st' <= st_polls st + 2 * (1 + MAX_RETRIES) /\
  exists new,
    st_log st' = new ++ st_log st /\
    count_sleeps new <= 2 * (MAX_RETRIES - 1) /\
    forallb sleeps_one_wait new = true.
Proof.
  cbv zeta.
  assert (Hmain : waits_at_most
                    (0 + ((1 + MAX_RETRIES) + (1 + MAX_RETRIES) + 0))
                    (0 + ((MAX_RETRIES - 1) + (MAX_RETRIES - 1) + 0)) main).
  { unfold main, quiesce.
    apply waits_at_most_bind;
      [apply waits_at_most_quiet;
       [apply preserves_startup; intros; reflexivity|apply emits_not_sleep_startup]
      |intros _].
    apply waits_at_most_bind; [|intros _].
    - apply waits_at_most_bind; [|intros _];
        apply waits_at_most_close_cursor_process.
    - apply waits_at_most_quiet;
        [apply preserves_polls_after_quiescing|apply emits_not_sleep_after_quiescing]. }
  destruct (Hmain env st _ _ (surjective_pairing _)) as (Hp & new & Hlog & Hc & Hs).
  split; [lia|]. exists new. split; [exact Hlog|]. split; [lia|exact Hs].
Qed.

(** X25: The config file is never inside the backup directory, nor the
    directory itself: no backup written by a run can replace it. *)
Theorem storage_file_outside_backups (env : Env) (st : State) :
  exists storage_file_path backup_dir_path,
    get_storage_file_path env st = (Val storage_file_path, st) /\
    get_backup_dir_path env st = (Val backup_dir_path, st) /\
    storage_file_path <> backup_dir_path /\
    forall name, storage_file_path <> path_join backup_dir_path name.
Proof.
  exists (storage_file_path_of env), (backup_dir_path_of env).
  split; [reflexivity|]. split; [reflexivity|]. split.
  - unfold storage_file_path_of, backup_dir_path_of. intros Heq.
    apply path_join_inj_r in Heq. discriminate Heq.
  - intros name. apply storage_not_in_backups.
Qed.

End RunWaits.

(** ** The restore, round trip *)

(** Lines 222-250 when the value is written, the verifying query raises
    and the import works: the value of the backup file is back. *)
Lemma set_and_verify_restores (original_guid bfp new_guid content : string)
  (env : Env) (st : State) :
  env_reg_set_ok env = true ->
  env_reg_readback env new_guid = None ->
  String.eqb original_guid "" = false ->
  st_files st !! bfp = Some content ->
  env_reg_import_ok env = true ->
  exists st2 new,
    set_and_verify original_guid bfp new_guid env st = (Val false, st2) /\
    st_guid st2 = reg_value_of content /\
    st_log st2 = new ++ st_log st /\
    In (ERegSet new_guid true) new /\
    In (ERegImport bfp true) new /\
    In (EPrint MsgRegRestored) new.
Proof.
  intros Hset Hread Horig Hfile Himp.
  unfold set_and_verify, reg_set, reg_readback, restore_from_backup, reg_import.
  run_m.
  repeat (simpl_state;
          first [ rewrite Hset | rewrite Hread | rewrite Horig | rewrite Hfile
                | rewrite Himp | rewrite bool_decide_eq_true_2 by eauto ]).
  simpl_state. eexists _, _. split; [reflexivity|]. simpl_state.
  split; [reflexivity|]. split; [log_suffix|]. cbn [In]. auto 10.
Qed.

(** X26: When [SetValueEx] has written the new value but the verifying query
    raises, the handler brings the old value back: with the original
    value read (and not empty), the export and the import working, the
    registry holds after the call what it held before, and the call
    returns [False]. *)
Theorem update_machine_guid_restores_original (backup_dir : string) (env : Env)
  (st : State) (g : string) :
  env_win32 env = true ->
  env_winreg env = true ->
  env_reg_open_ok env = true ->
  env_reg_query_ok env = true ->
  st_guid st = Some g ->
  g <> "" ->
  env_reg_export_ok env = true ->
  env_reg_set_ok env = true ->
  env_reg_readback env (reg_new_guid env st) = None ->
  env_reg_import_ok env = true ->
  let r := update_machine_guid backup_dir env st in
  fst r = Val false /\
  st_guid (snd r) = Some g /\
  exists new,
    st_log (snd r) = new ++ st_log st /\
    In (ERegSet (reg_new_guid env st) true) new /\
    In (ERegImport (reg_backup_path backup_dir env st) true) new /\
    In (EPrint MsgRegRestored) new.
Proof.
  intros Hwin Hreg Hopen Hquery Hguid Hg Hexp Hset Hread Himp. cbv zeta.
  destruct (update_machine_guid_prefix backup_dir env st Hwin Hreg Hopen)
    as (s1 & new1 & Hlog1 & _ & _ & Hfile1 & Hrun).
  assert (Horig : original_guid_of env st = g)
    by (unfold original_guid_of; now rewrite Hguid, Hquery).
  destruct (set_and_verify_restores (original_guid_of env st)
              (reg_backup_path backup_dir env st) (reg_new_guid env st)
              (reg_file_of (st_guid st)) env s1 Hset Hread)
    as (s2 & new2 & Hrun2 & Hguid2 & Hlog2 & Hin1 & Hin2 & Hin3).
  { rewrite Horig. now apply String.eqb_neq. }
  { exact (Hfile1 Hexp). }
  { exact Himp. }
  rewrite (Hrun _ _ Hrun2). cbn [fst snd].
  split; [reflexivity|]. split.
  - rewrite Hguid2, Hguid. unfold reg_file_of, reg_value_of. cbn [default].
    unfold id. now rewrite (proj2 (String.eqb_neq g "") Hg).
  - exists (new2 ++ new1). split; [rewrite Hlog2, Hlog1; now rewrite app_assoc|].
    repeat split; apply in_or_app; now left.
Qed.

Lemma update_machine_guid_restores_original_witness :
  let env := with_readback (fun _ => None)
               (with_reg_set true (win_env true true true)) in
  let st := installed_state (Some "old-guid") in
  let r := update_machine_guid "/cfg/backups" env st in
  fst r = Val false /\
  st_guid (snd r) = Some "old-guid" /\
  exists new,
    st_log (snd r) = new ++ st_log st /\
    In (ERegSet (reg_new_guid env st) true) new /\
    In (ERegImport (reg_backup_path "/cfg/backups" env st) true) new /\
    In (EPrint MsgRegRestored) new.
Proof.
  intros env st.
  apply (update_machine_guid_restores_original "/cfg/backups" env st "old-guid");
    try reflexivity.
  discriminate.
Defined.

(** ** Two runs that differ in the answers of the registry *)


Section Cosim.
Variables env' env : Env.



Section Alike.
Variable R : State -> State -> Prop.












End Alike.
End Cosim.





Section TwoRuns.
Variable env : Env.
Variable set_ok : bool.
Variable readback : string -> option string.
Variable import_ok : bool.

Let env' : Env := with_registry_answers set_ok readback import_ok env.

(** *** Up to the registry write the two runs are one *)








Section BothRuns.
Context `{JsonCodec}.


(** *** The registry step: the same outside the registry *)



Lemma same_outside_registry_refl s : same_outside_registry s s.
Proof. reflexivity. Qed.



(** *** After the registry step: the same config step and report *)







(** *** What the terminal report of a successful run is made of *)






End BothRuns.
End TwoRuns.

Section ReportClaim.
Context `{JsonCodec}.


End ReportClaim.

